(** * fc.maintenance: requests and the request manager

    A shallow embedding of [fc/maintenance/request.py] and
    [fc/maintenance/reqmanager.py] (with [fc/util/time_date.py]), and the
    properties of the request life cycle proved about it.

    Python objects that are mutated in place live in the state of a small
    state-and-exception monad; a raised exception keeps every mutation
    made before it, as in Python. *)

From Stdlib Require Import ZArith NArith List Ascii String Bool Lia Permutation Sorted.
Import ListNotations.

Local Open Scope string_scope.
Local Open Scope list_scope.

(** ** Exceptions and the monad *)

(** The exception classes the modelled code meets.  [KeyboardInterrupt]
    and [SystemExit] derive from [BaseException] only, the others from
    [Exception]. *)
Inductive Exn : Type :=
| TypeError (msg : string)
| KeyError (key : string)
| AssertionError (msg : string)
| OSError
| ParseError (literal : string)
| CalledProcessError (cmd : string)
| RemoteError
| ActivityError (msg : string)
| KeyboardInterrupt
| SystemExit.

(** [str(e)] *)
Definition str (e : Exn) : string :=
  match e with
  | TypeError msg => msg
  | KeyError key => key
  | AssertionError msg => msg
  | OSError => "OSError"
  | ParseError literal => literal
  | CalledProcessError cmd => cmd
  | RemoteError => "RemoteError"
  | ActivityError msg => msg
  | KeyboardInterrupt => ""
  | SystemExit => ""
  end.

Definition is_KeyError (e : Exn) : bool :=
  match e with KeyError _ => true | _ => false end.

Inductive Result (A : Type) : Type :=
| Ok (a : A)
| Raise (e : Exn).
Arguments Ok {A} a.
Arguments Raise {A} e.

(** A computation over a mutable state [S]: it returns or raises, and in
    both cases hands back the state it left behind. *)
Definition M (S A : Type) : Type := S -> Result A * S.

Definition ret {S A} (a : A) : M S A := fun s => (Ok a, s).

Definition raise {S A} (e : Exn) : M S A := fun s => (Raise e, s).

Definition bind {S A B} (m : M S A) (k : A -> M S B) : M S B :=
  fun s =>
    match m s with
    | (Ok a, s') => k a s'
    | (Raise e, s') => (Raise e, s')
    end.

(** [try: m  except <classes>: h] where [catches] selects the classes. *)
Definition try_except {S A} (catches : Exn -> bool) (m : M S A)
    (h : Exn -> M S A) : M S A :=
  fun s =>
    match m s with
    | (Ok a, s') => (Ok a, s')
    | (Raise e, s') => if catches e then h e s' else (Raise e, s')
    end.

(** [isinstance(e, Exception)], what [except Exception] catches. *)
Definition Exception (e : Exn) : bool :=
  match e with
  | KeyboardInterrupt | SystemExit => false
  | _ => true
  end.

(** [try: m  finally: f] *)
Definition try_finally {S A} (m : M S A) (f : M S unit) : M S A :=
  fun s =>
    match m s with
    | (r, s') =>
        match f s' with
        | (Ok _, s'') => (r, s'')
        | (Raise e, s'') => (Raise e, s'')
        end
    end.

Definition of_result {S A} (r : Result A) : M S A := fun s => (r, s).

Declare Scope py_scope.
Delimit Scope py_scope with py.
Notation "x <- m ;; k" := (bind m (fun x => k))
  (at level 100, m at next level, right associativity) : py_scope.
Notation "m ;; k" := (bind m (fun _ => k))
  (at level 100, right associativity) : py_scope.
Local Open Scope py_scope.

(** [for x in xs: body x] *)
Fixpoint for_each {S A} (xs : list A) (body : A -> M S unit) : M S unit :=
  match xs with
  | [] => ret tt
  | x :: xs' => body x ;; for_each xs' body
  end.

(** The object a method is called on, next to the rest of the state. *)
Definition self_get {X W A} (f : X -> A) : M (X * W) A :=
  fun s => (Ok (f (fst s)), s).

Definition self_set {X W} (f : X -> X) : M (X * W) unit :=
  fun s => (Ok tt, (f (fst s), snd s)).

Definition in_world {X W A} (m : M W A) : M (X * W) A :=
  fun s => match m (snd s) with (r, w') => (r, (fst s, w')) end.

(** ** Time (fc/util/time_date.py and [datetime]) *)

(** A [datetime]: microseconds on the time line (UTC for an aware value,
    wall clock for a naive one) and the UTC offset in minutes, absent for
    a naive value. *)
Record datetime : Type := mk_datetime {
  instant : Z;
  tzinfo : option Z
}.

Definition aware (d : datetime) : bool :=
  match tzinfo d with Some _ => true | None => false end.

Definition naive_vs_aware : Exn :=
  TypeError "can't compare offset-naive and offset-aware datetimes".

(** [a < b] and [a >= b] on datetimes: mixing a naive and an aware value
    raises. *)
Definition datetime_lt (a b : datetime) : Result bool :=
  if Bool.eqb (aware a) (aware b) then Ok (instant a <? instant b)%Z
  else Raise naive_vs_aware.

Definition datetime_ge (a b : datetime) : Result bool :=
  if Bool.eqb (aware a) (aware b) then Ok (instant b <=? instant a)%Z
  else Raise naive_vs_aware.

(** [a == b] on datetimes never raises: a naive and an aware value are
    unequal. *)
Definition datetime_eq (a b : datetime) : bool :=
  Bool.eqb (aware a) (aware b) && (instant a =? instant b)%Z.

(** [a == b] on [Optional[datetime]]. *)
Definition opt_datetime_eq (a b : option datetime) : bool :=
  match a, b with
  | Some x, Some y => datetime_eq x y
  | None, None => true
  | _, _ => false
  end.

Definition UTC : option Z := Some 0%Z.

(** [ensure_timezone_present] *)
Definition ensure_timezone_present (dt : option datetime)
    : option datetime :=
  match dt with
  | Some d => if negb (aware d) then Some (mk_datetime (instant d) UTC)
              else Some d
  | None => None
  end.

(** ** State (fc/maintenance/state.py) *)

(** Modelled from the spec: the [State] enumeration of state.py, which
    request.py and reqmanager.py import; the spec lists its members. *)
Module State.

Inductive t : Type :=
| pending | due | running | success | tempfail | postpone
| retrylimit | error | deleted.

Definition eqb (a b : t) : bool :=
  match a, b with
  | pending, pending | due, due | running, running | success, success
  | tempfail, tempfail | postpone, postpone | retrylimit, retrylimit
  | error, error | deleted, deleted => true
  | _, _ => false
  end.

End State.

(** [RebootType] of fc.maintenance.activity, as reqmanager.py uses it. *)
Inductive RebootType : Type := WARM | COLD.

Definition RebootType_eqb (a b : RebootType) : bool :=
  match a, b with
  | WARM, WARM | COLD, COLD => true
  | _, _ => false
  end.

(** Python truthiness of an optional number and of an optional string. *)
Definition truthy_Z (x : option Z) : bool :=
  match x with Some z => negb (z =? 0)%Z | None => false end.

Definition truthy_str (x : option string) : bool :=
  match x with Some s => negb (s =? "") | None => false end.

(** ** Activity, the external collaborator *)

Module Activity.

(** The fields the maintenance core reads.  [variant] stands for the
    data of the concrete activity (script text, package list, ...);
    durations are in microseconds. *)
Record t : Type := mk {
  variant : string;
  stdout : option string;
  stderr : option string;
  returncode : option Z;
  duration : option Z;
  reboot_needed : option RebootType
}.

(** What [run()] did: it returned or raised, and left the activity
    object in some state. *)
Inductive RunOutcome : Type :=
| Returned (after : t)
| Raised (e : Exn) (after : t).

End Activity.

(** ** The world outside the process *)

(** Calls that leave the process.  [end_maintenance] is given, for each
    id, the value under ["result"]; [postpone_maintenance] the value
    under ["postpone_by"]; [schedule_maintenance] the estimate and the
    comment. *)
Inductive Event : Type :=
| schedule_maintenance (args : list (string * (Z * option string)))
| postpone_maintenance (args : list (string * Z))
| end_maintenance (args : list (string * string))
| mark_node_service_status (in_service : bool)
| subprocess_run (cmd : string).

(** The clock, the faults the operating system and the network are
    going to produce, the request.yaml documents by directory, and the
    trace of the outside calls made, whether they returned or raised.
    [ticks] holds the time that passes before each coming reading of
    the clock; [faults] says for each coming fallible call whether it
    fails ([true]); when a list runs out no time passes and nothing
    fails. *)
Record World (Doc : Type) : Type := mk_World {
  now : Z;
  ticks : list Z;
  faults : list bool;
  disk : list (string * Doc);
  trace : list Event
}.
Arguments mk_World {Doc}.
Arguments now {Doc}.
Arguments ticks {Doc}.
Arguments faults {Doc}.
Arguments disk {Doc}.
Arguments trace {Doc}.

Section WorldOps.
Context {Doc : Type}.

(** [utcnow()] *)
Definition utcnow : M (World Doc) datetime :=
  fun w =>
    let t := (now w + hd 0 (ticks w))%Z in
    (Ok (mk_datetime t UTC),
     mk_World t (tl (ticks w)) (faults w) (disk w) (trace w)).

(** A call that may fail with [e]. *)
Definition fallible (e : Exn) : M (World Doc) unit :=
  fun w =>
    match faults w with
    | [] => (Ok tt, w)
    | failed :: fs =>
        (if failed then Raise e else Ok tt,
         mk_World (now w) (ticks w) fs (disk w) (trace w))
    end.

Definition emit (ev : Event) : M (World Doc) unit :=
  fun w =>
    (Ok tt, mk_World (now w) (ticks w) (faults w) (disk w) (trace w ++ [ev])).

Definition write_file (path : string) (doc : Doc) : M (World Doc) unit :=
  fallible OSError ;;
  fun w =>
    (Ok tt,
     mk_World (now w) (ticks w) (faults w) ((path, doc) :: disk w) (trace w)).

(** A call of the directory service: the call is made, and then it
    returns or raises. *)
Definition remote (ev : Event) : M (World Doc) unit :=
  emit ev ;; fallible RemoteError.

(** [subprocess.run(cmd, check=True)]: the command is run, and a failure
    raises. *)
Definition subprocess_run_checked (cmd : string) : M (World Doc) unit :=
  emit (subprocess_run cmd) ;; fallible (CalledProcessError cmd).

(** [with cd(newdir): body]: [os.chdir] there, and back in a [finally].
    Both calls may fail; the working directory itself is not part of
    the world. *)
Definition cd {X A} (newdir : string) (body : M (X * World Doc) A)
    : M (X * World Doc) A :=
  in_world (fallible OSError) ;;
  try_finally body (in_world (fallible OSError)).

End WorldOps.

(** ** Attempt *)

Module Attempt.

(** Timestamps of an attempt are readings of [utcnow()]; durations are in
    microseconds ([total_seconds()] of the source is their float form). *)
Record t : Type := mk {
  stdout : option string;
  stderr : option string;
  returncode : option Z;
  finished : option datetime;
  duration : option Z;
  started : datetime
}.

(** [Attempt()] *)
Definition init {Doc} : M (World Doc) t :=
  started <- utcnow ;;
  ret (mk None None None None None started).

(** [record(activity)] *)
Definition record {Doc} (activity : Activity.t) (self : t)
    : M (World Doc) t :=
  finished <- utcnow ;;
  let self := mk (Activity.stdout activity) (Activity.stderr activity)
                 (Activity.returncode activity) (Some finished)
                 (duration self) (started self) in
  if truthy_Z (Activity.duration activity) then
    ret (mk (stdout self) (stderr self) (returncode self) (Attempt.finished self)
            (Activity.duration activity) (started self))
  else if negb (truthy_Z (duration self)) then
    ret (mk (stdout self) (stderr self) (returncode self) (Attempt.finished self)
            (Some (instant finished - instant (started self))%Z)
            (started self))
  else ret self.

(** The two assignments of the [except Exception as e] branch of
    [Request.execute]. *)
Definition software_error (e : Exn) (self : t) : t :=
  mk (stdout self) (Some (str e)) (Some 70%Z) (finished self)
     (duration self) (started self).

End Attempt.

(** Modelled from the spec: the Estimate value type of estimate.py is a
    duration; a request keeps what [int(estimate)] returns. *)
Definition Estimate : Type := Z.

(** ** Request *)

Module Request.

Definition MAX_RETRIES : nat := 48.

(** The id is the one the [id] property returns; the property generates
    it on the first access, which lies before everything modelled here.
    [dir] is [None] until a manager assigns it. *)
Record t : Type := mk {
  reqid : string;
  activity : Activity.t;
  estimate : Estimate;
  comment : option string;
  dir : option string;
  next_due : option datetime;
  last_scheduled_at : option datetime;
  added_at : option datetime;
  state : State.t;
  attempts : list Attempt.t
}.

Definition id (self : t) : string := reqid self.

Definition set_activity (a : Activity.t) (r : t) : t :=
  mk (reqid r) a (estimate r) (comment r) (dir r) (next_due r)
     (last_scheduled_at r) (added_at r) (state r) (attempts r).

Definition set_dir (d : option string) (r : t) : t :=
  mk (reqid r) (activity r) (estimate r) (comment r) d (next_due r)
     (last_scheduled_at r) (added_at r) (state r) (attempts r).

Definition set_next_due (d : option datetime) (r : t) : t :=
  mk (reqid r) (activity r) (estimate r) (comment r) (dir r) d
     (last_scheduled_at r) (added_at r) (state r) (attempts r).

Definition set_last_scheduled_at (d : option datetime) (r : t) : t :=
  mk (reqid r) (activity r) (estimate r) (comment r) (dir r) (next_due r)
     d (added_at r) (state r) (attempts r).

Definition set_added_at (d : option datetime) (r : t) : t :=
  mk (reqid r) (activity r) (estimate r) (comment r) (dir r) (next_due r)
     (last_scheduled_at r) d (state r) (attempts r).

Definition set_state (s : State.t) (r : t) : t :=
  mk (reqid r) (activity r) (estimate r) (comment r) (dir r) (next_due r)
     (last_scheduled_at r) (added_at r) s (attempts r).

Definition set_attempts (l : list Attempt.t) (r : t) : t :=
  mk (reqid r) (activity r) (estimate r) (comment r) (dir r) (next_due r)
     (last_scheduled_at r) (added_at r) (state r) l.

Abbreviation W := (World t).

(** [__eq__], between two requests. *)
Definition eq (self other : t) : bool := (id self =? id other)%string.

(** [__lt__] *)
Definition lt (self other : t) : Result bool :=
  match next_due self, next_due other with
  | Some a, Some b => datetime_lt a b
  | Some _, None => Ok true
  | None, Some _ => Ok false
  | None, None => Ok (id self <? id other)%string
  end.

(** The [filename] property. *)
Definition filename (d : string) : string := d ++ "/request.yaml".

(** The [duration] property: the duration of the last attempt. *)
Definition duration (self : t) : option Z :=
  match rev (attempts self) with
  | [] => None
  | last_attempt :: _ => Attempt.duration last_attempt
  end.

(** [save()]: the request is written to request.yaml through a temporary
    file, then the activity dumps its own data. *)
Definition save : M (t * W) unit :=
  d <- self_get dir ;;
  match d with
  | None => raise (AssertionError "request directory not set")
  | Some d =>
      if (d =? "")%string
      then raise (AssertionError "request directory not set")
      else
        self <- self_get (fun r => r) ;;
        in_world (write_file (filename d) self) ;;
        cd d (in_world (fallible OSError))
  end.

(** [update_state()] *)
Definition update_state : M (t * W) State.t :=
  st <- self_get state ;;
  nd <- self_get next_due ;;
  is_due <-
    (if State.eqb st State.pending || State.eqb st State.postpone then
       match nd with
       | Some d => t <- in_world utcnow ;; of_result (datetime_ge t d)
       | None => ret false
       end
     else ret false) ;;
  (if is_due then self_set (set_state State.due) else ret tt) ;;
  n <- self_get (fun r => List.length (attempts r)) ;;
  (if Nat.ltb MAX_RETRIES n then self_set (set_state State.retrylimit)
   else ret tt) ;;
  self_get state.

(** What [update_due] is given: [None], a [datetime], or a literal. *)
Inductive Due : Type :=
| due_None
| due_datetime (d : datetime)
| due_literal (s : string).

Section Collaborators.

(** [iso8601.parse_date] *)
Variable parse_date : string -> Result datetime.

(** [evaluate_state] of state.py, the classification of exit codes. *)
Variable evaluate_state : option Z -> State.t.

(** [run()] of the activities. *)
Variable run : Activity.t -> Activity.RunOutcome.

(** [update_due(due)] *)
Definition update_due (due : Due) : M (t * W) bool :=
  old <- self_get next_due ;;
  match due with
  | due_None => self_set (set_next_due None)
  | due_datetime d => self_set (set_next_due (Some d))
  | due_literal s =>
      if (s =? "")%string then self_set (set_next_due None)
      else
        d <- of_result (parse_date s) ;;
        self_set (set_next_due (Some d))
  end ;;
  nd <- self_get next_due ;;
  match nd with
  | Some d =>
      if negb (aware d) then raise (TypeError "next_due lacks time zone")
      else ret tt
  | None => ret tt
  end ;;
  update_state ;;
  nd <- self_get next_due ;;
  ret (negb (opt_datetime_eq nd old)).

(** [self.activity.run()] *)
Definition activity_run : M (t * W) unit :=
  fun s =>
    match run (activity (fst s)) with
    | Activity.Returned a => (Ok tt, (set_activity a (fst s), snd s))
    | Activity.Raised e a => (Raise e, (set_activity a (fst s), snd s))
    end.

(** The body of the outer [try] of [execute], for the attempt that
    [execute] has created. *)
Definition execute_activity (attempt : Attempt.t) : M (t * W) unit :=
  self_set (set_state State.running) ;;
  save ;;
  d <- self_get dir ;;
  attempt <-
    cd (match d with Some d => d | None => "" end)
      (try_except Exception
         (activity_run ;;
          a <- self_get activity ;;
          in_world (Attempt.record a attempt))
         (fun e => ret (Attempt.software_error e attempt))) ;;
  self_set (fun r => set_attempts (attempts r ++ [attempt]) r) ;;
  a <- self_get activity ;;
  self_set (set_state (evaluate_state (Activity.returncode a))).

(** [execute()]; the log calls are left out. *)
Definition execute : M (t * W) unit :=
  attempt <- in_world Attempt.init ;;
  try_except Exception
    (execute_activity attempt)
    (fun _ => self_set (set_state State.error)) ;;
  try_except Exception save (fun _ => ret tt).

End Collaborators.

End Request.

(** ** Python containers and built-ins *)

(** A [dict] with string keys, in insertion order. *)
Definition dict (V : Type) : Type := list (string * V).

Fixpoint dict_get {V} (key : string) (d : dict V) : option V :=
  match d with
  | [] => None
  | (k, v) :: d' => if (k =? key)%string then Some v else dict_get key d'
  end.

(** [d[key] = v] *)
Fixpoint dict_set {V} (key : string) (v : V) (d : dict V) : dict V :=
  match d with
  | [] => [(key, v)]
  | (k, x) :: d' =>
      if (k =? key)%string then (k, v) :: d' else (k, x) :: dict_set key v d'
  end.

(** [{k: v for ...}] from the pairs the comprehension produces. *)
Definition dict_of {V} (pairs : list (string * V)) : dict V :=
  fold_left (fun d kv => dict_set (fst kv) (snd kv) d) pairs [].

(** [s.add(x)] on a set kept as a list without repetition. *)
Definition set_add {A} (eqb : A -> A -> bool) (x : A) (s : list A) : list A :=
  if existsb (eqb x) s then s else s ++ [x].

(** A loop that carries local variables [acc]. *)
Fixpoint for_fold {S A B} (xs : list A) (acc : B) (body : B -> A -> M S B)
    : M S B :=
  match xs with
  | [] => ret acc
  | x :: xs' => acc' <- body acc x ;; for_fold xs' acc' body
  end.

(** [sorted(xs)]: Python's sort is stable and asks only [<]; it is
    modelled by the stable insertion sort, which gives what any stable
    sort gives when [<] is a strict weak order.  A comparison that
    raises makes the sort raise. *)
Section Sorted.
Context {A : Type} (lt : A -> A -> Result bool).

Fixpoint insort (x : A) (l : list A) : Result (list A) :=
  match l with
  | [] => Ok [x]
  | y :: l' =>
      match lt x y with
      | Raise e => Raise e
      | Ok true => Ok (x :: l)
      | Ok false =>
          match insort x l' with
          | Ok r => Ok (y :: r)
          | Raise e => Raise e
          end
      end
  end.

Fixpoint sorted_onto (acc : list A) (l : list A) : Result (list A) :=
  match l with
  | [] => Ok acc
  | x :: l' =>
      match insort x acc with
      | Ok acc' => sorted_onto acc' l'
      | Raise e => Raise e
      end
  end.

Definition sorted (l : list A) : Result (list A) := sorted_onto [] l.

End Sorted.

(** [not command.strip()] *)
Definition isspace (c : Ascii.ascii) : bool :=
  let n := Ascii.nat_of_ascii c in
  ((9 <=? n) && (n <=? 13) || (28 <=? n) && (n <=? 32))%nat.

Fixpoint is_blank (s : string) : bool :=
  match s with
  | EmptyString => true
  | String c s' => isspace c && is_blank s'
  end.

Definition opt_str_eq (a b : option string) : bool :=
  match a, b with
  | Some x, Some y => (x =? y)%string
  | None, None => true
  | _, _ => false
  end.

Definition opt_reboot_eqb (a b : option RebootType) : bool :=
  match a, b with
  | Some x, Some y => RebootType_eqb x y
  | None, None => true
  | _, _ => false
  end.

(** ** ReqManager *)

Module ReqManager.

(** One entry of the answer of [schedule_maintenance]: the value under
    ["time"], if the entry has that key. *)
Definition Scheduled : Type := option Request.Due.

(** [requests] is the dict of the source; a key stands for the request
    object held under it.  [directory] is what the directory service
    answers to [schedule_maintenance]; [config] holds the sections
    [maintenance-enter] and [maintenance-leave], if present. *)
Record t : Type := mk {
  requests : dict Request.t;
  lockfile : bool;
  requestsdir : string;
  directory : dict (Z * option string) -> dict Scheduled;
  config : dict (dict string)
}.

Definition set_requests (rs : dict Request.t) (m : t) : t :=
  mk rs (lockfile m) (requestsdir m) (directory m) (config m).

Abbreviation W := (World Request.t).

(** [require_lock] *)
Definition require_lock {A} (func : M (t * W) A) : M (t * W) A :=
  locked <- self_get lockfile ;;
  if locked then func else raise (AssertionError "method required lock").

(** [self.requests[key]] *)
Definition getitem (key : string) : M (t * W) Request.t :=
  rs <- self_get requests ;;
  match dict_get key rs with
  | Some r => ret r
  | None => raise (KeyError key)
  end.

(** A method call on the request object held under [key]: what the
    method does to the object is seen through the dict. *)
Definition on_request {A} (key : string) (method : M (Request.t * W) A)
    : M (t * W) A :=
  fun s =>
    match dict_get key (requests (fst s)) with
    | None => (Raise (KeyError key), s)
    | Some r =>
        match method (r, snd s) with
        | (res, (r', w')) =>
            (res, (set_requests (dict_set key r' (requests (fst s))) (fst s),
                   w'))
        end
    end.

(** [dir(request)] *)
Definition dir (self : t) (request : Request.t) : string :=
  requestsdir self ++ "/" ++ Request.id request.

(** [find_by_comment(comment)] *)
Definition find_by_comment (self : t) (comment : option string)
    : option Request.t :=
  find (fun r => opt_str_eq (Request.comment r) comment)
       (map snd (requests self)).

(** [Request.other_requests()], for a request whose manager is [self]. *)
Definition other_requests (self : t) (request : Request.t)
    : list Request.t :=
  filter (fun r => negb (Request.reqid r =? Request.reqid request)%string)
    (map snd (requests self)).

(** [self.config[section].items()] *)
Definition config_items (section : string) : M (t * W) (dict string) :=
  c <- self_get config ;;
  match dict_get section c with
  | Some items => ret items
  | None => raise (KeyError section)
  end.

Definition run_commands (items : dict string) : M (t * W) unit :=
  for_each items (fun item =>
    if is_blank (snd item) then ret tt
    else in_world (subprocess_run_checked (snd item))).

(** [enter_maintenance()] *)
Definition enter_maintenance : M (t * W) unit :=
  in_world (remote (mark_node_service_status false)) ;;
  items <- config_items "maintenance-enter" ;;
  run_commands items.

(** [leave_maintenance()] *)
Definition leave_maintenance : M (t * W) unit :=
  items <- config_items "maintenance-leave" ;;
  run_commands items ;;
  in_world (remote (mark_node_service_status true)).

(** [reboot(requested_reboots)] *)
Definition reboot (requested_reboots : list (option RebootType))
    : M (t * W) bool :=
  if existsb (opt_reboot_eqb (Some COLD)) requested_reboots then
    in_world (subprocess_run_checked "poweroff") ;; ret true
  else if existsb (opt_reboot_eqb (Some WARM)) requested_reboots then
    in_world (subprocess_run_checked "reboot") ;; ret true
  else ret false.

Definition runnable_state (s : State.t) : bool :=
  State.eqb s State.due || State.eqb s State.tempfail.

Definition request_lt (a b : string * Request.t) : Result bool :=
  Request.lt (snd a) (snd b).

(** The body of the [for] loop of [runnable]; [found] holds what has been
    yielded so far and the local list [requests]. *)
Definition runnable_visit
    (found : list (string * Request.t) * list (string * Request.t))
    (key : string)
    : M (t * W) (list (string * Request.t) * list (string * Request.t)) :=
  new_state <- on_request key Request.update_state ;;
  request <- getitem key ;;
  if State.eqb new_state State.running then
    ret (fst found ++ [(key, request)], snd found)
  else if runnable_state new_state then
    ret (fst found, snd found ++ [(key, request)])
  else ret found.

(** [runnable()], drained as [list(self.runnable())] does: the requests in
    the order the generator yields them, each with the key it is held
    under. *)
Definition runnable : M (t * W) (list (string * Request.t)) :=
  keys <- self_get (fun m => map fst (requests m)) ;;
  found <- for_fold keys ([], []) runnable_visit ;;
  later <- of_result (sorted request_lt (snd found)) ;;
  ret (fst found ++ later).

(** [add(request, skip_same_comment)] *)
Definition add (request : option Request.t) (skip_same_comment : bool)
    : M (t * W) (option Request.t) :=
  match request with
  | None => ret None
  | Some request =>
      self <- self_get (fun m => m) ;;
      let duplicate :=
        if skip_same_comment && truthy_str (Request.comment request)
        then find_by_comment self (Request.comment request)
        else None in
      match duplicate with
      | Some _ => ret None
      | None =>
          let key := Request.id request in
          self_set
            (fun m => set_requests (dict_set key request (requests m)) m) ;;
          on_request key
            (self_set (Request.set_dir (Some (dir self request))) ;;
             t <- in_world utcnow ;;
             self_set (Request.set_added_at (Some t)) ;;
             Request.save) ;;
          r <- getitem key ;;
          ret (Some r)
      end
  end.

Section Collaborators.

Variable parse_date : string -> Result datetime.
Variable evaluate_state : option Z -> State.t.
Variable run : Activity.t -> Activity.RunOutcome.

(** The body of the [for key, val in result.items()] loop of
    [schedule], with the local set [disappeared]. *)
Definition schedule_item (disappeared : list string)
    (item : string * Scheduled) : M (t * W) (list string) :=
  let key := fst item in
  try_except is_KeyError
    (getitem key ;;
     time <- match snd item with
             | Some time => ret time
             | None => raise (KeyError "time")
             end ;;
     changed <- on_request key (Request.update_due parse_date time) ;;
     (if changed then
        on_request key
          (t <- in_world utcnow ;;
           self_set (Request.set_last_scheduled_at (Some t)) ;;
           Request.save)
      else ret tt) ;;
     ret disappeared)
    (fun _ => ret (set_add String.eqb key disappeared)).

(** [schedule()] *)
Definition schedule : M (t * W) unit :=
  require_lock
    (rs <- self_get requests ;;
     let args :=
       map (fun kr => (fst kr, (Request.estimate (snd kr),
                                Request.comment (snd kr)))) rs in
     ask <- self_get directory ;;
     in_world (remote (schedule_maintenance args)) ;;
     let result := ask args in
     disappeared <- for_fold result [] schedule_item ;;
     match disappeared with
     | [] => ret tt
     | _ =>
         in_world
           (remote (end_maintenance
                      (dict_of (map (fun key => (key, "deleted")) disappeared))))
     end).

(** The choice of the requests to run at the head of [execute]; the
    objects are named by their keys. *)
Definition runnable_requests (run_all_now : bool) : M (t * W) (list string) :=
  if run_all_now then self_get (fun m => map fst (requests m))
  else l <- runnable ;; ret (map fst l).

(** The body of the [for req in runnable_requests] loop of [execute],
    with the local set [requested_reboots]. *)
Definition execute_one (requested_reboots : list (option RebootType))
    (key : string) : M (t * W) (list (option RebootType)) :=
  on_request key (Request.execute evaluate_state run) ;;
  req <- getitem key ;;
  if State.eqb (Request.state req) State.success then
    ret (set_add opt_reboot_eqb
           (Activity.reboot_needed (Request.activity req))
           requested_reboots)
  else ret requested_reboots.

(** The [for req in runnable_requests] loop of [execute]. *)
Definition execute_requests (keys : list string)
    : M (t * W) (list (option RebootType)) :=
  for_fold keys [] execute_one.

(** [execute(run_all_now)] *)
Definition execute (run_all_now : bool) : M (t * W) unit :=
  require_lock
    (keys <- runnable_requests run_all_now ;;
     match keys with
     | [] => leave_maintenance
     | _ =>
         enter_maintenance ;;
         requested_reboots <- execute_requests keys ;;
         rebooted <- reboot requested_reboots ;;
         if negb rebooted then leave_maintenance else ret tt
     end).

(** [postpone()] *)
Definition postpone : M (t * W) unit :=
  require_lock
    (rs <- self_get requests ;;
     let postponed :=
       filter (fun kr => State.eqb (Request.state (snd kr)) State.postpone)
         rs in
     match postponed with
     | [] => ret tt
     | _ =>
         let args :=
           dict_of (map (fun kr => (Request.id (snd kr),
                                    (2 * Request.estimate (snd kr))%Z))
                        postponed) in
         in_world (remote (postpone_maintenance args)) ;;
         for_each (map fst postponed) (fun key =>
           on_request key
             (Request.update_due parse_date Request.due_None ;; Request.save))
     end).

(** [delete(reqid)] *)
Definition delete (reqid : string) : M (t * W) unit :=
  require_lock
    (rs <- self_get requests ;;
     match find (fun kr => String.prefix reqid (fst kr)) rs with
     | None => ret tt
     | Some kr =>
         on_request (fst kr)
           (self_set (Request.set_state State.deleted) ;; Request.save)
     end).

End Collaborators.

End ReqManager.

(** * Vocabulary of the properties *)

(** The invariant of the data model: a due date carries a time zone. *)
Definition due_has_timezone (r : Request.t) : Prop :=
  match Request.next_due r with
  | Some d => aware d = true
  | None => True
  end.

(** A computation that leaves the object it is called on as it was. *)
Definition keeps_self {X W A} (m : M (X * W) A) : Prop :=
  forall s, fst (snd (m s)) = fst s.

(** A computation that always returns. *)
Definition never_raises {S A} (m : M S A) : Prop :=
  forall s, exists a s', m s = (Ok a, s').

(** Whatever [m] raises is of the classes [classes]. *)
Definition raises_only {S A} (classes : Exn -> bool) (m : M S A) : Prop :=
  forall s e s', m s = (Raise e, s') -> classes e = true.

(** If [run()] raises on activity [a], it raises an instance of
    [Exception]. *)
Definition raises_Exception_only (run : Activity.t -> Activity.RunOutcome)
    (a : Activity.t) : Prop :=
  forall e a', run a = Activity.Raised e a' -> Exception e = true.

(** The attempt that [execute] creates in world [w], and the world after
    the clock was read for it. *)
Definition new_attempt (w : Request.W) : Attempt.t :=
  Attempt.mk None None None None None
    (mk_datetime (now w + hd 0 (ticks w))%Z UTC).

Definition after_reading (w : Request.W) : Request.W :=
  mk_World (now w + hd 0 (ticks w))%Z (tl (ticks w)) (faults w) (disk w)
    (trace w).

(** The request that the body of the [try] leaves when it completes,
    given the attempt it has appended. *)
Definition executed evaluate_state (a' : Activity.t) (attempt : Attempt.t)
    (r : Request.t) : Request.t :=
  Request.set_state (evaluate_state (Activity.returncode a'))
    (Request.set_attempts (Request.attempts r ++ [attempt])
       (Request.set_activity a' (Request.set_state State.running r))).

(** [a] may stand before [b] in a list sorted by [lt]. *)
Definition not_after {A} (lt : A -> A -> Result bool) (a b : A) : Prop :=
  lt b a = Ok false.

(** [update_state] on each request of the dict in turn, from world [w]:
    the dict and the world it leaves. *)
Fixpoint refresh_all (rs : dict Request.t) (w : World Request.t)
    : dict Request.t * World Request.t :=
  match rs with
  | [] => ([], w)
  | (key, r) :: rs' =>
      let s := snd (Request.update_state (r, w)) in
      let rest := refresh_all rs' (snd s) in
      ((key, fst s) :: fst rest, snd rest)
  end.

Definition is_running (kr : string * Request.t) : bool :=
  State.eqb (Request.state (snd kr)) State.running.

Definition is_due_or_tempfail (kr : string * Request.t) : bool :=
  State.eqb (Request.state (snd kr)) State.due
  || State.eqb (Request.state (snd kr)) State.tempfail.

(** The request as [add] registers it at clock reading [t]. *)
Definition added (m : ReqManager.t) (t : Z) (r : Request.t) : Request.t :=
  Request.set_added_at (Some (mk_datetime t UTC))
    (Request.set_dir (Some (ReqManager.dir m r)) r).

Definition is_postponed (kr : string * Request.t) : bool :=
  State.eqb (Request.state (snd kr)) State.postpone.

(** The request has been given a directory. *)
Definition has_dir (r : Request.t) : Prop :=
  exists d, Request.dir r = Some d /\ (d =? "")%string = false.

(** The invariant of [requests]: a request is held under its id, and
    no key occurs twice. *)
Definition held_by_id (m : ReqManager.t) : Prop :=
  NoDup (map fst (ReqManager.requests m))
  /\ Forall (fun kr => fst kr = Request.id (snd kr)) (ReqManager.requests m).

(** What [update_due(None)] makes of a request in state [postpone]. *)
Definition postponed_request (r : Request.t) : Request.t :=
  if (Request.MAX_RETRIES <? List.length (Request.attempts r))%nat
  then Request.set_state State.retrylimit (Request.set_next_due None r)
  else Request.set_next_due None r.

Definition postpone_entry (kr : string * Request.t) : string * Request.t :=
  if is_postponed kr then (fst kr, postponed_request (snd kr)) else kr.

Definition saved_file (r : Request.t) : string * Request.t :=
  (Request.filename (match Request.dir r with Some d => d | None => "" end),
   r).

Definition postpone_by (kr : string * Request.t) : string * Z :=
  (Request.id (snd kr), (2 * Request.estimate (snd kr))%Z).

(** [m] takes every state to a state related to it by [R]. *)
Definition preserves {S A} (R : S -> S -> Prop) (m : M S A) : Prop :=
  forall s, R s (snd (m s)).

(** The trace of outside calls is as it was. *)
Definition same_trace {X Doc} (s s' : X * World Doc) : Prop :=
  trace (snd s') = trace (snd s).

(** The manager holds requests under the same keys, and the trace is as
    it was. *)
Definition same_keys_and_trace (s s' : ReqManager.t * World Request.t)
    : Prop :=
  map fst (ReqManager.requests (fst s')) = map fst (ReqManager.requests (fst s))
  /\ trace (snd s') = trace (snd s).

(** [key] was reported to the directory service as deleted by one of
    the calls [calls]. *)
Definition reported_deleted (key : string) (calls : list Event) : Prop :=
  exists args,
    In (end_maintenance args) calls /\ dict_get key args = Some "deleted".

(** The argument of [schedule_maintenance]. *)
Definition schedule_args (m : ReqManager.t) : dict (Z * option string) :=
  map (fun kr => (fst kr, (Request.estimate (snd kr), Request.comment (snd kr))))
    (ReqManager.requests m).

(** The request held under [key] is in state [success] and its activity
    asks for [x]. *)
Definition succeeded_with (x : option RebootType) (key : string)
    (m : ReqManager.t) : Prop :=
  exists r,
    dict_get key (ReqManager.requests m) = Some r
    /\ Request.state r = State.success
    /\ Activity.reboot_needed (Request.activity r) = x.

(** The [subprocess.run] calls that a section of the configuration
    asks for: its commands that are not blank, in order. *)
Definition commands (items : dict string) : list Event :=
  map (fun item => subprocess_run (snd item))
    (filter (fun item => negb (is_blank (snd item))) items).

(** World [w'] is world [w] with the calls [calls] made. *)
Definition with_calls (calls : list Event) (w : World Request.t)
    : World Request.t :=
  mk_World (now w) (ticks w) (faults w) (disk w) (trace w ++ calls).

(** World [w'] is world [w] with the file [file] written. *)
Definition with_file (file : string * Request.t) (w : World Request.t)
    : World Request.t :=
  mk_World (now w) (ticks w) (faults w) (file :: disk w) (trace w).

(** The clock does not run backwards from [w] on. *)
Definition clock_runs_forward (w : World Request.t) : Prop :=
  Forall (fun tick => (0 <= tick)%Z) (ticks w).

(** * Scenarios *)

(** Modelled from the spec: [evaluate_state] of state.py is not among the
    sources; the design notes ask for a total mapping such as zero to
    success, two reserved codes to tempfail and postpone, everything
    else to error.  It serves the examples; the theorems hold for any
    mapping. *)
Definition evaluate_state_by_exit_code (rc : option Z) : State.t :=
  match rc with
  | Some 0%Z => State.success
  | Some 75%Z => State.tempfail
  | Some 69%Z => State.postpone
  | _ => State.error
  end.

Definition script : Activity.t :=
  Activity.mk "script" None None None None None.

Definition run_raises (a : Activity.t) : Activity.RunOutcome :=
  Activity.Raised (ActivityError "boom") a.

(** A [run()] that is interrupted from the keyboard. *)
Definition run_interrupted (a : Activity.t) : Activity.RunOutcome :=
  Activity.Raised KeyboardInterrupt a.

Definition run_exits (rc : Z) (a : Activity.t) : Activity.RunOutcome :=
  Activity.Returned
    (Activity.mk (Activity.variant a) (Some "out") (Some "") (Some rc)
       (Activity.duration a) (Activity.reboot_needed a)).

Definition request_a1 : Request.t :=
  Request.mk "a1" script 1800%Z (Some "run the script")
    (Some "/var/spool/maintenance/requests/a1") None None None State.due [].

Definition world0 : Request.W := mk_World 1000%Z [5; 7; 11]%Z [] [] [].

Definition request_b2 : Request.t :=
  Request.mk "b2" script 600%Z (Some "reboot for the new kernel")
    (Some "/var/spool/maintenance/requests/b2") None None None
    State.pending [].

(** An [iso8601.parse_date] that knows one literal. *)
Definition parse_one_date (s : string) : Result datetime :=
  if (s =? "2016-04-20T15:12:40+00:00")%string
  then Ok (mk_datetime 1461165160000000%Z UTC)
  else Raise (ParseError s).

Definition no_hooks : dict (dict string) :=
  [("maintenance-enter", []); ("maintenance-leave", [])].

(** A directory service that answers with a due time for [a1] only. *)
Definition manager_a1_b2 : ReqManager.t :=
  ReqManager.mk [("a1", request_a1); ("b2", request_b2)] true
    "/var/spool/maintenance/requests"
    (fun _ =>
       [("a1", Some (Request.due_literal "2016-04-20T15:12:40+00:00"))])
    no_hooks.

(** A directory service that answers for [a1] and for an id the manager
    does not hold. *)
Definition manager_a1 : ReqManager.t :=
  ReqManager.mk [("a1", request_a1)] true
    "/var/spool/maintenance/requests"
    (fun _ =>
       [("a1", Some (Request.due_literal "2016-04-20T15:12:40+00:00"));
        ("123abc", Some Request.due_None)])
    no_hooks.

Definition failed_attempt : Attempt.t :=
  Attempt.mk (Some "") (Some "no route to host") (Some 75%Z)
    (Some (mk_datetime 900%Z UTC)) (Some 3%Z) (mk_datetime 897%Z UTC).

(** [a1] after 49 attempts that ended in a temporary failure. *)
Definition request_worn : Request.t :=
  Request.set_state State.tempfail
    (Request.set_attempts (repeat failed_attempt 49) request_a1).

(** [a1] past the retry limit, in [retrylimit] and held by a manager. *)
Definition request_spent : Request.t :=
  Request.set_state State.retrylimit request_worn.

Definition manager_spent : ReqManager.t :=
  ReqManager.mk [("a1", request_spent)] true
    "/var/spool/maintenance/requests" (fun _ => []) no_hooks.

Definition naive_noon : datetime := mk_datetime 43200000000%Z None.

(** [b2], due since the reading 400 of the clock. *)
Definition request_b2_due : Request.t :=
  Request.set_next_due (Some (mk_datetime 400%Z UTC)) request_b2.

(** A manager that holds [a1], ready to run, [b2], pending and due, and
    an interrupted request [c3]. *)
Definition manager_three : ReqManager.t :=
  ReqManager.mk
    [("a1", request_a1); ("b2", request_b2_due);
     ("c3", Request.set_state State.running
              (Request.mk "c3" script 60%Z None
                 (Some "/var/spool/maintenance/requests/c3") None None None
                 State.pending []))]
    true "/var/spool/maintenance/requests" (fun _ => []) no_hooks.

(** Scenario F: [a1], with an estimate of 30 minutes (1800 seconds), has
    been postponed by its activity. *)
Definition manager_postponed : ReqManager.t :=
  ReqManager.mk
    [("a1", Request.set_state State.postpone
              (Request.set_next_due (Some (mk_datetime 400%Z UTC)) request_a1));
     ("b2", request_b2)]
    true "/var/spool/maintenance/requests" (fun _ => []) no_hooks.

Definition update_kernel : Activity.t :=
  Activity.mk "update" None None None None (Some COLD).

Definition restart_services : Activity.t :=
  Activity.mk "restart" None None None None (Some WARM).

(** Scenario D: two requests ready to run; the activity of one asks for
    a cold reboot, that of the other for a warm one. *)
Definition manager_cold_warm : ReqManager.t :=
  ReqManager.mk
    [("w1", Request.mk "w1" restart_services 60%Z (Some "restart")
              (Some "/var/spool/maintenance/requests/w1") None None None
              State.due []);
     ("c2", Request.mk "c2" update_kernel 600%Z (Some "update")
              (Some "/var/spool/maintenance/requests/c2") None None None
              State.due [])]
    true "/var/spool/maintenance/requests" (fun _ => []) no_hooks.

Definition chosen_cold_warm : ReqManager.t * World Request.t :=
  snd (ReqManager.runnable_requests false (manager_cold_warm, world0)).

Definition entered_cold_warm : ReqManager.t * World Request.t :=
  snd (ReqManager.enter_maintenance chosen_cold_warm).

Definition executed_cold_warm : ReqManager.t * World Request.t :=
  snd (ReqManager.execute_requests evaluate_state_by_exit_code (run_exits 0)
         ["c2"; "w1"] entered_cold_warm).

(** A configuration with a command to run on entering maintenance, a
    blank one, and a command to run on leaving. *)
Definition hooks : dict (dict string) :=
  [("maintenance-enter",
    [("web", "systemctl stop nginx"); ("unused", "  ")]);
   ("maintenance-leave", [("web", "systemctl start nginx")])].

(** A manager with these hooks whose requests have nothing to do: [b2]
    waits for a due date, and a request [d4] has succeeded. *)
Definition manager_idle : ReqManager.t :=
  ReqManager.mk
    [("b2", request_b2);
     ("d4", Request.mk "d4" script 60%Z (Some "done")
              (Some "/var/spool/maintenance/requests/d4") None None None
              State.success [])]
    true "/var/spool/maintenance/requests" (fun _ => []) hooks.

(** A world in which the first fallible call fails. *)
Definition world_failing : Request.W := mk_World 1000%Z [] [true] [] [].

(** A world in which the second fallible call fails. *)
Definition world_failing_later : Request.W :=
  mk_World 1000%Z [] [false; true] [] [].

(** A world in which everything goes well up to the sixth fallible
    call. *)
Definition world_failing_reporting : Request.W :=
  mk_World 1000%Z [] [false; false; false; false; false; true] [] [].

(** A directory service that names an id the manager does not hold and
    then gives [a1] a time that cannot be read. *)
Definition manager_bad_time : ReqManager.t :=
  ReqManager.mk [("a1", request_a1)] true
    "/var/spool/maintenance/requests"
    (fun _ =>
       [("123abc", Some Request.due_None);
        ("a1", Some (Request.due_literal "next week"))])
    no_hooks.

(** * Properties *)

Ltac run_monad :=
  unfold bind, ret, raise, self_get, self_set, in_world, of_result,
    try_except, try_finally; simpl.

(** ** Request.update_state *)

Lemma update_state_over_limit (r : Request.t) (w : Request.W) :
  (Request.MAX_RETRIES < List.length (Request.attempts r))%nat ->
  due_has_timezone r ->
  exists w',
    Request.update_state (r, w)
    = (Ok State.retrylimit, (Request.set_state State.retrylimit r, w')).
Proof.
  intros Hlen Htz.
  apply Nat.ltb_lt in Hlen.
  unfold Request.update_state, due_has_timezone in *.
  run_monad.
  destruct (State.eqb (Request.state r) State.pending
            || State.eqb (Request.state r) State.postpone); simpl.
  - destruct (Request.next_due r) as [d|]; simpl.
    + unfold datetime_ge; simpl. rewrite Htz; simpl.
      destruct (instant d <=? now w + hd 0 (ticks w))%Z; simpl;
        rewrite Hlen; simpl; eexists; reflexivity.
    + rewrite Hlen; simpl. eexists; reflexivity.
  - rewrite Hlen; simpl. eexists; reflexivity.
Qed.

Lemma update_state_keeps_retrylimit (r : Request.t) (w : Request.W) :
  Request.state r = State.retrylimit ->
  Request.update_state (r, w) = (Ok State.retrylimit, (r, w)).
Proof.
  intros Hst.
  unfold Request.update_state. run_monad.
  rewrite Hst; simpl.
  destruct (Request.MAX_RETRIES <? List.length (Request.attempts r))%nat; simpl.
  - destruct r; simpl in *; subst; reflexivity.
  - rewrite Hst; reflexivity.
Qed.

(** A request that was deleted is not exempt: past the retry limit
    [update_state] moves it to [retrylimit] as well. *)
Lemma update_state_deleted_over_limit (r : Request.t) (w : Request.W) :
  (Request.MAX_RETRIES < List.length (Request.attempts r))%nat ->
  Request.state r = State.deleted ->
  Request.update_state (r, w)
  = (Ok State.retrylimit, (Request.set_state State.retrylimit r, w)).
Proof.
  intros Hlen Hst.
  apply Nat.ltb_lt in Hlen.
  unfold Request.update_state. run_monad.
  rewrite Hst; simpl. rewrite Hlen; reflexivity.
Qed.

(** Without a time zone on the due date, the comparison with the clock
    raises for a pending or postponed request. *)
Lemma update_state_naive_due (r : Request.t) (w : Request.W) (d : datetime) :
  Request.state r = State.pending ->
  Request.next_due r = Some d ->
  aware d = false ->
  fst (Request.update_state (r, w)) = Raise naive_vs_aware.
Proof.
  intros Hst Hd Hn.
  unfold Request.update_state. run_monad.
  rewrite Hst, Hd; simpl. unfold datetime_ge; simpl. rewrite Hn; reflexivity.
Qed.

(** ** Request.update_due *)

(** C10: [update_due] with a datetime that has no time zone raises
    [TypeError] after it has stored that datetime: the request is left
    with the naive [next_due], which is unequal to the value it held,
    and nothing else of the request has changed. *)
Theorem update_due_naive_not_atomic :
  forall parse_date (r : Request.t) (w : Request.W) (d : datetime),
    aware d = false ->
    due_has_timezone r ->
    Request.update_due parse_date (Request.due_datetime d) (r, w)
    = (Raise (TypeError "next_due lacks time zone"),
       (Request.set_next_due (Some d) r, w))
    /\ opt_datetime_eq (Some d) (Request.next_due r) = false.
Proof.
  intros parse_date r w d Hn Htz. split.
  - unfold Request.update_due. run_monad. rewrite Hn. reflexivity.
  - unfold due_has_timezone in Htz.
    destruct (Request.next_due r) as [d0|]; simpl; [|reflexivity].
    unfold datetime_eq. rewrite Hn, Htz. reflexivity.
Qed.

(** ** Request.execute *)

Lemma keeps_self_ret {X W A} (a : A) : keeps_self (@ret (X * W) A a).
Proof. intros s; reflexivity. Qed.

Lemma keeps_self_raise {X W A} (e : Exn) : keeps_self (@raise (X * W) A e).
Proof. intros s; reflexivity. Qed.

Lemma keeps_self_in_world {X W A} (m : M W A) :
  keeps_self (@in_world X W A m).
Proof. intros s; unfold in_world; destruct (m (snd s)); reflexivity. Qed.

Lemma keeps_self_bind {X W A B} (m : M (X * W) A) (k : A -> M (X * W) B) :
  keeps_self m -> (forall a, keeps_self (k a)) -> keeps_self (bind m k).
Proof.
  intros Hm Hk s. unfold bind.
  specialize (Hm s). destruct (m s) as [[a|e] s1]; simpl in *.
  - rewrite Hk. assumption.
  - assumption.
Qed.

Lemma keeps_self_try_finally {X W A} (m : M (X * W) A) (f : M (X * W) unit) :
  keeps_self m -> keeps_self f -> keeps_self (try_finally m f).
Proof.
  intros Hm Hf s. unfold try_finally.
  specialize (Hm s). destruct (m s) as [r s1]; simpl in *.
  specialize (Hf s1). destruct (f s1) as [[u|e] s2]; simpl in *; congruence.
Qed.

Lemma keeps_self_cd {X Doc A} (d : string) (body : M (X * World Doc) A) :
  keeps_self body -> keeps_self (cd d body).
Proof.
  intros Hb. unfold cd.
  apply keeps_self_bind; [apply keeps_self_in_world|].
  intros _. apply keeps_self_try_finally; [assumption|].
  apply keeps_self_in_world.
Qed.

Lemma save_keeps_self : keeps_self Request.save.
Proof.
  unfold Request.save.
  apply keeps_self_bind; [intros s; reflexivity|].
  intros [d|]; [|apply keeps_self_raise].
  destruct (d =? "")%string; [apply keeps_self_raise|].
  apply keeps_self_bind; [intros s'; reflexivity|].
  intros self. apply keeps_self_bind; [apply keeps_self_in_world|].
  intros _. apply keeps_self_cd, keeps_self_in_world.
Qed.

Lemma bind_Raise {S A B} (m : M S A) (k : A -> M S B) s e s' :
  bind m k s = (Raise e, s') ->
  m s = (Raise e, s')
  \/ exists a s1, m s = (Ok a, s1) /\ k a s1 = (Raise e, s').
Proof.
  unfold bind. destruct (m s) as [[a|e0] s1]; intros H.
  - right. eauto.
  - left. injection H as <- <-. reflexivity.
Qed.

Lemma bind_returns {S A B} (m : M S A) (k : A -> M S B) s a s' :
  m s = (Ok a, s') -> bind m k s = k a s'.
Proof. intros H. unfold bind. rewrite H. reflexivity. Qed.

Lemma subprocess_no_faults {X} (cmd : string) (x : X) (w : World Request.t) :
  faults w = [] ->
  in_world (subprocess_run_checked cmd) (x, w)
  = (Ok tt, (x, with_calls [subprocess_run cmd] w)).
Proof.
  intros Hf. unfold in_world, subprocess_run_checked, bind, fallible, emit.
  destruct w as [n ts fs d tr]. cbn in Hf. subst fs. reflexivity.
Qed.

Lemma remote_no_faults {X} (ev : Event) (x : X) (w : World Request.t) :
  faults w = [] ->
  in_world (remote ev) (x, w) = (Ok tt, (x, with_calls [ev] w)).
Proof.
  intros Hf. unfold in_world, remote, bind, fallible, emit.
  destruct w as [n ts fs d tr]. cbn in Hf. subst fs. reflexivity.
Qed.

Lemma with_file_no_faults (file : string * Request.t) (w : World Request.t) :
  faults w = [] ->
  mk_World (now w) (ticks w) [] (file :: disk w) (trace w) = with_file file w.
Proof. intros Hf. unfold with_file. rewrite Hf. reflexivity. Qed.

Section RaisesOnly.
Context {S : Type} (classes : Exn -> bool).

Lemma raises_only_ret {A} (a : A) : raises_only classes (@ret S A a).
Proof. intros s e s' H. discriminate. Qed.

Lemma raises_only_raise {A} (e : Exn) :
  classes e = true -> raises_only classes (@raise S A e).
Proof. intros He s e' s' H. injection H as <- _. exact He. Qed.

Lemma raises_only_bind {A B} (m : M S A) (k : A -> M S B) :
  raises_only classes m -> (forall a, raises_only classes (k a)) ->
  raises_only classes (bind m k).
Proof.
  intros Hm Hk s e s' H. apply bind_Raise in H.
  destruct H as [H|(a & s1 & _ & H)]; [exact (Hm _ _ _ H)|exact (Hk _ _ _ _ H)].
Qed.

Lemma raises_only_try_finally {A} (m : M S A) (f : M S unit) :
  raises_only classes m -> raises_only classes f ->
  raises_only classes (try_finally m f).
Proof.
  intros Hm Hf s e s'. unfold try_finally.
  destruct (m s) as [r s1] eqn:Em. destruct (f s1) as [[u|e'] s2] eqn:Ef.
  - intros H. injection H as -> _. exact (Hm _ _ _ Em).
  - intros H. injection H as <- _. exact (Hf _ _ _ Ef).
Qed.

End RaisesOnly.

Lemma raises_only_in_world {X W A} classes (m : M W A) :
  raises_only classes m -> raises_only classes (@in_world X W A m).
Proof.
  intros Hm s e s'. unfold in_world.
  destruct (m (snd s)) as [r w'] eqn:Em. intros H. injection H as -> _.
  exact (Hm _ _ _ Em).
Qed.

Lemma raises_only_self_get {X W A} classes (f : X -> A) :
  raises_only classes (@self_get X W A f).
Proof. intros s e s' H. discriminate. Qed.

Lemma raises_only_fallible {Doc} (classes : Exn -> bool) (e : Exn) :
  classes e = true -> raises_only classes (fallible (Doc:=Doc) e).
Proof.
  intros He w e' w'. unfold fallible.
  destruct (faults w) as [|[|] fs]; intros H; try discriminate.
  injection H as <- _. exact He.
Qed.

Lemma raises_only_cd {X Doc A} classes d (body : M (X * World Doc) A) :
  classes OSError = true ->
  raises_only classes body -> raises_only classes (cd d body).
Proof.
  intros Hos Hb. unfold cd.
  apply raises_only_bind;
    [apply raises_only_in_world, raises_only_fallible, Hos|].
  intros _. apply raises_only_try_finally; [exact Hb|].
  apply raises_only_in_world, raises_only_fallible, Hos.
Qed.

(** [save] raises [AssertionError] or [OSError], both instances of
    [Exception]. *)
Lemma save_raises_Exception : raises_only Exception Request.save.
Proof.
  unfold Request.save.
  apply raises_only_bind; [apply raises_only_self_get|].
  intros [d|]; [|apply raises_only_raise; reflexivity].
  destruct (d =? "")%string; [apply raises_only_raise; reflexivity|].
  apply raises_only_bind; [apply raises_only_self_get|]. intros self.
  apply raises_only_bind.
  - apply raises_only_in_world. unfold write_file.
    apply raises_only_bind; [apply raises_only_fallible; reflexivity|].
    intros _ w e w' H. discriminate.
  - intros _. apply raises_only_cd; [reflexivity|].
    apply raises_only_in_world, raises_only_fallible. reflexivity.
Qed.

Lemma try_except_never_raises {S A} classes (m : M S A) (h : Exn -> M S A) :
  raises_only classes m -> (forall e, never_raises (h e)) ->
  never_raises (try_except classes m h).
Proof.
  intros Hm Hh s. unfold try_except.
  destruct (m s) as [[a|e] s1] eqn:Em.
  - eauto.
  - rewrite (Hm _ _ _ Em). apply Hh.
Qed.

(** The last [try] of [execute]: the request is saved, and a failure to
    save it is swallowed. *)
Lemma final_save_returns (s : Request.t * Request.W) :
  exists w',
    try_except Exception Request.save (fun _ => ret tt) s
    = (Ok tt, (fst s, w')).
Proof.
  destruct (try_except_never_raises Exception Request.save
              (fun _ => ret tt) save_raises_Exception
              (fun e s0 => ex_intro _ tt (ex_intro _ s0 eq_refl)) s)
    as ([] & [r' w'] & H).
  exists w'. rewrite H. f_equal. f_equal.
  unfold try_except in H. pose proof (save_keeps_self s) as K.
  destruct (Request.save s) as [[u|e] s1]; cbn [fst snd] in K.
  - inversion H. subst s1. exact K.
  - destruct (Exception e); [|discriminate].
    unfold ret in H. inversion H. subst s1. exact K.
Qed.

(** What [execute] returns, from what the body of its first [try] did:
    an exception that is no instance of [Exception] goes through both
    handlers, and the last [save] is not reached. *)
Lemma execute_result evaluate_state run (r : Request.t) (w : Request.W) :
  fst (Request.execute evaluate_state run (r, w))
  = match Request.execute_activity evaluate_state run (new_attempt w)
            (r, after_reading w) with
    | (Ok _, _) => Ok tt
    | (Raise e, _) => if Exception e then Ok tt else Raise e
    end.
Proof.
  unfold Request.execute.
  rewrite (bind_returns _ _ (r, w) (new_attempt w) (r, after_reading w))
    by reflexivity.
  unfold bind, try_except at 1.
  destruct (Request.execute_activity evaluate_state run (new_attempt w)
              (r, after_reading w)) as [[u|e] s1].
  - destruct (final_save_returns s1) as (w' & ->). reflexivity.
  - destruct (Exception e); [|reflexivity].
    unfold self_set. cbn [fst snd].
    destruct (final_save_returns
                (Request.set_state State.error (fst s1), snd s1))
      as (w' & ->).
    reflexivity.
Qed.

(** What [execute] leaves of the request, from what the body of its
    first [try] did. *)
Lemma execute_request evaluate_state run (r : Request.t) (w : Request.W) :
  fst (snd (Request.execute evaluate_state run (r, w)))
  = match Request.execute_activity evaluate_state run (new_attempt w)
            (r, after_reading w) with
    | (Ok _, s) => fst s
    | (Raise e, s) =>
        if Exception e then Request.set_state State.error (fst s) else fst s
    end.
Proof.
  unfold Request.execute.
  rewrite (bind_returns _ _ (r, w) (new_attempt w) (r, after_reading w))
    by reflexivity.
  unfold bind, try_except at 1.
  destruct (Request.execute_activity evaluate_state run (new_attempt w)
              (r, after_reading w)) as [[u|e] s1].
  - destruct (final_save_returns s1) as (w' & ->). reflexivity.
  - destruct (Exception e); [|reflexivity].
    unfold self_set. cbn [fst snd].
    destruct (final_save_returns
                (Request.set_state State.error (fst s1), snd s1))
      as (w' & ->).
    reflexivity.
Qed.

Lemma bind_Ok {S A B} (m : M S A) (k : A -> M S B) s b s' :
  bind m k s = (Ok b, s') ->
  exists a s1, m s = (Ok a, s1) /\ k a s1 = (Ok b, s').
Proof.
  unfold bind. destruct (m s) as [[a|e] s1]; intros H.
  - eauto.
  - discriminate.
Qed.

Lemma cd_Ok {X Doc A} d (body : M (X * World Doc) A) s a s' :
  cd d body s = (Ok a, s') ->
  exists s1 s2,
    fst s1 = fst s /\ body s1 = (Ok a, s2) /\ fst s' = fst s2.
Proof.
  unfold cd. intros H.
  apply bind_Ok in H. destruct H as (u & s1 & H1 & H2).
  unfold try_finally in H2.
  destruct (body s1) as [ra s2] eqn:Hb.
  pose proof (keeps_self_in_world (X:=X) (fallible (Doc:=Doc) OSError) s)
    as K1.
  pose proof (keeps_self_in_world (X:=X) (fallible (Doc:=Doc) OSError) s2)
    as K2.
  rewrite H1 in K1. simpl in K1.
  destruct (in_world (fallible OSError) s2) as [[u'|e'] s3];
    [|discriminate].
  inversion H2; subst. simpl in K2.
  exists s1, s2. auto.
Qed.

Lemma record_never_raises {Doc} (a : Activity.t) (attempt : Attempt.t) :
  never_raises (Attempt.record (Doc:=Doc) a attempt).
Proof.
  intros w. unfold Attempt.record, bind, utcnow, ret.
  destruct (truthy_Z (Activity.duration a)).
  - eexists; eexists; reflexivity.
  - cbn [Attempt.duration].
    destruct (negb (truthy_Z (Attempt.duration attempt)));
      eexists; eexists; reflexivity.
Qed.

Lemma execute_activity_Ok evaluate_state run attempt r w r1 w1 :
  Request.execute_activity evaluate_state run attempt (r, w)
  = (Ok tt, (r1, w1)) ->
  match run (Request.activity r) with
  | Activity.Raised e a' =>
      r1 = executed evaluate_state a' (Attempt.software_error e attempt) r
  | Activity.Returned a' =>
      exists (wr wr' : Request.W) recorded,
        Attempt.record a' attempt wr = (Ok recorded, wr')
        /\ r1 = executed evaluate_state a' recorded r
  end.
Proof.
  unfold Request.execute_activity. intros H.
  apply bind_Ok in H. destruct H as (u1 & s1 & Ea & H).
  unfold self_set in Ea. injection Ea as _ <-. cbn [fst snd] in H.
  apply bind_Ok in H. destruct H as (u2 & s2 & Eb & H).
  pose proof (save_keeps_self (Request.set_state State.running r, w)) as K.
  rewrite Eb in K. cbn [fst snd] in K.
  apply bind_Ok in H. destruct H as (d & s3 & Ec & H).
  unfold self_get in Ec. injection Ec as <- <-.
  apply bind_Ok in H. destruct H as (att & s4 & Ed & H).
  apply cd_Ok in Ed. destruct Ed as (s5 & s6 & K5 & Hbody & K6).
  unfold self_set, self_get, bind in H. cbn [fst snd] in H.
  injection H as <-.
  destruct s5 as [r5 w5]. cbn [fst] in K5. rewrite K in K5. subst r5.
  unfold try_except, bind, Request.activity_run, self_get, in_world in Hbody.
  cbn [fst snd Request.activity Request.set_state] in Hbody.
  destruct (run (Request.activity r)) as [a'|e a']; simpl in Hbody.
  - destruct (record_never_raises (Doc:=Request.t) a' attempt w5)
      as (rec & wr' & Hrec).
    rewrite Hrec in Hbody. injection Hbody as <- <-.
    exists w5, wr', rec. split; [assumption|].
    rewrite K6. reflexivity.
  - destruct (Exception e); [|discriminate].
    unfold ret in Hbody. injection Hbody as <- <-.
    rewrite K6. reflexivity.
Qed.

(** ** The retry limit *)

(** C1, as the code has it: [update_state] moves a request with more
    than 48 attempts to [retrylimit] whatever its state was, [deleted]
    included, and leaves a request that is in [retrylimit] there,
    untouched.  The state is not final for the rest of the code:
    [execute] on such a request, when [run()] returns and the
    bookkeeping goes through, sets the state that the exit-code mapping
    gives. *)
Theorem update_state_retrylimit :
  forall (r : Request.t) (w : Request.W),
    (48 < List.length (Request.attempts r))%nat ->
    due_has_timezone r ->
    (exists w',
        Request.update_state (r, w)
        = (Ok State.retrylimit, (Request.set_state State.retrylimit r, w')))
    /\ (forall (r' : Request.t) (w2 : Request.W),
           Request.state r' = State.retrylimit ->
           Request.update_state (r', w2) = (Ok State.retrylimit, (r', w2)))
    /\ (forall evaluate_state run a' (w2 : Request.W) s,
           run (Request.activity r) = Activity.Returned a' ->
           Request.execute_activity evaluate_state run (new_attempt w2)
             (r, after_reading w2) = (Ok tt, s) ->
           Request.state
             (fst (snd (Request.execute evaluate_state run (r, w2))))
           = evaluate_state (Activity.returncode a')).
Proof.
  intros r w Hlen Htz. split; [|split].
  - apply update_state_over_limit; assumption.
  - intros r' w2. apply update_state_keeps_retrylimit.
  - intros evaluate_state run a' w2 [r1 w1] Hrun Hbody.
    rewrite execute_request, Hbody.
    apply execute_activity_Ok in Hbody. rewrite Hrun in Hbody.
    destruct Hbody as (wr & wr' & rec & _ & ->). reflexivity.
Qed.

Lemma fallible_Raise {X Doc} (e0 : Exn) (s s' : X * World Doc) e :
  in_world (fallible e0) s = (Raise e, s') -> e = e0.
Proof.
  unfold in_world, fallible.
  destruct (faults (snd s)) as [|[|] fs]; intros H; try discriminate.
  injection H as <- _. reflexivity.
Qed.

Lemma cd_Raise {X Doc A} d (body : M (X * World Doc) A) s e s' :
  cd d body s = (Raise e, s') ->
  e = OSError
  \/ exists s1 s2,
       fst s1 = fst s /\ body s1 = (Raise e, s2) /\ fst s' = fst s2.
Proof.
  unfold cd. intros H.
  apply bind_Raise in H. destruct H as [H|(u & s1 & H1 & H2)].
  { left. exact (fallible_Raise _ _ _ _ H). }
  pose proof (keeps_self_in_world (X:=X) (fallible (Doc:=Doc) OSError) s)
    as K1.
  rewrite H1 in K1. cbn [fst snd] in K1.
  unfold try_finally in H2.
  destruct (body s1) as [ra s2] eqn:Hb.
  pose proof (keeps_self_in_world (X:=X) (fallible (Doc:=Doc) OSError) s2)
    as K2.
  destruct (in_world (fallible OSError) s2) as [[u'|e'] s3] eqn:Hf.
  - injection H2 as -> <-. right. exists s1, s2. auto.
  - injection H2 as <- _. left. exact (fallible_Raise _ _ _ _ Hf).
Qed.

(** The body of the first [try] of [execute] raises something that is no
    instance of [Exception] only when [run()] raised it; the request is
    then in state [running], with the activity as [run()] left it and
    no new attempt. *)
Lemma execute_activity_propagates evaluate_state run attempt r w e r1 w1 :
  Request.execute_activity evaluate_state run attempt (r, w)
  = (Raise e, (r1, w1)) ->
  Exception e = false ->
  exists a',
    run (Request.activity r) = Activity.Raised e a'
    /\ r1 = Request.set_activity a' (Request.set_state State.running r).
Proof.
  unfold Request.execute_activity. intros H Hne.
  apply bind_Raise in H. destruct H as [H|(u1 & s1 & Ea & H)];
    [discriminate|].
  unfold self_set in Ea. injection Ea as _ <-. cbn [fst snd] in H.
  apply bind_Raise in H. destruct H as [H|(u2 & s2 & Eb & H)].
  { apply save_raises_Exception in H. congruence. }
  pose proof (save_keeps_self (Request.set_state State.running r, w)) as K.
  rewrite Eb in K. cbn [fst snd] in K.
  apply bind_Raise in H. destruct H as [H|(d & s3 & Ec & H)];
    [discriminate|].
  unfold self_get in Ec. injection Ec as <- <-.
  apply bind_Raise in H. destruct H as [H|(att & s4 & Ed & H)].
  2: { unfold bind, self_set, self_get in H. discriminate. }
  apply cd_Raise in H. destruct H as [->|(s5 & s6 & K5 & Hbody & K6)];
    [discriminate Hne|].
  destruct s5 as [r5 w5]. cbn [fst] in K5. rewrite K in K5. subst r5.
  unfold try_except, bind, Request.activity_run, self_get, in_world in Hbody.
  cbn [fst snd Request.activity Request.set_state] in Hbody.
  destruct (run (Request.activity r)) as [a'|e0 a']; simpl in Hbody.
  - destruct (record_never_raises (Doc:=Request.t) a' attempt w5)
      as (rec & wr' & Hrec).
    rewrite Hrec in Hbody. discriminate.
  - destruct (Exception e0) eqn:E0; [discriminate|].
    injection Hbody as <- <-. exists a'. split; [reflexivity|].
    cbn [fst] in K6. exact K6.
Qed.

Lemma execute_returns evaluate_state run (r : Request.t) (w : Request.W) :
  raises_Exception_only run (Request.activity r) ->
  fst (Request.execute evaluate_state run (r, w)) = Ok tt.
Proof.
  intros Hrun. rewrite execute_result.
  destruct (Request.execute_activity evaluate_state run (new_attempt w)
              (r, after_reading w)) as [[u|e] [r1 w1]] eqn:Hb; [reflexivity|].
  destruct (Exception e) eqn:E; [reflexivity|].
  destruct (execute_activity_propagates _ _ _ _ _ _ _ _ Hb E)
    as (a' & Hr & _).
  rewrite (Hrun _ _ Hr) in E. discriminate.
Qed.

Lemma execute_never_raises evaluate_state run :
  (forall a, raises_Exception_only run a) ->
  never_raises (Request.execute evaluate_state run).
Proof.
  intros Hrun [r w].
  pose proof (execute_returns evaluate_state run r w (Hrun _)) as H.
  destruct (Request.execute evaluate_state run (r, w)) as [[[]|e] s'];
    cbn [fst] in H; [eauto|discriminate].
Qed.




(** ** Attempts *)




(** C8: the request [request_a1], executed with an activity whose
    [run()] raises: the attempt that [execute] appends has no finish time
    and no duration. *)
Theorem execute_raised_attempt_not_finalized :
  map (fun attempt => (Attempt.returncode attempt, Attempt.finished attempt,
                       Attempt.duration attempt))
    (Request.attempts
       (fst (snd (Request.execute evaluate_state_by_exit_code run_raises
                    (request_a1, world0)))))
  = [(Some 70%Z, None, None)].
Proof. reflexivity. Qed.

Example execute_returned_attempt :
  map (fun attempt => (Attempt.returncode attempt, Attempt.finished attempt,
                       Attempt.duration attempt))
    (Request.attempts
       (fst (snd (Request.execute evaluate_state_by_exit_code (run_exits 0)
                    (request_a1, world0)))))
  = [(Some 0%Z, Some (mk_datetime 1012%Z UTC), Some 7%Z)].
Proof. reflexivity. Qed.

(** ** The order of requests *)

Lemma ascii_compare_lt_trans (a b c : ascii) :
  Ascii.compare a b = Lt -> Ascii.compare b c = Lt -> Ascii.compare a c = Lt.
Proof.
  unfold Ascii.compare. rewrite !N.compare_lt_iff. apply N.lt_trans.
Qed.

Lemma string_compare_lt_trans (s1 : string) :
  forall s2 s3,
    String.compare s1 s2 = Lt -> String.compare s2 s3 = Lt ->
    String.compare s1 s3 = Lt.
Proof.
  induction s1 as [|c1 s1 IH]; intros [|c2 s2] [|c3 s3]; simpl;
    try congruence.
  intros H12 H23.
  destruct (Ascii.compare c1 c2) eqn:E12; try discriminate.
  - apply Ascii.compare_eq_iff in E12. subst c2.
    destruct (Ascii.compare c1 c3); try congruence. eauto.
  - destruct (Ascii.compare c2 c3) eqn:E23; try discriminate.
    + apply Ascii.compare_eq_iff in E23. subst c3. rewrite E12. reflexivity.
    + rewrite (ascii_compare_lt_trans _ _ _ E12 E23). reflexivity.
Qed.

Lemma string_ltb_trans (s1 s2 s3 : string) :
  (s1 <? s2)%string = true -> (s2 <? s3)%string = true ->
  (s1 <? s3)%string = true.
Proof.
  unfold String.ltb. intros H12 H23.
  destruct (String.compare s1 s2) eqn:E12; try discriminate.
  destruct (String.compare s2 s3) eqn:E23; try discriminate.
  rewrite (string_compare_lt_trans _ _ _ E12 E23). reflexivity.
Qed.

Lemma string_ltb_asym (s1 s2 : string) :
  (s1 <? s2)%string = true -> (s2 <? s1)%string = false.
Proof.
  unfold String.ltb. rewrite (String.compare_antisym s2 s1).
  destruct (String.compare s1 s2); simpl; congruence.
Qed.

Lemma lt_total (a b : Request.t) :
  due_has_timezone a -> due_has_timezone b ->
  exists c, Request.lt a b = Ok c.
Proof.
  unfold due_has_timezone, Request.lt, datetime_lt.
  destruct (Request.next_due a) as [x|], (Request.next_due b) as [y|];
    intros Ha Hb; try (eexists; reflexivity).
  rewrite Ha, Hb. eexists; reflexivity.
Qed.

Lemma lt_asym (a b : Request.t) :
  due_has_timezone a -> due_has_timezone b ->
  Request.lt a b = Ok true -> Request.lt b a = Ok false.
Proof.
  unfold due_has_timezone, Request.lt, datetime_lt.
  destruct (Request.next_due a) as [x|], (Request.next_due b) as [y|];
    intros Ha Hb; try congruence.
  - rewrite Ha, Hb. simpl. intros H. injection H as H. f_equal.
    apply Z.ltb_lt in H. apply Z.ltb_ge. lia.
  - intros H. injection H as H. f_equal. apply string_ltb_asym, H.
Qed.

Lemma lt_trans (a b c : Request.t) :
  due_has_timezone a -> due_has_timezone b -> due_has_timezone c ->
  Request.lt a b = Ok true -> Request.lt b c = Ok true ->
  Request.lt a c = Ok true.
Proof.
  unfold due_has_timezone, Request.lt, datetime_lt.
  destruct (Request.next_due a) as [x|], (Request.next_due b) as [y|],
    (Request.next_due c) as [z|]; intros Ha Hb Hc; try congruence.
  - rewrite Ha, Hb, Hc. simpl. intros H1 H2.
    injection H1 as H1. injection H2 as H2. f_equal.
    apply Z.ltb_lt in H1, H2. apply Z.ltb_lt. lia.
  - intros H1 H2. injection H1 as H1. injection H2 as H2. f_equal.
    eapply string_ltb_trans; eassumption.
Qed.

(** C4: two requests are equal exactly when their ids are; of two
    requests with a due date (both with a time zone, or both without)
    the one whose date is earlier is the smaller; a request with a due
    date is smaller than one without, and not the other way round; of
    two requests without a due date the one whose id is smaller, in the
    lexicographic order of strings, is the smaller. *)
Theorem request_eq_and_order :
  forall a b : Request.t,
    (Request.eq a b = true <-> Request.id a = Request.id b)
    /\ (forall x y,
           Request.next_due a = Some x -> Request.next_due b = Some y ->
           aware x = aware y ->
           (Request.lt a b = Ok true <-> (instant x < instant y)%Z)
           /\ (Request.lt a b = Ok false <-> (instant y <= instant x)%Z))
    /\ (forall x,
           Request.next_due a = Some x -> Request.next_due b = None ->
           Request.lt a b = Ok true /\ Request.lt b a = Ok false)
    /\ (Request.next_due a = None -> Request.next_due b = None ->
        (Request.lt a b = Ok true
         <-> String.compare (Request.id a) (Request.id b) = Lt)
        /\ (Request.lt a b = Ok false
            <-> String.compare (Request.id a) (Request.id b) <> Lt)).
Proof.
  intros a b. repeat split.
  - apply String.eqb_eq.
  - apply String.eqb_eq.
  - unfold Request.lt, datetime_lt. rewrite H, H0, H1, Bool.eqb_reflx.
    intros E. injection E as E. apply Z.ltb_lt, E.
  - unfold Request.lt, datetime_lt. rewrite H, H0, H1, Bool.eqb_reflx.
    intros E. f_equal. apply Z.ltb_lt, E.
  - unfold Request.lt, datetime_lt. rewrite H, H0, H1, Bool.eqb_reflx.
    intros E. injection E as E. apply Z.ltb_ge, E.
  - unfold Request.lt, datetime_lt. rewrite H, H0, H1, Bool.eqb_reflx.
    intros E. f_equal. apply Z.ltb_ge, E.
  - unfold Request.lt. rewrite H, H0. reflexivity.
  - unfold Request.lt. rewrite H, H0. reflexivity.
  - unfold Request.lt, String.ltb. rewrite H, H0.
    destruct (String.compare (Request.id a) (Request.id b));
      congruence.
  - unfold Request.lt, String.ltb. rewrite H, H0. intros ->. reflexivity.
  - unfold Request.lt, String.ltb. rewrite H, H0.
    destruct (String.compare (Request.id a) (Request.id b));
      congruence.
  - unfold Request.lt, String.ltb. rewrite H, H0.
    destruct (String.compare (Request.id a) (Request.id b));
      congruence.
Qed.

(** ** sorted *)

Section SortedFacts.
Context {A : Type} (lt : A -> A -> Result bool) (P : A -> Prop).
Hypothesis lt_returns : forall a b, P a -> P b -> exists c, lt a b = Ok c.
Hypothesis lt_asymmetric :
  forall a b, P a -> P b -> lt a b = Ok true -> lt b a = Ok false.
Hypothesis lt_transitive :
  forall a b c, P a -> P b -> P c ->
    lt a b = Ok true -> lt b c = Ok true -> lt a c = Ok true.

Lemma insort_sorted (x : A) (l : list A) :
  P x -> Forall P l -> StronglySorted (not_after lt) l ->
  exists r,
    insort lt x l = Ok r /\ Permutation r (l ++ [x])
    /\ StronglySorted (not_after lt) r.
Proof.
  intros Px. induction l as [|y l IH]; intros HP Hs.
  - exists [x]. repeat split; [reflexivity|]. repeat constructor.
  - inversion HP as [|? ? Py HPl]; subst.
    apply StronglySorted_inv in Hs. destruct Hs as [Hs Hy].
    simpl. destruct (lt_returns x y Px Py) as [[|] Hxy]; rewrite Hxy.
    + exists (x :: y :: l). repeat split.
      * change (x :: y :: l) with ([x] ++ (y :: l)).
        apply Permutation_app_comm.
      * constructor; [constructor; assumption|].
        constructor; [apply lt_asymmetric; assumption|].
        rewrite Forall_forall in Hy, HPl |- *. intros z Hz.
        unfold not_after in *.
        destruct (lt_returns z x (HPl z Hz) Px) as [[|] Hzx]; [|assumption].
        pose proof (lt_transitive z x y (HPl z Hz) Px Py Hzx Hxy) as Hzy.
        rewrite (Hy z Hz) in Hzy. discriminate.
    + destruct (IH HPl Hs) as (r & Hr & Hperm & Hsr).
      rewrite Hr. exists (y :: r). repeat split.
      * simpl. apply perm_skip, Hperm.
      * constructor; [assumption|].
        eapply Permutation_Forall; [symmetry; exact Hperm|].
        apply Forall_app. split; [assumption|].
        constructor; [exact Hxy|constructor].
Qed.

Lemma sorted_onto_sorted (l : list A) :
  forall acc,
    Forall P l -> Forall P acc -> StronglySorted (not_after lt) acc ->
    exists r,
      sorted_onto lt acc l = Ok r /\ Permutation r (acc ++ l)
      /\ StronglySorted (not_after lt) r.
Proof.
  induction l as [|x l IH]; intros acc HPl HPa Hs.
  - exists acc. rewrite app_nil_r. auto.
  - inversion HPl as [|? ? Px HPl']; subst.
    destruct (insort_sorted x acc Px HPa Hs) as (acc' & Hi & Hperm & Hs').
    simpl. rewrite Hi.
    assert (HPa' : Forall P acc').
    { eapply Permutation_Forall; [symmetry; exact Hperm|].
      apply Forall_app. split; [assumption|]. constructor; auto. }
    destruct (IH acc' HPl' HPa' Hs') as (r & Hr & Hp & Hsr).
    exists r. repeat split; [assumption| |assumption].
    rewrite Hp, Hperm, <- app_assoc. reflexivity.
Qed.

Lemma sorted_is_sorted (l : list A) :
  Forall P l ->
  exists r,
    sorted lt l = Ok r /\ Permutation r l /\ StronglySorted (not_after lt) r.
Proof.
  intros HP.
  destruct (sorted_onto_sorted l [] HP (Forall_nil _) (SSorted_nil _))
    as (r & Hr & Hp & Hs).
  exists r. auto.
Qed.

End SortedFacts.

(** ** Dicts and the objects they hold *)

Lemma dict_get_app {V} (key : string) (done rest : dict V) :
  ~ In key (map fst done) ->
  dict_get key (done ++ rest) = dict_get key rest.
Proof.
  induction done as [|[k v] done IH]; simpl; intros Hn; [reflexivity|].
  destruct (String.eqb_spec k key) as [->|Hk].
  - exfalso. apply Hn. left. reflexivity.
  - apply IH. intros Hin. apply Hn. right. exact Hin.
Qed.

Lemma dict_set_app {V} (key : string) (v x : V) (done rest : dict V) :
  ~ In key (map fst done) ->
  dict_set key v (done ++ (key, x) :: rest) = done ++ (key, v) :: rest.
Proof.
  induction done as [|[k y] done IH]; simpl; intros Hn.
  - rewrite String.eqb_refl. reflexivity.
  - destruct (String.eqb_spec k key) as [->|Hk].
    + exfalso. apply Hn. left. reflexivity.
    + rewrite IH; [reflexivity|]. intros Hin. apply Hn. right. exact Hin.
Qed.

Lemma on_request_at {A} (key : string) (method : M (Request.t * World Request.t) A)
    (m : ReqManager.t) (w : World Request.t) done r rest :
  ReqManager.requests m = done ++ (key, r) :: rest ->
  ~ In key (map fst done) ->
  ReqManager.on_request key method (m, w)
  = (fst (method (r, w)),
     (ReqManager.set_requests
        (done ++ (key, fst (snd (method (r, w)))) :: rest) m,
      snd (snd (method (r, w))))).
Proof.
  intros Hm Hn. unfold ReqManager.on_request. cbn [fst snd].
  rewrite Hm, dict_get_app by assumption. simpl.
  rewrite String.eqb_refl.
  destruct (method (r, w)) as [res [r' w']]. cbn [fst snd].
  rewrite dict_set_app by assumption. reflexivity.
Qed.

Lemma getitem_at (key : string) (m : ReqManager.t) (w : World Request.t)
    done r rest :
  ReqManager.requests m = done ++ (key, r) :: rest ->
  ~ In key (map fst done) ->
  ReqManager.getitem key (m, w) = (Ok r, (m, w)).
Proof.
  intros Hm Hn. unfold ReqManager.getitem, bind, self_get. cbn [fst snd].
  rewrite Hm, dict_get_app by assumption. simpl.
  rewrite String.eqb_refl. reflexivity.
Qed.

Lemma NoDup_app_head {V} (key : string) (v : V) (done rest : dict V) :
  NoDup (map fst (done ++ (key, v) :: rest)) ->
  ~ In key (map fst done)
  /\ (forall v', NoDup (map fst ((done ++ [(key, v')]) ++ rest))).
Proof.
  rewrite map_app. simpl. intros Hnd. split.
  - apply NoDup_remove_2 in Hnd. intros Hin. apply Hnd.
    apply in_or_app. left. exact Hin.
  - intros v'. rewrite <- app_assoc, map_app. simpl. exact Hnd.
Qed.

(** ** ReqManager.runnable *)

Lemma update_state_returns (r : Request.t) (w : World Request.t) :
  due_has_timezone r ->
  exists r' w',
    Request.update_state (r, w) = (Ok (Request.state r'), (r', w'))
    /\ Request.next_due r' = Request.next_due r.
Proof.
  intros Htz. unfold Request.update_state, due_has_timezone in *.
  run_monad.
  assert (Hgive : forall st r' (w' : World Request.t),
             Request.state r' = st ->
             Request.next_due r' = Request.next_due r ->
             exists r'' w'',
               (Ok st, (r', w')) = (Ok (Request.state r''), (r'', w''))
               /\ Request.next_due r'' = Request.next_due r).
  { intros st r' w' <- Hn. exists r', w'. auto. }
  destruct (State.eqb (Request.state r) State.pending
            || State.eqb (Request.state r) State.postpone); simpl.
  - destruct (Request.next_due r) as [d|] eqn:Hd; simpl.
    + unfold datetime_ge; simpl. rewrite Htz; simpl.
      destruct (instant d <=? now w + hd 0 (ticks w))%Z; simpl;
        destruct (Request.MAX_RETRIES <? List.length (Request.attempts r))%nat;
        simpl; apply Hgive; simpl; auto.
    + destruct (Request.MAX_RETRIES <? List.length (Request.attempts r))%nat;
        simpl; apply Hgive; simpl; auto.
  - destruct (Request.MAX_RETRIES <? List.length (Request.attempts r))%nat;
      simpl; apply Hgive; simpl; auto.
Qed.

Lemma refresh_all_keeps_due (rs : dict Request.t) :
  forall w,
    Forall (fun kr => due_has_timezone (snd kr)) rs ->
    Forall (fun kr => due_has_timezone (snd kr)) (fst (refresh_all rs w)).
Proof.
  induction rs as [|[key r] rs IH]; intros w Hall; simpl; [constructor|].
  inversion Hall as [|? ? Hr Hrs]; subst. simpl in Hr.
  destruct (update_state_returns r w Hr) as (r' & w' & Hu & Hd).
  rewrite Hu. simpl. constructor.
  - simpl. unfold due_has_timezone in *. rewrite Hd. exact Hr.
  - apply IH, Hrs.
Qed.

Lemma set_requests_same (m : ReqManager.t) :
  ReqManager.set_requests (ReqManager.requests m) m = m.
Proof. destruct m; reflexivity. Qed.

Lemma runnable_loop (rest : dict Request.t) :
  forall done found (m : ReqManager.t) (w : World Request.t),
    ReqManager.requests m = done ++ rest ->
    NoDup (map fst (done ++ rest)) ->
    Forall (fun kr => due_has_timezone (snd kr)) rest ->
    for_fold (map fst rest) found ReqManager.runnable_visit (m, w)
    = (Ok (fst found ++ filter is_running (fst (refresh_all rest w)),
           snd found ++ filter is_due_or_tempfail (fst (refresh_all rest w))),
       (ReqManager.set_requests (done ++ fst (refresh_all rest w)) m,
        snd (refresh_all rest w))).
Proof.
  induction rest as [|[key r] rest IH]; intros done found m w Hm Hnd Hall.
  - simpl. unfold ret. rewrite !app_nil_r. rewrite app_nil_r in Hm.
    rewrite <- Hm, set_requests_same. destruct found; reflexivity.
  - inversion Hall as [|? ? Hr Hrest]; subst. simpl in Hr.
    destruct (NoDup_app_head _ _ _ _ Hnd) as [Hn Hnd'].
    destruct (update_state_returns r w Hr) as (r' & w' & Hu & Hdue).
    cbn [map fst for_fold]. unfold bind at 1.
    unfold ReqManager.runnable_visit at 1. unfold bind at 1.
    rewrite (on_request_at key Request.update_state m w done r rest Hm Hn).
    rewrite Hu. cbn [fst snd].
    unfold bind at 1.
    rewrite (getitem_at key _ w' done r' rest); [|reflexivity|assumption].
    cbn [refresh_all]. rewrite Hu. cbn [fst snd filter].
    unfold is_running at 1, is_due_or_tempfail at 1. cbn [snd].
    unfold ReqManager.runnable_state.
    set (m1 := ReqManager.set_requests (done ++ (key, r') :: rest) m).
    assert (Hm1 : ReqManager.requests m1 = (done ++ [(key, r')]) ++ rest).
    { unfold m1. simpl. rewrite <- app_assoc. reflexivity. }
    destruct (Request.state r'); cbn [State.eqb orb]; unfold ret;
      rewrite (IH (done ++ [(key, r')]) _ m1 w' Hm1 (Hnd' r') Hrest);
      cbn [fst snd]; rewrite <- ?app_assoc; reflexivity.
Qed.

Lemma runnable_returns :
  forall (m : ReqManager.t) (w : World Request.t),
    NoDup (map fst (ReqManager.requests m)) ->
    Forall (fun kr => due_has_timezone (snd kr)) (ReqManager.requests m) ->
    let refreshed := fst (refresh_all (ReqManager.requests m) w) in
    exists later,
      ReqManager.runnable (m, w)
      = (Ok (filter is_running refreshed ++ later),
         (ReqManager.set_requests refreshed m,
          snd (refresh_all (ReqManager.requests m) w)))
      /\ Permutation later (filter is_due_or_tempfail refreshed)
      /\ StronglySorted (not_after ReqManager.request_lt) later.
Proof.
  intros m w Hnd Hall refreshed.
  assert (Hwf : Forall (fun kr => due_has_timezone (snd kr))
                  (filter is_due_or_tempfail refreshed)).
  { apply Forall_forall. intros kr Hin. apply filter_In in Hin.
    pose proof (refresh_all_keeps_due _ w Hall) as Hk.
    rewrite Forall_forall in Hk. apply Hk, Hin. }
  destruct (sorted_is_sorted ReqManager.request_lt
              (fun kr => due_has_timezone (snd kr))
              (fun a b => lt_total (snd a) (snd b))
              (fun a b => lt_asym (snd a) (snd b))
              (fun a b c => lt_trans (snd a) (snd b) (snd c))
              _ Hwf) as (later & Hs & Hp & Hss).
  exists later. repeat split; [|assumption|assumption].
  unfold ReqManager.runnable. unfold bind at 1, self_get at 1.
  cbn [fst snd]. unfold bind at 1.
  rewrite (runnable_loop (ReqManager.requests m) [] ([], []) m w
             eq_refl Hnd Hall).
  cbn [fst snd app]. fold refreshed.
  unfold bind, of_result. rewrite Hs. reflexivity.
Qed.

(** C5: [runnable] refreshes each request with [update_state], in the
    order of the dict; it yields first the requests that are then
    running, in that order, and after them the requests that are then
    due or tempfail, those and no others, in ascending order of
    [__lt__]. *)
Theorem runnable_yields_running_then_sorted :
  forall (m : ReqManager.t) (w : World Request.t),
    NoDup (map fst (ReqManager.requests m)) ->
    Forall (fun kr => due_has_timezone (snd kr)) (ReqManager.requests m) ->
    let refreshed := fst (refresh_all (ReqManager.requests m) w) in
    exists later,
      ReqManager.runnable (m, w)
      = (Ok (filter is_running refreshed ++ later),
         (ReqManager.set_requests refreshed m,
          snd (refresh_all (ReqManager.requests m) w)))
      /\ Permutation later (filter is_due_or_tempfail refreshed)
      /\ StronglySorted (not_after ReqManager.request_lt) later.
Proof. exact runnable_returns. Qed.

(** ** ReqManager.add *)

Lemma dict_get_set_same {V} (key : string) (v : V) (d : dict V) :
  dict_get key (dict_set key v d) = Some v.
Proof.
  induction d as [|[k x] d IH]; simpl.
  - rewrite String.eqb_refl. reflexivity.
  - destruct (k =? key)%string eqn:E; simpl; rewrite E; auto.
Qed.

Lemma dict_set_set {V} (key : string) (v v' : V) (d : dict V) :
  dict_set key v' (dict_set key v d) = dict_set key v' d.
Proof.
  induction d as [|[k x] d IH]; simpl.
  - rewrite String.eqb_refl. reflexivity.
  - destruct (k =? key)%string eqn:E; simpl; rewrite E; congruence.
Qed.

Lemma dir_not_empty (m : ReqManager.t) (r : Request.t) :
  (ReqManager.dir m r =? "")%string = false.
Proof.
  unfold ReqManager.dir. destruct (ReqManager.requestsdir m); reflexivity.
Qed.

Lemma opt_str_eq_refl (c : option string) : opt_str_eq c c = true.
Proof. destruct c; simpl; [apply String.eqb_refl|reflexivity]. Qed.

Lemma find_by_comment_finds (m : ReqManager.t) (existing : Request.t) c :
  In existing (map snd (ReqManager.requests m)) ->
  Request.comment existing = c ->
  exists found, ReqManager.find_by_comment m c = Some found.
Proof.
  intros Hin Hc. unfold ReqManager.find_by_comment.
  destruct (find (fun r => opt_str_eq (Request.comment r) c)
              (map snd (ReqManager.requests m))) as [found|] eqn:E.
  - eauto.
  - exfalso. pose proof (find_none _ _ E existing Hin) as Hno.
    simpl in Hno. rewrite Hc, opt_str_eq_refl in Hno. discriminate.
Qed.

Lemma add_unconditionally (m : ReqManager.t) (w : World Request.t)
    (r : Request.t) :
  ReqManager.add (Some r) false (m, w)
  = match Request.save (added m (now w + hd 0 (ticks w))%Z r,
                        mk_World (now w + hd 0 (ticks w))%Z (tl (ticks w))
                          (faults w) (disk w) (trace w)) with
    | (Ok _, (r2, w2)) =>
        (Ok (Some r2),
         (ReqManager.set_requests
            (dict_set (Request.id r) r2 (ReqManager.requests m)) m, w2))
    | (Raise e, (r2, w2)) =>
        (Raise e,
         (ReqManager.set_requests
            (dict_set (Request.id r) r2 (ReqManager.requests m)) m, w2))
    end.
Proof.
  unfold ReqManager.add. cbn [andb].
  unfold bind, self_get, self_set, ReqManager.on_request, in_world, utcnow.
  cbn [fst snd ReqManager.requests ReqManager.set_requests].
  rewrite dict_get_set_same. cbn [fst snd].
  fold (added m (now w + hd 0 (ticks w))%Z r).
  destruct (Request.save _) as [[u|e] [r2 w2]].
  - unfold ReqManager.getitem, bind, self_get, ret.
    cbn [fst snd ReqManager.requests ReqManager.set_requests].
    rewrite dict_get_set_same, dict_set_set. reflexivity.
  - rewrite dict_set_set. reflexivity.
Qed.

Lemma add_registers (m : ReqManager.t) (w : World Request.t) (r : Request.t) :
  let s := ReqManager.add (Some r) false (m, w) in
  let r' := added m (now w + hd 0 (ticks w))%Z r in
  ReqManager.requests (fst (snd s))
  = dict_set (Request.id r) r' (ReqManager.requests m)
  /\ (faults w = [] ->
      fst s = Ok (Some r')
      /\ disk (snd (snd s))
         = (Request.filename (ReqManager.dir m r), r') :: disk w).
Proof.
  cbn zeta. rewrite add_unconditionally.
  set (r' := added m (now w + hd 0 (ticks w))%Z r).
  set (w1 := mk_World (now w + hd 0 (ticks w))%Z (tl (ticks w)) (faults w)
               (disk w) (trace w)).
  pose proof (save_keeps_self (r', w1)) as Hk.
  split.
  - destruct (Request.save (r', w1)) as [[u|e] [r2 w2]];
      cbn [fst snd] in Hk |- *; subst r2; reflexivity.
  - intros Hf.
    assert (Hsave : Request.save (r', w1)
                    = (Ok tt, (r', mk_World (now w1) (ticks w1) []
                                     ((Request.filename (ReqManager.dir m r), r')
                                        :: disk w) (trace w)))).
    { unfold Request.save, bind at 1, self_get at 1. cbn [fst snd].
      unfold r' at 1, added at 1. cbn [Request.dir Request.set_added_at
                                        Request.set_dir].
      rewrite dir_not_empty.
      unfold w1. rewrite Hf. reflexivity. }
    rewrite Hsave. cbn [fst snd disk]. auto.
Qed.

(** C9: with [skip_same_comment] set, a request whose comment is not
    empty and is the comment of a request already held is not added:
    [add] returns [None] and leaves the manager and the world as they
    were.  Without it the request is entered in the dict under its id,
    with its directory and the time of adding, whatever the dict held;
    and when the file system does not fail it is written to its
    directory and returned. *)
Theorem add_skips_same_comment_or_adds :
  forall (m : ReqManager.t) (w : World Request.t) (r : Request.t),
    (forall existing,
        truthy_str (Request.comment r) = true ->
        In existing (map snd (ReqManager.requests m)) ->
        Request.comment existing = Request.comment r ->
        ReqManager.add (Some r) true (m, w) = (Ok None, (m, w)))
    /\ (let s := ReqManager.add (Some r) false (m, w) in
        let r' := added m (now w + hd 0 (ticks w))%Z r in
        ReqManager.requests (fst (snd s))
        = dict_set (Request.id r) r' (ReqManager.requests m)
        /\ (faults w = [] ->
            fst s = Ok (Some r')
            /\ disk (snd (snd s))
               = (Request.filename (ReqManager.dir m r), r') :: disk w)).
Proof.
  intros m w r. split.
  - intros existing Htruthy Hin Hc.
    destruct (find_by_comment_finds m existing _ Hin Hc) as [found Hfound].
    unfold ReqManager.add. rewrite Htruthy. cbn [andb].
    unfold bind, self_get. cbn [fst snd]. rewrite Hfound. reflexivity.
  - apply add_registers.
Qed.

(** ** ReqManager.postpone *)

Lemma save_writes (r : Request.t) (w : World Request.t) :
  has_dir r -> faults w = [] ->
  Request.save (r, w)
  = (Ok tt, (r, mk_World (now w) (ticks w) [] (saved_file r :: disk w)
                  (trace w))).
Proof.
  intros (d & Hd & Hne) Hf.
  unfold Request.save, bind at 1, self_get at 1. cbn [fst snd].
  unfold saved_file. rewrite Hd, Hne.
  destruct w as [n t f dk tr]. simpl in Hf. subst f. reflexivity.
Qed.

Lemma postpone_one parse_date (r : Request.t) (w : World Request.t) :
  Request.state r = State.postpone -> has_dir r -> faults w = [] ->
  bind (Request.update_due parse_date Request.due_None)
       (fun _ => Request.save) (r, w)
  = (Ok tt,
     (postponed_request r,
      mk_World (now w) (ticks w) []
        (saved_file (postponed_request r) :: disk w) (trace w))).
Proof.
  intros Hst Hdir Hf.
  assert (Hupd : exists b,
             Request.update_due parse_date Request.due_None (r, w)
             = (Ok b, (postponed_request r, w))).
  { unfold Request.update_due, Request.update_state, postponed_request.
    run_monad. rewrite Hst. simpl.
    destruct (Request.MAX_RETRIES <? List.length (Request.attempts r))%nat;
      simpl; eexists; reflexivity. }
  destruct Hupd as [b Hupd]. unfold bind. rewrite Hupd.
  apply save_writes; [|assumption].
  destruct Hdir as (d & Hd & Hne). exists d. split; [|assumption].
  unfold postponed_request.
  destruct (Request.MAX_RETRIES <? List.length (Request.attempts r))%nat;
    simpl; assumption.
Qed.

Lemma postponed_request_facts (r : Request.t) :
  Request.next_due (postponed_request r) = None
  /\ Request.id (postponed_request r) = Request.id r
  /\ Request.dir (postponed_request r) = Request.dir r.
Proof.
  unfold postponed_request.
  destruct (Request.MAX_RETRIES <? List.length (Request.attempts r))%nat;
    repeat split.
Qed.

Lemma postpone_loop parse_date (rest : dict Request.t) :
  forall done (m : ReqManager.t) (w : World Request.t),
    ReqManager.requests m = done ++ rest ->
    NoDup (map fst (done ++ rest)) ->
    Forall (fun kr => is_postponed kr = true -> has_dir (snd kr)) rest ->
    faults w = [] ->
    for_each (map fst (filter is_postponed rest))
      (fun key =>
         ReqManager.on_request key
           (Request.update_due parse_date Request.due_None ;; Request.save))
      (m, w)
    = (Ok tt,
       (ReqManager.set_requests (done ++ map postpone_entry rest) m,
        mk_World (now w) (ticks w) []
          (rev (map (fun kr => saved_file (snd (postpone_entry kr)))
                  (filter is_postponed rest)) ++ disk w)
          (trace w))).
Proof.
  induction rest as [|[key r] rest IH]; intros done m w Hm Hnd Hdirs Hf.
  - simpl. unfold ret. rewrite app_nil_r in Hm |- *.
    rewrite <- Hm, set_requests_same.
    destruct w as [n t f dk tr]. simpl in Hf. subst f. reflexivity.
  - inversion Hdirs as [|? ? Hdir Hdirs']; subst.
    destruct (NoDup_app_head _ _ _ _ Hnd) as [Hn Hnd'].
    cbn [filter map]. unfold postpone_entry at 1.
    destruct (is_postponed (key, r)) eqn:Ep.
    + cbn [map fst for_each]. unfold bind at 1.
      rewrite (on_request_at key _ m w done r rest Hm Hn).
      unfold is_postponed in Ep. cbn [snd] in Ep.
      assert (Hst : Request.state r = State.postpone).
      { destruct (Request.state r); simpl in Ep; congruence. }
      rewrite (postpone_one parse_date r w Hst (Hdir eq_refl) Hf).
      cbn [fst snd].
      set (m1 := ReqManager.set_requests
                   (done ++ (key, postponed_request r) :: rest) m).
      assert (Hm1 : ReqManager.requests m1
                    = (done ++ [(key, postponed_request r)]) ++ rest).
      { unfold m1. simpl. rewrite <- app_assoc. reflexivity. }
      rewrite (IH _ m1
                 (mk_World (now w) (ticks w) []
                    (saved_file (postponed_request r) :: disk w) (trace w))
                 Hm1 (Hnd' _) Hdirs' eq_refl).
      cbn [now ticks disk trace rev map snd].
      assert (He : postpone_entry (key, r) = (key, postponed_request r)).
      { unfold postpone_entry, is_postponed. cbn [fst snd].
        rewrite Ep. reflexivity. }
      rewrite He. cbn [snd]. rewrite <- !app_assoc. reflexivity.
    + set (m1 := m).
      assert (Hm1 : ReqManager.requests m1 = (done ++ [(key, r)]) ++ rest).
      { unfold m1. rewrite Hm, <- app_assoc. reflexivity. }
      rewrite (IH _ m1 w Hm1 (Hnd' _) Hdirs' Hf).
      rewrite <- !app_assoc. reflexivity.
Qed.

Lemma dict_set_fresh {V} (key : string) (v : V) (d : dict V) :
  ~ In key (map fst d) -> dict_set key v d = d ++ [(key, v)].
Proof.
  induction d as [|[k x] d IH]; simpl; intros Hn; [reflexivity|].
  destruct (String.eqb_spec k key) as [->|Hk].
  - exfalso. apply Hn. left. reflexivity.
  - rewrite IH; [reflexivity|]. intros Hin. apply Hn. right. exact Hin.
Qed.

Lemma dict_of_onto {V} (pairs : dict V) :
  forall acc,
    NoDup (map fst (acc ++ pairs)) ->
    fold_left (fun d kv => dict_set (fst kv) (snd kv) d) pairs acc
    = acc ++ pairs.
Proof.
  induction pairs as [|[k v] pairs IH]; intros acc Hnd; simpl.
  - rewrite app_nil_r. reflexivity.
  - destruct (NoDup_app_head _ _ _ _ Hnd) as [Hn Hnd'].
    rewrite dict_set_fresh by assumption.
    rewrite IH by apply Hnd'. rewrite <- app_assoc. reflexivity.
Qed.

Lemma dict_of_distinct {V} (pairs : dict V) :
  NoDup (map fst pairs) -> dict_of pairs = pairs.
Proof. intros Hnd. apply (dict_of_onto pairs []), Hnd. Qed.

Lemma NoDup_filter_ids (m : ReqManager.t) (p : string * Request.t -> bool) :
  held_by_id m ->
  NoDup (map (fun kr => Request.id (snd kr)) (filter p (ReqManager.requests m))).
Proof.
  intros [Hnd Hid].
  induction (ReqManager.requests m) as [|[k r] rs IH]; simpl; [constructor|].
  inversion Hnd as [|? ? Hnotin Hnd']; subst.
  inversion Hid as [|? ? Hk Hid']; subst. simpl in Hk.
  destruct (p (k, r)); [|auto].
  simpl. constructor; [|auto].
  intros Hin. apply Hnotin. rewrite Hk.
  apply in_map_iff in Hin. destruct Hin as ([k' r'] & Heq & Hin').
  apply filter_In in Hin'. destruct Hin' as [Hin' _].
  rewrite Forall_forall in Hid'. pose proof (Hid' _ Hin') as Hk'.
  simpl in Hk', Heq. apply in_map_iff. exists (k', r'). split; [|assumption].
  simpl. congruence.
Qed.

Lemma is_postponed_state (kr : string * Request.t) :
  is_postponed kr = true <-> Request.state (snd kr) = State.postpone.
Proof.
  unfold is_postponed. destruct (Request.state (snd kr)); simpl;
    split; congruence.
Qed.

(** C7: with the lock held and no failure of the directory service or of
    the file system, [postpone] makes one call of [postpone_maintenance],
    when some request is in state [postpone], whose argument has, for
    exactly those requests, twice the estimate under the request's id;
    afterwards each of them has no due date and has been saved in that
    form, and the other requests are as they were. *)
Theorem postpone_doubles_estimate_and_clears_due :
  forall parse_date (m : ReqManager.t) (w : World Request.t),
    ReqManager.lockfile m = true ->
    held_by_id m ->
    faults w = [] ->
    Forall (fun kr => is_postponed kr = true -> has_dir (snd kr))
      (ReqManager.requests m) ->
    let postponed := filter is_postponed (ReqManager.requests m) in
    exists m' w',
      ReqManager.postpone parse_date (m, w) = (Ok tt, (m', w'))
      /\ trace w'
         = trace w ++ match postponed with
                      | [] => []
                      | _ => [postpone_maintenance (map postpone_by postponed)]
                      end
      /\ (forall key r,
             In (key, r) (ReqManager.requests m) ->
             Request.state r = State.postpone ->
             exists r',
               In (key, r') (ReqManager.requests m')
               /\ Request.next_due r' = None
               /\ In (saved_file r') (disk w'))
      /\ (forall key r,
             In (key, r) (ReqManager.requests m) ->
             Request.state r <> State.postpone ->
             In (key, r) (ReqManager.requests m')).
Proof.
  intros parse_date m w Hlock Hheld Hf Hdirs postponed.
  unfold ReqManager.postpone, ReqManager.require_lock.
  unfold bind at 1, self_get at 1. cbn [fst snd]. rewrite Hlock.
  unfold bind at 1, self_get at 1. cbn [fst snd].
  fold is_postponed. fold postponed.
  destruct postponed as [|p ps] eqn:Ep.
  - exists m, w. rewrite app_nil_r. repeat split; [|auto].
    intros key r Hin Hst. exfalso.
    assert (Hin' : In (key, r) (filter is_postponed (ReqManager.requests m))).
    { apply filter_In. split; [assumption|]. apply is_postponed_state, Hst. }
    fold postponed in Hin'. rewrite Ep in Hin'. exact Hin'.
  - rewrite <- Ep.
    assert (Hargs : dict_of (map (fun kr => (Request.id (snd kr),
                                             (2 * Request.estimate (snd kr))%Z))
                              postponed)
                    = map postpone_by postponed).
    { apply dict_of_distinct. rewrite map_map. simpl.
      apply NoDup_filter_ids, Hheld. }
    rewrite Hargs.
    rewrite (bind_returns _ _ _ tt _ (remote_no_faults _ m w Hf)).
    unfold with_calls.
    set (w1 := mk_World (now w) (ticks w) (faults w) (disk w)
                 (trace w ++ [postpone_maintenance (map postpone_by postponed)])).
    pose proof (postpone_loop parse_date (ReqManager.requests m) [] m w1
                  eq_refl (proj1 Hheld) Hdirs Hf) as Hloop.
    fold postponed in Hloop. cbn [app] in Hloop.
    eexists; eexists. split; [exact Hloop|].
    cbn [trace disk ReqManager.requests ReqManager.set_requests].
    split; [|split].
    + reflexivity.
    + intros key r Hin Hst.
      assert (Hp : is_postponed (key, r) = true)
        by (apply is_postponed_state, Hst).
      exists (postponed_request r). split; [|split].
      * apply in_map_iff. exists (key, r). split; [|assumption].
        unfold postpone_entry. rewrite Hp. reflexivity.
      * apply postponed_request_facts.
      * apply in_or_app. left. apply in_rev. rewrite rev_involutive.
        apply in_map_iff. exists (key, r). split.
        -- unfold postpone_entry. rewrite Hp. reflexivity.
        -- apply filter_In. split; assumption.
    + intros key r Hin Hst.
      apply in_map_iff. exists (key, r). split; [|assumption].
      unfold postpone_entry.
      destruct (is_postponed (key, r)) eqn:Hp; [|reflexivity].
      apply is_postponed_state in Hp. contradiction.
Qed.

(** ** What a computation leaves alone *)

Section Preserves.
Context {S : Type} (R : S -> S -> Prop).
Hypothesis R_refl : forall s, R s s.
Hypothesis R_trans : forall s1 s2 s3, R s1 s2 -> R s2 s3 -> R s1 s3.

Lemma preserves_ret {A} (a : A) : preserves R (ret a).
Proof. intros s. apply R_refl. Qed.

Lemma preserves_raise {A} (e : Exn) : preserves R (@raise S A e).
Proof. intros s. apply R_refl. Qed.

Lemma preserves_of_result {A} (r : Result A) : preserves R (of_result r).
Proof. intros s. apply R_refl. Qed.

Lemma preserves_bind {A B} (m : M S A) (k : A -> M S B) :
  preserves R m -> (forall a, preserves R (k a)) -> preserves R (bind m k).
Proof.
  intros Hm Hk s. unfold bind. specialize (Hm s).
  destruct (m s) as [[a|e] s1]; simpl in *.
  - eapply R_trans; [exact Hm|apply Hk].
  - exact Hm.
Qed.

Lemma preserves_try_except {A} catches (m : M S A) (h : Exn -> M S A) :
  preserves R m -> (forall e, preserves R (h e)) ->
  preserves R (try_except catches m h).
Proof.
  intros Hm Hh s. unfold try_except. specialize (Hm s).
  destruct (m s) as [[a|e] s1]; simpl in *; [exact Hm|].
  destruct (catches e); [|exact Hm].
  eapply R_trans; [exact Hm|apply Hh].
Qed.

Lemma preserves_try_finally {A} (m : M S A) (f : M S unit) :
  preserves R m -> preserves R f -> preserves R (try_finally m f).
Proof.
  intros Hm Hf s. unfold try_finally. specialize (Hm s).
  destruct (m s) as [r s1]. specialize (Hf s1).
  destruct (f s1) as [[u|e] s2]; simpl in *; eapply R_trans; eassumption.
Qed.

Lemma preserves_for_fold {A B} (body : B -> A -> M S B) (xs : list A) :
  (forall acc x, preserves R (body acc x)) ->
  forall acc, preserves R (for_fold xs acc body).
Proof.
  intros Hb. induction xs as [|x xs IH]; intros acc; simpl.
  - apply preserves_ret.
  - apply preserves_bind; [apply Hb|]. intros acc'. apply IH.
Qed.

End Preserves.

Lemma same_trace_refl {X Doc} (s : X * World Doc) : same_trace s s.
Proof. reflexivity. Qed.

Lemma same_trace_trans {X Doc} (s1 s2 s3 : X * World Doc) :
  same_trace s1 s2 -> same_trace s2 s3 -> same_trace s1 s3.
Proof. unfold same_trace. congruence. Qed.

Lemma same_keys_and_trace_refl s : same_keys_and_trace s s.
Proof. split; reflexivity. Qed.

Lemma same_keys_and_trace_trans s1 s2 s3 :
  same_keys_and_trace s1 s2 -> same_keys_and_trace s2 s3 ->
  same_keys_and_trace s1 s3.
Proof. unfold same_keys_and_trace. intros [] []. split; congruence. Qed.

Lemma self_get_same_trace {X Doc A} (f : X -> A) :
  preserves same_trace (@self_get X (World Doc) A f).
Proof. intros s. reflexivity. Qed.

Lemma self_set_same_trace {X Doc} (f : X -> X) :
  preserves same_trace (@self_set X (World Doc) f).
Proof. intros s. reflexivity. Qed.

Lemma utcnow_same_trace {X Doc} :
  preserves same_trace (@in_world X (World Doc) _ utcnow).
Proof. intros s. reflexivity. Qed.

Lemma fallible_same_trace {X Doc} (e : Exn) :
  preserves same_trace (@in_world X (World Doc) _ (fallible e)).
Proof.
  intros s. unfold same_trace, in_world, fallible.
  destruct (faults (snd s)); reflexivity.
Qed.

Lemma write_file_same_trace {X Doc} (path : string) (doc : Doc) :
  preserves same_trace (@in_world X (World Doc) _ (write_file path doc)).
Proof.
  intros s. unfold same_trace, in_world, write_file, bind, fallible.
  destruct (faults (snd s)) as [|[|] fs]; reflexivity.
Qed.

Lemma cd_same_trace {X Doc A} d (body : M (X * World Doc) A) :
  preserves same_trace body -> preserves same_trace (cd d body).
Proof.
  intros Hb. unfold cd.
  apply preserves_bind; [apply same_trace_trans|apply fallible_same_trace|].
  intros _. apply preserves_try_finally;
    [apply same_trace_trans|assumption|apply fallible_same_trace].
Qed.

Lemma save_same_trace : preserves same_trace Request.save.
Proof.
  unfold Request.save.
  apply preserves_bind; [apply same_trace_trans|apply self_get_same_trace|].
  intros [d|]; [|apply preserves_raise, same_trace_refl].
  destruct (d =? "")%string; [apply preserves_raise, same_trace_refl|].
  apply preserves_bind; [apply same_trace_trans|apply self_get_same_trace|].
  intros self.
  apply preserves_bind; [apply same_trace_trans|apply write_file_same_trace|].
  intros _. apply cd_same_trace, fallible_same_trace.
Qed.

Ltac same_trace_step :=
  first
    [ apply save_same_trace
    | apply self_get_same_trace
    | apply self_set_same_trace
    | apply utcnow_same_trace
    | apply preserves_ret, same_trace_refl
    | apply preserves_raise, same_trace_refl
    | apply preserves_of_result, same_trace_refl
    | apply preserves_bind; [apply same_trace_trans| |intros ?] ].

Lemma update_state_same_trace : preserves same_trace Request.update_state.
Proof.
  unfold Request.update_state.
  do 3 same_trace_step.
  - destruct (_ || _); [|same_trace_step].
    destruct a0; repeat same_trace_step.
  - same_trace_step.
    + destruct a1; same_trace_step.
    + repeat same_trace_step. destruct (_ <? _)%nat; same_trace_step.
Qed.

Lemma update_due_same_trace parse_date due :
  preserves same_trace (Request.update_due parse_date due).
Proof.
  unfold Request.update_due.
  do 2 same_trace_step.
  - destruct due; [same_trace_step|same_trace_step|].
    destruct (s =? "")%string; repeat same_trace_step.
  - do 2 same_trace_step.
    + destruct a1 as [d|]; [|same_trace_step].
      destruct (negb (aware d)); same_trace_step.
    + same_trace_step; [apply update_state_same_trace|].
      repeat same_trace_step.
Qed.

(** ** ReqManager.schedule *)

Lemma dict_set_keys {V} (key : string) (v x : V) (d : dict V) :
  dict_get key d = Some x -> map fst (dict_set key v d) = map fst d.
Proof.
  induction d as [|[k y] d IH]; simpl; [discriminate|].
  destruct (k =? key)%string; simpl; [reflexivity|].
  intros H. rewrite IH by assumption. reflexivity.
Qed.

Lemma dict_get_None {V} (key : string) (d : dict V) :
  dict_get key d = None <-> ~ In key (map fst d).
Proof.
  induction d as [|[k y] d IH]; simpl; [tauto|].
  destruct (String.eqb_spec k key) as [->|Hk].
  - split; [discriminate|]. intros H. exfalso. apply H. left. reflexivity.
  - rewrite IH. tauto.
Qed.

Lemma on_request_same_keys_and_trace {A} key
    (method : M (Request.t * World Request.t) A) :
  preserves same_trace method ->
  preserves same_keys_and_trace (ReqManager.on_request key method).
Proof.
  intros Hm [m w]. unfold ReqManager.on_request. cbn [fst snd].
  destruct (dict_get key (ReqManager.requests m)) as [r|] eqn:Hget.
  - specialize (Hm (r, w)). unfold same_trace in Hm.
    destruct (method (r, w)) as [res [r' w']]. cbn [fst snd] in *.
    split; [|exact Hm]. cbn [fst ReqManager.requests ReqManager.set_requests].
    eapply dict_set_keys. exact Hget.
  - apply same_keys_and_trace_refl.
Qed.

Lemma getitem_same_keys_and_trace key :
  preserves same_keys_and_trace (ReqManager.getitem key).
Proof.
  intros [m w]. unfold ReqManager.getitem, bind, self_get. cbn [fst snd].
  destruct (dict_get key (ReqManager.requests m));
    apply same_keys_and_trace_refl.
Qed.

Ltac same_keys_step :=
  first
    [ apply getitem_same_keys_and_trace
    | apply on_request_same_keys_and_trace
    | apply preserves_ret, same_keys_and_trace_refl
    | apply preserves_raise, same_keys_and_trace_refl
    | apply preserves_bind; [apply same_keys_and_trace_trans| |intros ?] ].

Lemma schedule_item_same_keys_and_trace parse_date disappeared item :
  preserves same_keys_and_trace
    (ReqManager.schedule_item parse_date disappeared item).
Proof.
  unfold ReqManager.schedule_item.
  apply preserves_try_except;
    [apply same_keys_and_trace_trans| |intros e; same_keys_step].
  same_keys_step; [same_keys_step|].
  same_keys_step; [destruct (snd item); same_keys_step|].
  same_keys_step;
    [same_keys_step; apply update_due_same_trace|].
  same_keys_step; [|same_keys_step].
  match goal with |- context [if ?c then _ else _] => destruct c end;
    [|same_keys_step].
  same_keys_step. repeat same_trace_step.
Qed.

Lemma set_add_In (x k : string) (s : list string) :
  In k (set_add String.eqb x s) <-> k = x \/ In k s.
Proof.
  unfold set_add.
  destruct (existsb (String.eqb x) s) eqn:E.
  - split; [auto|]. intros [->|H]; [|assumption].
    apply existsb_exists in E. destruct E as (y & Hy & Heq).
    apply String.eqb_eq in Heq. subst y. assumption.
  - rewrite in_app_iff. simpl. split.
    + intros [H|[H|[]]]; auto.
    + intros [H|H]; auto.
Qed.

Lemma set_add_NoDup (x : string) (s : list string) :
  NoDup s -> NoDup (set_add String.eqb x s).
Proof.
  intros Hnd. unfold set_add.
  destruct (existsb (String.eqb x) s) eqn:E; [assumption|].
  apply (Permutation_NoDup (l := x :: s)).
  - change (x :: s) with ([x] ++ s). apply Permutation_app_comm.
  - constructor; [|assumption]. intros Hin.
    assert (Hex : existsb (String.eqb x) s = true).
    { apply existsb_exists. exists x.
      split; [assumption|apply String.eqb_refl]. }
    congruence.
Qed.

Lemma schedule_item_Ok parse_date disappeared item s d s' :
  ReqManager.schedule_item parse_date disappeared item s = (Ok d, s') ->
  (d = disappeared \/ d = set_add String.eqb (fst item) disappeared)
  /\ (dict_get (fst item) (ReqManager.requests (fst s)) = None ->
      d = set_add String.eqb (fst item) disappeared).
Proof.
  unfold ReqManager.schedule_item, try_except.
  match goal with
  | |- context [match ?body s with _ => _ end] =>
      destruct (body s) as [[a|e] s1] eqn:Hbody
  end.
  - intros H. injection H as <- <-.
    apply bind_Ok in Hbody. destruct Hbody as (r & s2 & Hget & Hbody).
    apply bind_Ok in Hbody. destruct Hbody as (time & s3 & _ & Hbody).
    apply bind_Ok in Hbody. destruct Hbody as (changed & s4 & _ & Hbody).
    apply bind_Ok in Hbody. destruct Hbody as (u & s5 & _ & Hbody).
    unfold ret in Hbody. injection Hbody as <- _.
    split; [auto|]. intros Hnone.
    unfold ReqManager.getitem, bind, self_get in Hget. cbn [fst snd] in Hget.
    rewrite Hnone in Hget. discriminate.
  - destruct (is_KeyError e); [|discriminate].
    unfold ret. intros H. injection H as <- _. auto.
Qed.

Lemma schedule_loop parse_date (result : dict ReqManager.Scheduled) :
  forall acc s d s',
    NoDup acc ->
    for_fold result acc (ReqManager.schedule_item parse_date) s = (Ok d, s') ->
    NoDup d
    /\ (forall item,
           In item result ->
           dict_get (fst item) (ReqManager.requests (fst s)) = None ->
           In (fst item) d)
    /\ (forall k, In k acc -> In k d)
    /\ (forall k, In k d -> In k acc \/ In k (map fst result)).
Proof.
  induction result as [|item result IH]; intros acc s d s' Hnd Hloop.
  - simpl in Hloop. unfold ret in Hloop. injection Hloop as <- <-.
    repeat split; auto. intros item [].
  - cbn [for_fold] in Hloop.
    apply bind_Ok in Hloop. destruct Hloop as (acc1 & s1 & Hitem & Hloop).
    pose proof (schedule_item_same_keys_and_trace parse_date acc item s)
      as [Hkeys _].
    rewrite Hitem in Hkeys. cbn [fst snd] in Hkeys.
    apply schedule_item_Ok in Hitem. destruct Hitem as [Hacc1 Hnone].
    assert (Hnd1 : NoDup acc1).
    { destruct Hacc1 as [->| ->]; [assumption|apply set_add_NoDup, Hnd]. }
    assert (Hgrow : forall k, In k acc -> In k acc1).
    { intros k Hk. destruct Hacc1 as [->| ->]; [assumption|].
      apply set_add_In. auto. }
    destruct (IH acc1 s1 d s' Hnd1 Hloop) as (Hd & Hmiss & Hkeep & Hfrom).
    split; [assumption|]. split; [|split].
    + intros it [<-|Hin] Hget.
      * apply Hkeep. rewrite (Hnone Hget). apply set_add_In. auto.
      * apply Hmiss; [assumption|].
        apply dict_get_None. rewrite Hkeys. apply dict_get_None, Hget.
    + auto.
    + intros k Hk. destruct (Hfrom k Hk) as [Hin|Hin].
      * destruct Hacc1 as [->| ->]; [auto|].
        apply set_add_In in Hin. destruct Hin as [->|Hin]; [|auto].
        right. left. reflexivity.
      * right. right. assumption.
Qed.

Lemma remote_Ok {X} (ev : Event) (x x' : X) (w w' : World Request.t) u :
  in_world (remote ev) (x, w) = (Ok u, (x', w')) ->
  x' = x /\ trace w' = trace w ++ [ev].
Proof.
  unfold in_world, remote, bind, fallible, emit. cbn [fst snd].
  destruct (faults w) as [|[|] fs]; intros H; try discriminate;
    injection H as _ <- <-; auto.
Qed.

Lemma dict_get_constant (key : string) (v : string) (l : list string) :
  dict_get key (map (fun k => (k, v)) l) = Some v <-> In key l.
Proof.
  induction l as [|k l IH]; simpl; [split; [discriminate|tauto]|].
  destruct (String.eqb_spec k key) as [->|Hk].
  - split; auto.
  - rewrite IH. split; [auto|]. intros [H|H]; [contradiction|assumption].
Qed.

Lemma schedule_calls parse_date (m m' : ReqManager.t)
    (w w' : World Request.t) :
  ReqManager.schedule parse_date (m, w) = (Ok tt, (m', w')) ->
  exists disappeared,
    trace w'
    = trace w ++ schedule_maintenance (schedule_args m)
        :: match disappeared with
           | [] => []
           | _ => [end_maintenance
                     (map (fun key => (key, "deleted")) disappeared)]
           end
    /\ (forall key,
           In key (map fst (ReqManager.directory m (schedule_args m))) ->
           dict_get key (ReqManager.requests m) = None ->
           In key disappeared)
    /\ (forall key,
           In key disappeared ->
           In key (map fst (ReqManager.directory m (schedule_args m)))).
Proof.
  unfold ReqManager.schedule, ReqManager.require_lock. intros H.
  apply bind_Ok in H. destruct H as (locked & s0 & Hl & H).
  unfold self_get in Hl. injection Hl as <- <-. cbn [fst] in H.
  destruct (ReqManager.lockfile m); [|discriminate].
  apply bind_Ok in H. destruct H as (rs & s1 & Hrs & H).
  unfold self_get in Hrs. injection Hrs as <- <-. cbn [fst] in H.
  fold (schedule_args m) in H.
  apply bind_Ok in H. destruct H as (ask & s2 & Hask & H).
  unfold self_get in Hask. injection Hask as <- <-. cbn [fst] in H.
  apply bind_Ok in H. destruct H as (u & [m3 w3] & Hcall & H).
  apply remote_Ok in Hcall. destruct Hcall as [-> Htr3].
  apply bind_Ok in H. destruct H as (d & [m4 w4] & Hloop & H).
  pose proof (preserves_for_fold same_keys_and_trace
                same_keys_and_trace_refl same_keys_and_trace_trans
                (ReqManager.schedule_item parse_date)
                (ReqManager.directory m (schedule_args m))
                (schedule_item_same_keys_and_trace parse_date)
                [] (m, w3)) as [_ Htr4].
  rewrite Hloop in Htr4. cbn [fst snd] in Htr4.
  apply schedule_loop in Hloop; [|constructor].
  destruct Hloop as (Hnd & Hmiss & _ & Hfrom).
  exists d. split; [|split].
  - destruct d as [|k d].
    + unfold ret in H. injection H as <- <-. congruence.
    + rewrite dict_of_distinct in H.
      * apply remote_Ok in H. destruct H as [_ Htr].
        rewrite Htr, Htr4, Htr3, <- app_assoc. reflexivity.
      * rewrite map_map. simpl. rewrite map_id. exact Hnd.
  - intros key Hin Hget. apply in_map_iff in Hin.
    destruct Hin as (item & <- & Hin). apply (Hmiss item Hin Hget).
  - intros key Hin. destruct (Hfrom key Hin) as [[]|Hr]. exact Hr.
Qed.

(** C2, as the code has it: when [schedule] returns, every id that the
    answer of the directory service names and under which the manager
    holds no request has been reported to [end_maintenance] as deleted,
    after the call of [schedule_maintenance]; and every id so reported
    is an id of the answer, so that a request held by the manager which
    the answer leaves out is not reported. *)
Theorem schedule_reports_ids_unknown_locally :
  forall parse_date (m m' : ReqManager.t) (w w' : World Request.t),
    ReqManager.schedule parse_date (m, w) = (Ok tt, (m', w')) ->
    let result := ReqManager.directory m (schedule_args m) in
    exists calls,
      trace w' = trace w ++ schedule_maintenance (schedule_args m) :: calls
      /\ (forall key,
             In key (map fst result) ->
             dict_get key (ReqManager.requests m) = None ->
             reported_deleted key calls)
      /\ (forall key, reported_deleted key calls -> In key (map fst result)).
Proof.
  intros parse_date m m' w w' H result.
  destruct (schedule_calls parse_date m m' w w' H)
    as (d & Htr & Hmiss & Hfrom).
  eexists. split; [exact Htr|]. split.
  - intros key Hin Hget. pose proof (Hmiss key Hin Hget) as Hd.
    destruct d as [|k d]; [destruct Hd|].
    eexists. split; [left; reflexivity|].
    apply dict_get_constant, Hd.
  - intros key (args & Hin & Hget). apply Hfrom.
    destruct d as [|k d]; [destruct Hin|].
    destruct Hin as [Heq|[]]. injection Heq as <-.
    apply (dict_get_constant key "deleted" (k :: d)). exact Hget.
Qed.

(** ** ReqManager.schedule on scenarios *)

(** C2, as stated, fails on scenario C: the manager holds [a1] and [b2],
    the answer has a due time for [a1] only; [schedule] returns, its
    only outside call is [schedule_maintenance], and [b2] is not
    reported as deleted. *)
Lemma schedule_missing_request_not_reported :
  let s := ReqManager.schedule parse_one_date (manager_a1_b2, world0) in
  fst s = Ok tt
  /\ In "b2" (map fst (ReqManager.requests manager_a1_b2))
  /\ ~ In "b2" (map fst (ReqManager.directory manager_a1_b2
                           (schedule_args manager_a1_b2)))
  /\ trace (snd (snd s))
     = [schedule_maintenance
          [("a1", (1800%Z, Some "run the script"));
           ("b2", (600%Z, Some "reboot for the new kernel"))]]
  /\ ~ reported_deleted "b2" (trace (snd (snd s))).
Proof.
  assert (Htrace :
            trace (snd (snd (ReqManager.schedule parse_one_date
                               (manager_a1_b2, world0))))
            = [schedule_maintenance
                 [("a1", (1800%Z, Some "run the script"));
                  ("b2", (600%Z, Some "reboot for the new kernel"))]])
    by (vm_compute; reflexivity).
  cbn zeta. split; [vm_compute; reflexivity|].
  split; [simpl; auto|].
  split; [simpl; intros [H|[]]; discriminate|].
  split; [exact Htrace|].
  intros (args & Hin & _). rewrite Htrace in Hin.
  destruct Hin as [H|[]]. discriminate.
Qed.

Lemma schedule_reports_ids_unknown_locally_witness :
  exists calls,
    trace (snd (snd (ReqManager.schedule parse_one_date (manager_a1, world0))))
    = trace world0 ++ schedule_maintenance (schedule_args manager_a1) :: calls
    /\ (forall key,
           In key ["a1"; "123abc"] ->
           dict_get key (ReqManager.requests manager_a1) = None ->
           reported_deleted key calls)
    /\ (forall key, reported_deleted key calls -> In key ["a1"; "123abc"]).
Proof.
  exact (schedule_reports_ids_unknown_locally parse_one_date manager_a1
           (fst (snd (ReqManager.schedule parse_one_date (manager_a1, world0))))
           world0
           (snd (snd (ReqManager.schedule parse_one_date (manager_a1, world0))))
           eq_refl).
Defined.

Example schedule_unknown_id_reported :
  trace (snd (snd (ReqManager.schedule parse_one_date (manager_a1, world0))))
  = [schedule_maintenance [("a1", (1800%Z, Some "run the script"))];
     end_maintenance [("123abc", "deleted")]].
Proof. vm_compute. reflexivity. Qed.

(** ** ReqManager.execute *)

Lemma dict_get_set_other {V} (key k : string) (v : V) (d : dict V) :
  k <> key -> dict_get k (dict_set key v d) = dict_get k d.
Proof.
  intros Hne. induction d as [|[k0 x] d IH]; simpl.
  - destruct (String.eqb_spec key k); [congruence|reflexivity].
  - destruct (String.eqb_spec k0 key) as [->|Hk0]; simpl.
    + destruct (String.eqb_spec key k); [congruence|reflexivity].
    + destruct (k0 =? k)%string; [reflexivity|exact IH].
Qed.

Lemma opt_reboot_eqb_eq (a b : option RebootType) :
  opt_reboot_eqb a b = true <-> a = b.
Proof.
  destruct a as [[|]|], b as [[|]|]; simpl; split; congruence.
Qed.

Lemma reboot_set_add_In (x k : option RebootType) s :
  In k (set_add opt_reboot_eqb x s) <-> k = x \/ In k s.
Proof.
  unfold set_add.
  destruct (existsb (opt_reboot_eqb x) s) eqn:E.
  - split; [auto|]. intros [->|H]; [|assumption].
    apply existsb_exists in E. destruct E as (y & Hy & Heq).
    apply opt_reboot_eqb_eq in Heq. subst y. assumption.
  - rewrite in_app_iff. simpl. split.
    + intros [H|[H|[]]]; auto.
    + intros [H|H]; auto.
Qed.

Lemma reboot_requested (x : option RebootType) s :
  existsb (opt_reboot_eqb x) s = true <-> In x s.
Proof.
  rewrite existsb_exists. split.
  - intros (y & Hy & Heq). apply opt_reboot_eqb_eq in Heq. congruence.
  - intros H. exists x. split; [assumption|]. apply opt_reboot_eqb_eq.
    reflexivity.
Qed.

Lemma execute_one_step evaluate_state run acc key (m : ReqManager.t)
    (w : World Request.t) r :
  dict_get key (ReqManager.requests m) = Some r ->
  let result := Request.execute evaluate_state run (r, w) in
  let r' := fst (snd result) in
  ReqManager.execute_one evaluate_state run acc key (m, w)
  = (match fst result with
     | Ok _ =>
         Ok (if State.eqb (Request.state r') State.success
             then set_add opt_reboot_eqb
                    (Activity.reboot_needed (Request.activity r')) acc
             else acc)
     | Raise e => Raise e
     end,
     (ReqManager.set_requests (dict_set key r' (ReqManager.requests m)) m,
      snd (snd result))).
Proof.
  intros Hget. cbn zeta.
  unfold ReqManager.execute_one, bind, ReqManager.on_request,
    ReqManager.getitem, self_get.
  cbn [fst snd]. rewrite Hget.
  destruct (Request.execute evaluate_state run (r, w)) as [[u|e] [r' w']];
    cbn [fst snd]; [|reflexivity].
  unfold bind. cbn [fst snd ReqManager.requests ReqManager.set_requests].
  rewrite dict_get_set_same. unfold ret.
  destruct (State.eqb (Request.state r') State.success); reflexivity.
Qed.

(** When the loop of [execute] returns, the requests outside the batch
    are held as they were, and the set it returns holds the reboot
    requirements of exactly the requests of the batch that are then in
    state [success]. *)
Lemma execute_requests_loop evaluate_state run (keys : list string) :
  forall acc (s : ReqManager.t * World Request.t) requested s',
    NoDup keys ->
    (forall k, In k keys -> dict_get k (ReqManager.requests (fst s)) <> None) ->
    for_fold keys acc (ReqManager.execute_one evaluate_state run) s
    = (Ok requested, s') ->
    (forall k,
        ~ In k keys ->
        dict_get k (ReqManager.requests (fst s'))
        = dict_get k (ReqManager.requests (fst s)))
    /\ (forall x,
           In x requested
           <-> In x acc
               \/ exists key, In key keys /\ succeeded_with x key (fst s')).
Proof.
  induction keys as [|key keys IH]; intros acc [m w] requested s' Hnd Hheld H.
  - injection H as <- <-. split; [auto|].
    intros x. split; [auto|]. intros [H|(key & [] & _)]. exact H.
  - inversion Hnd as [|? ? Hnotin Hnd']; subst.
    destruct (dict_get key (ReqManager.requests m)) as [r|] eqn:Hget;
      [|exfalso; apply (Hheld key); [left; reflexivity|exact Hget]].
    cbn [for_fold] in H. apply bind_Ok in H.
    destruct H as (acc1 & s1 & Hstep & Hloop).
    rewrite (execute_one_step evaluate_state run acc key m w r Hget) in Hstep.
    set (r' := fst (snd (Request.execute evaluate_state run (r, w)))) in *.
    destruct (fst (Request.execute evaluate_state run (r, w))) as [u|e];
      [|discriminate].
    injection Hstep as <- <-.
    set (acc1 := if State.eqb (Request.state r') State.success
                 then set_add opt_reboot_eqb
                        (Activity.reboot_needed (Request.activity r')) acc
                 else acc) in *.
    set (m1 := ReqManager.set_requests
                 (dict_set key r' (ReqManager.requests m)) m) in *.
    set (w1 := snd (snd (Request.execute evaluate_state run (r, w)))) in *.
    assert (Hother : forall k, k <> key ->
               dict_get k (ReqManager.requests m1)
               = dict_get k (ReqManager.requests m)).
    { intros k Hk. unfold m1. simpl. apply dict_get_set_other, Hk. }
    assert (Hheld1 : forall k, In k keys ->
               dict_get k (ReqManager.requests (fst (m1, w1))) <> None).
    { intros k Hk. cbn [fst]. rewrite Hother.
      - apply Hheld. right. exact Hk.
      - intros ->. contradiction. }
    destruct (IH acc1 (m1, w1) requested s' Hnd' Hheld1 Hloop) as (Hkeep & HS).
    cbn [fst] in *.
    assert (Hkey : dict_get key (ReqManager.requests (fst s')) = Some r').
    { rewrite (Hkeep key Hnotin). unfold m1. simpl. apply dict_get_set_same. }
    split.
    + intros k Hk. rewrite Hkeep by (intros Hin; apply Hk; right; exact Hin).
      apply Hother. intros ->. apply Hk. left. reflexivity.
    + intros x. rewrite HS. split.
      * intros [Hacc|(key0 & Hin & Hs)].
        -- unfold acc1 in Hacc.
           destruct (State.eqb (Request.state r') State.success) eqn:Est;
             [|left; exact Hacc].
           apply reboot_set_add_In in Hacc. destruct Hacc as [->|Hacc];
             [|left; exact Hacc].
           right. exists key. split; [left; reflexivity|].
           exists r'. repeat split; [exact Hkey|].
           destruct (Request.state r'); simpl in Est; congruence.
        -- right. exists key0. split; [right; exact Hin|exact Hs].
      * intros [Hacc|(key0 & [<-|Hin] & Hs)].
        -- left. unfold acc1.
           destruct (State.eqb (Request.state r') State.success);
             [apply reboot_set_add_In; right|]; exact Hacc.
        -- left. destruct Hs as (r0 & Hr0 & Hst & Hx).
           rewrite Hkey in Hr0. injection Hr0 as <-.
           unfold acc1. rewrite Hst. cbn [State.eqb].
           apply reboot_set_add_In. left. symmetry. exact Hx.
        -- right. exists key0. split; assumption.
Qed.


Lemma keeps_self_self_get {X W A} (f : X -> A) :
  keeps_self (@self_get X W A f).
Proof. intros s. reflexivity. Qed.

Lemma keeps_self_for_each {X W A} (body : A -> M (X * W) unit) xs :
  (forall x, keeps_self (body x)) -> keeps_self (for_each xs body).
Proof.
  intros Hb. induction xs as [|x xs IH]; simpl.
  - apply keeps_self_ret.
  - apply keeps_self_bind; [apply Hb|]. intros _. exact IH.
Qed.

Lemma enter_maintenance_keeps_self :
  keeps_self ReqManager.enter_maintenance.
Proof.
  unfold ReqManager.enter_maintenance.
  apply keeps_self_bind; [apply keeps_self_in_world|]. intros _.
  apply keeps_self_bind.
  - unfold ReqManager.config_items.
    apply keeps_self_bind; [apply keeps_self_self_get|]. intros c.
    destruct (dict_get _ c); [apply keeps_self_ret|apply keeps_self_raise].
  - intros items. apply keeps_self_for_each. intros item.
    destruct (is_blank (snd item));
      [apply keeps_self_ret|apply keeps_self_in_world].
Qed.

Lemma refresh_all_keys (rs : dict Request.t) :
  forall w, map fst (fst (refresh_all rs w)) = map fst rs.
Proof.
  induction rs as [|[key r] rs IH]; intros w; simpl; [reflexivity|].
  rewrite IH. reflexivity.
Qed.

Lemma NoDup_filter_keys {V} (p : string * V -> bool) (l : dict V) :
  NoDup (map fst l) -> NoDup (map fst (filter p l)).
Proof.
  induction l as [|kv l IH]; simpl; intros Hnd; [constructor|].
  inversion Hnd as [|? ? Hnotin Hnd']; subst.
  destruct (p kv); simpl; [|auto].
  constructor; [|auto]. intros Hin. apply Hnotin.
  apply in_map_iff in Hin. destruct Hin as (x & Hx & Hin).
  apply filter_In in Hin. apply in_map_iff. exists x. tauto.
Qed.

Lemma NoDup_two_filters {V} (p q : string * V -> bool) (l : dict V) :
  (forall x, p x = true -> q x = false) ->
  NoDup (map fst l) ->
  NoDup (map fst (filter p l ++ filter q l)).
Proof.
  intros Hpq Hnd. rewrite map_app.
  apply NoDup_app.
  - apply NoDup_filter_keys, Hnd.
  - apply NoDup_filter_keys, Hnd.
  - intros k Hp Hq.
    apply in_map_iff in Hp. destruct Hp as ([k1 v1] & <- & Hp).
    apply in_map_iff in Hq. destruct Hq as ([k2 v2] & Heq & Hq).
    simpl in Heq. subst k2.
    apply filter_In in Hp. destruct Hp as [Hin1 Hp].
    apply filter_In in Hq. destruct Hq as [Hin2 Hq].
    assert (v1 = v2).
    { clear - Hnd Hin1 Hin2. induction l as [|[k v] l IH]; [destruct Hin1|].
      simpl in Hnd. inversion Hnd as [|? ? Hnotin Hnd']; subst.
      destruct Hin1 as [E1|Hin1], Hin2 as [E2|Hin2].
      - congruence.
      - injection E1 as -> ->. exfalso. apply Hnotin.
        apply in_map_iff. exists (k1, v2). auto.
      - injection E2 as -> ->. exfalso. apply Hnotin.
        apply in_map_iff. exists (k1, v1). auto.
      - auto. }
    subst v2. rewrite (Hpq _ Hp) in Hq. discriminate.
Qed.

Lemma running_is_not_due (kr : string * Request.t) :
  is_running kr = true -> is_due_or_tempfail kr = false.
Proof.
  unfold is_running, is_due_or_tempfail.
  destruct (Request.state (snd kr)); simpl; congruence.
Qed.

(** The requests chosen by [execute] are distinct requests that the
    manager holds. *)
Lemma runnable_requests_held (run_all_now : bool) (m m1 : ReqManager.t)
    (w w1 : World Request.t) keys :
  NoDup (map fst (ReqManager.requests m)) ->
  Forall (fun kr => due_has_timezone (snd kr)) (ReqManager.requests m) ->
  ReqManager.runnable_requests run_all_now (m, w) = (Ok keys, (m1, w1)) ->
  NoDup keys
  /\ forall k, In k keys -> dict_get k (ReqManager.requests m1) <> None.
Proof.
  intros Hnd Hwf. unfold ReqManager.runnable_requests.
  destruct run_all_now.
  - unfold self_get. cbn [fst]. intros H. injection H as <- <- <-.
    split; [assumption|]. intros k Hk Hnone.
    apply dict_get_None in Hnone. contradiction.
  - destruct (runnable_returns m w Hnd Hwf) as (later & Hr & Hp & _).
    unfold bind. rewrite Hr. unfold ret. intros H. injection H as <- <- <-.
    set (refreshed := fst (refresh_all (ReqManager.requests m) w)) in *.
    assert (Hk : NoDup (map fst refreshed)).
    { unfold refreshed. rewrite refresh_all_keys. exact Hnd. }
    split.
    + apply (Permutation_NoDup
               (l := map fst (filter is_running refreshed
                              ++ filter is_due_or_tempfail refreshed))).
      * apply Permutation_map, Permutation_app_head. symmetry. exact Hp.
      * apply NoDup_two_filters; [apply running_is_not_due|exact Hk].
    + intros k Hin Hnone. simpl in Hnone.
      apply dict_get_None in Hnone. apply Hnone.
      apply in_map_iff in Hin. destruct Hin as (kr & <- & Hin).
      apply in_map. apply in_app_or in Hin. destruct Hin as [Hin|Hin].
      * apply filter_In in Hin. tauto.
      * apply (Permutation_in _ Hp) in Hin. apply filter_In in Hin. tauto.
Qed.

(** C6: for a batch that [execute] runs (the lock is held, some request
    was chosen, the node went into maintenance, and the loop over the
    chosen requests returned), the set the loop returns holds the reboot
    requirements of exactly the chosen requests whose state after their
    execution is [success].  With a cold reboot in the set what is left
    of [execute] is the poweroff, also next to a warm one; otherwise,
    with a warm reboot in the set, it is the reboot; with neither it is
    [leave_maintenance]. *)
Theorem execute_reboots_or_leaves_maintenance :
  forall evaluate_state run (run_all_now : bool)
         (m : ReqManager.t) (w : World Request.t) keys s1 s2 requested s3,
    ReqManager.lockfile m = true ->
    NoDup (map fst (ReqManager.requests m)) ->
    Forall (fun kr => due_has_timezone (snd kr)) (ReqManager.requests m) ->
    ReqManager.runnable_requests run_all_now (m, w) = (Ok keys, s1) ->
    keys <> [] ->
    ReqManager.enter_maintenance s1 = (Ok tt, s2) ->
    ReqManager.execute_requests evaluate_state run keys s2
    = (Ok requested, s3) ->
    (forall x,
        In x requested
        <-> exists key, In key keys /\ succeeded_with x key (fst s3))
    /\ (In (Some COLD) requested ->
        ReqManager.execute evaluate_state run run_all_now (m, w)
        = in_world (subprocess_run_checked "poweroff") s3)
    /\ (~ In (Some COLD) requested -> In (Some WARM) requested ->
        ReqManager.execute evaluate_state run run_all_now (m, w)
        = in_world (subprocess_run_checked "reboot") s3)
    /\ (~ In (Some COLD) requested -> ~ In (Some WARM) requested ->
        ReqManager.execute evaluate_state run run_all_now (m, w)
        = ReqManager.leave_maintenance s3).
Proof.
  intros evaluate_state run run_all_now m w keys [m1 w1] s2 requested s3
    Hlock Hnd Hwf Hkeys Hne Henter Hloop.
  destruct (runnable_requests_held run_all_now m m1 w w1 keys Hnd Hwf Hkeys)
    as [Hdistinct Hheld].
  pose proof (enter_maintenance_keeps_self (m1, w1)) as Hm2.
  rewrite Henter in Hm2. cbn [fst snd] in Hm2.
  assert (Hheld2 : forall k, In k keys ->
             dict_get k (ReqManager.requests (fst s2)) <> None).
  { rewrite Hm2. exact Hheld. }
  destruct (execute_requests_loop evaluate_state run keys [] s2 requested s3
              Hdistinct Hheld2 Hloop) as (_ & Hreq).
  split.
  - intros x. rewrite Hreq. split; [intros [[]|H]; exact H|auto].
  - assert (Hexec :
      ReqManager.execute evaluate_state run run_all_now (m, w)
      = bind (ReqManager.reboot requested)
          (fun rebooted =>
             if negb rebooted then ReqManager.leave_maintenance else ret tt)
          s3).
    { unfold ReqManager.execute, ReqManager.require_lock.
      unfold bind at 1, self_get at 1. cbn [fst snd]. rewrite Hlock.
      unfold bind at 1. rewrite Hkeys.
      destruct keys as [|key keys]; [contradiction|].
      unfold bind at 1. rewrite Henter.
      unfold bind at 1. rewrite Hloop. reflexivity. }
    rewrite Hexec. unfold ReqManager.reboot, bind.
    repeat split.
    + intros Hcold. apply reboot_requested in Hcold. rewrite Hcold.
      destruct (in_world (subprocess_run_checked "poweroff") s3)
        as [[[]|e] s4]; reflexivity.
    + intros Hcold Hwarm.
      destruct (existsb (opt_reboot_eqb (Some COLD)) requested) eqn:Ec;
        [apply reboot_requested in Ec; contradiction|].
      apply reboot_requested in Hwarm. rewrite Hwarm.
      destruct (in_world (subprocess_run_checked "reboot") s3)
        as [[[]|e] s4]; reflexivity.
    + intros Hcold Hwarm.
      destruct (existsb (opt_reboot_eqb (Some COLD)) requested) eqn:Ec;
        [apply reboot_requested in Ec; contradiction|].
      destruct (existsb (opt_reboot_eqb (Some WARM)) requested) eqn:Ew;
        [apply reboot_requested in Ew; contradiction|].
      reflexivity.
Qed.

(** ** The properties on the scenarios *)

Lemma update_state_retrylimit_witness :
  (exists w',
      Request.update_state (request_worn, world0)
      = (Ok State.retrylimit,
         (Request.set_state State.retrylimit request_worn, w')))
  /\ Request.update_state (request_spent, world0)
     = (Ok State.retrylimit, (request_spent, world0))
  /\ Request.state
       (fst (snd (Request.execute evaluate_state_by_exit_code (run_exits 0)
                    (request_spent, world0))))
     = State.success.
Proof.
  pose proof (update_state_retrylimit request_worn world0) as (H1 & H2 & _);
    [simpl; lia|exact I|].
  pose proof (update_state_retrylimit request_spent world0) as (_ & _ & H3);
    [simpl; lia|exact I|].
  split; [exact H1|]. split.
  - exact (H2 request_spent world0 eq_refl).
  - exact (H3 evaluate_state_by_exit_code (run_exits 0) _ world0 _
             eq_refl eq_refl).
Defined.

(** C1, as stated, fails on two counts.  A deleted request past the
    retry limit is moved to [retrylimit] like any other.  And
    [retrylimit] is not terminal: [execute] with [run_all_now] runs every
    request held, and the request [a1], in [retrylimit] after 49
    attempts, is in state [success] afterwards, with 50 attempts. *)
Lemma retrylimit_not_terminal :
  fst (Request.update_state
         (Request.set_state State.deleted request_worn, world0))
  = Ok State.retrylimit
  /\ Request.state request_spent = State.retrylimit
  /\ List.length (Request.attempts request_spent) = 49%nat
  /\ map (fun kr => (Request.state (snd kr),
                     List.length (Request.attempts (snd kr))))
       (ReqManager.requests
          (fst (snd (ReqManager.execute evaluate_state_by_exit_code
                       (run_exits 0) true (manager_spent, world0)))))
     = [(State.success, 50%nat)].
Proof. vm_compute. repeat split. Qed.

Lemma update_due_naive_not_atomic_witness :
  Request.update_due parse_one_date (Request.due_datetime naive_noon)
    (request_a1, world0)
  = (Raise (TypeError "next_due lacks time zone"),
     (Request.set_next_due (Some naive_noon) request_a1, world0))
  /\ opt_datetime_eq (Some naive_noon) (Request.next_due request_a1) = false.
Proof.
  apply (update_due_naive_not_atomic parse_one_date request_a1 world0
           naive_noon).
  - reflexivity.
  - exact I.
Defined.

Lemma request_eq_and_order_witness :
  Request.lt request_b2_due request_a1 = Ok true
  /\ Request.lt request_a1 request_b2_due = Ok false.
Proof.
  exact (proj1 (proj2 (proj2 (request_eq_and_order request_b2_due request_a1)))
           (mk_datetime 400%Z UTC) eq_refl eq_refl).
Defined.

Lemma runnable_yields_running_then_sorted_witness :
  exists later,
    ReqManager.runnable (manager_three, world0)
    = (Ok (filter is_running
             (fst (refresh_all (ReqManager.requests manager_three) world0))
           ++ later),
       (ReqManager.set_requests
          (fst (refresh_all (ReqManager.requests manager_three) world0))
          manager_three,
        snd (refresh_all (ReqManager.requests manager_three) world0)))
    /\ Permutation later
         (filter is_due_or_tempfail
            (fst (refresh_all (ReqManager.requests manager_three) world0)))
    /\ StronglySorted (not_after ReqManager.request_lt) later.
Proof.
  apply (runnable_yields_running_then_sorted manager_three world0).
  - simpl. repeat constructor; simpl; intuition discriminate.
  - repeat constructor.
Defined.

Example runnable_order :
  map fst (match fst (ReqManager.runnable (manager_three, world0)) with
           | Ok l => l
           | Raise _ => []
           end)
  = ["c3"; "b2"; "a1"].
Proof. vm_compute. reflexivity. Qed.

Lemma add_skips_same_comment_or_adds_witness :
  ReqManager.add
    (Some (Request.mk "d4" script 60%Z (Some "run the script") None None None
             None State.pending []))
    true (manager_a1, world0)
  = (Ok None, (manager_a1, world0)).
Proof.
  apply (proj1 (add_skips_same_comment_or_adds manager_a1 world0
                  (Request.mk "d4" script 60%Z (Some "run the script") None
                     None None None State.pending []))
           request_a1).
  - reflexivity.
  - simpl. auto.
  - reflexivity.
Defined.

Lemma postpone_doubles_estimate_and_clears_due_witness :
  exists m' w',
    ReqManager.postpone parse_one_date (manager_postponed, world0)
    = (Ok tt, (m', w'))
    /\ trace w' = [postpone_maintenance [("a1", 3600%Z)]]
    /\ (forall key r,
           In (key, r) (ReqManager.requests manager_postponed) ->
           Request.state r = State.postpone ->
           exists r',
             In (key, r') (ReqManager.requests m')
             /\ Request.next_due r' = None
             /\ In (saved_file r') (disk w'))
    /\ (forall key r,
           In (key, r) (ReqManager.requests manager_postponed) ->
           Request.state r <> State.postpone ->
           In (key, r) (ReqManager.requests m')).
Proof.
  apply (postpone_doubles_estimate_and_clears_due parse_one_date
           manager_postponed world0).
  - reflexivity.
  - split.
    + simpl. repeat constructor; simpl; intuition discriminate.
    + repeat constructor.
  - reflexivity.
  - repeat constructor; simpl; try discriminate.
    intros _. eexists. split; reflexivity.
Defined.

Lemma execute_reboots_or_leaves_maintenance_witness :
  (forall x,
      In x [Some COLD; Some WARM]
      <-> exists key,
            In key ["c2"; "w1"]
            /\ succeeded_with x key (fst executed_cold_warm))
  /\ ReqManager.execute evaluate_state_by_exit_code (run_exits 0) false
       (manager_cold_warm, world0)
     = in_world (subprocess_run_checked "poweroff") executed_cold_warm.
Proof.
  pose proof (execute_reboots_or_leaves_maintenance
                evaluate_state_by_exit_code (run_exits 0) false
                manager_cold_warm world0 ["c2"; "w1"]
                chosen_cold_warm entered_cold_warm
                [Some COLD; Some WARM] executed_cold_warm) as H.
  destruct H as (Hset & Hcold & _).
  - reflexivity.
  - simpl. repeat constructor; simpl; intuition discriminate.
  - repeat constructor.
  - vm_compute. reflexivity.
  - discriminate.
  - vm_compute. reflexivity.
  - vm_compute. reflexivity.
  - split; [exact Hset|]. apply Hcold. left. reflexivity.
Defined.

Example execute_cold_and_warm :
  let s := ReqManager.execute evaluate_state_by_exit_code (run_exits 0) false
             (manager_cold_warm, world0) in
  fst s = Ok tt
  /\ trace (snd (snd s))
     = [mark_node_service_status false; subprocess_run "poweroff"]
  /\ map (fun kr => Request.state (snd kr)) (ReqManager.requests (fst (snd s)))
     = [State.success; State.success].
Proof. vm_compute. repeat split. Qed.

Example execute_nothing_to_reboot :
  trace (snd (snd (ReqManager.execute evaluate_state_by_exit_code (run_exits 75)
                     false (manager_cold_warm, world0))))
  = [mark_node_service_status false; mark_node_service_status true].
Proof. vm_compute. reflexivity. Qed.

Example execute_all_now_runs_pending :
  map (fun kr => Request.state (snd kr))
    (ReqManager.requests
       (fst (snd (ReqManager.execute evaluate_state_by_exit_code (run_exits 0)
                    true (manager_a1_b2, world0)))))
  = [State.success; State.success].
Proof. vm_compute. reflexivity. Qed.

(** * Further properties *)

(** ** Request.update_state and Request.update_due *)

Lemma set_state_same (r : Request.t) : Request.set_state (Request.state r) r = r.
Proof. destruct r; reflexivity. Qed.

Lemma update_state_only_state :
  forall (r : Request.t) (w : Request.W),
    let s := snd (Request.update_state (r, w)) in
    (exists st, fst s = Request.set_state st r)
    /\ faults (snd s) = faults w
    /\ disk (snd s) = disk w
    /\ trace (snd s) = trace w.
Proof.
  intros r w. unfold Request.update_state. run_monad.
  destruct (State.eqb (Request.state r) State.pending
            || State.eqb (Request.state r) State.postpone); simpl.
  - destruct (Request.next_due r) as [d|]; simpl.
    + unfold datetime_ge; simpl. destruct (aware d); simpl.
      * destruct (instant d <=? now w + hd 0 (ticks w))%Z; simpl;
          destruct (Request.MAX_RETRIES <? List.length (Request.attempts r))%nat;
          simpl; repeat split; try (eexists; reflexivity).
        exists (Request.state r). symmetry. apply set_state_same.
      * repeat split. exists (Request.state r). symmetry.
        apply set_state_same.
    + destruct (Request.MAX_RETRIES <? List.length (Request.attempts r))%nat;
        simpl; repeat split; try (eexists; reflexivity).
      exists (Request.state r). symmetry. apply set_state_same.
  - destruct (Request.MAX_RETRIES <? List.length (Request.attempts r))%nat;
      simpl; repeat split; try (eexists; reflexivity).
    exists (Request.state r). symmetry. apply set_state_same.
Qed.

(** X1: whatever [update_state] does, also when it raises, it changes
    nothing of the request but its state, and nothing of the world but
    the clock. *)
Theorem update_state_changes_state_only :
  forall (r : Request.t) (w : Request.W),
    let s := snd (Request.update_state (r, w)) in
    (exists st, fst s = Request.set_state st r)
    /\ faults (snd s) = faults w
    /\ disk (snd s) = disk w
    /\ trace (snd s) = trace w.
Proof. exact update_state_only_state. Qed.

Lemma update_state_up_to_limit :
  forall (r : Request.t) (w : Request.W),
    (List.length (Request.attempts r) <= 48)%nat ->
    (Request.state r <> State.pending -> Request.state r <> State.postpone ->
     Request.update_state (r, w) = (Ok (Request.state r), (r, w)))
    /\ (Request.next_due r = None ->
        Request.update_state (r, w) = (Ok (Request.state r), (r, w)))
    /\ (forall d,
           Request.state r = State.pending \/ Request.state r = State.postpone ->
           Request.next_due r = Some d ->
           aware d = true ->
           let st := if (instant d <=? now w + hd 0 (ticks w))%Z
                     then State.due else Request.state r in
           Request.update_state (r, w)
           = (Ok st, (Request.set_state st r, after_reading w))).
Proof.
  intros r w Hlen.
  assert (Hl : (Request.MAX_RETRIES <? List.length (Request.attempts r))%nat
               = false) by (apply Nat.ltb_ge; exact Hlen).
  split; [|split].
  - intros Hp Hq. unfold Request.update_state. run_monad.
    destruct (Request.state r) eqn:Est; try congruence; simpl;
      rewrite Hl; simpl; rewrite Est; reflexivity.
  - intros Hd. unfold Request.update_state. run_monad. rewrite Hd.
    destruct (State.eqb (Request.state r) State.pending
              || State.eqb (Request.state r) State.postpone); simpl;
      rewrite Hl; reflexivity.
  - intros d Hst Hd Ha. cbn zeta.
    unfold Request.update_state. run_monad. rewrite Hd.
    assert (Hc : State.eqb (Request.state r) State.pending
                 || State.eqb (Request.state r) State.postpone = true)
      by (destruct Hst as [-> | ->]; reflexivity).
    rewrite Hc. simpl. unfold datetime_ge. simpl. rewrite Ha. simpl.
    unfold after_reading.
    destruct (instant d <=? now w + hd 0 (ticks w))%Z; simpl;
      rewrite Hl; simpl; [reflexivity|].
    rewrite set_state_same. reflexivity.
Qed.

(** X2: up to the retry limit (48 attempts included), [update_state]
    leaves a request alone whose state is neither [pending] nor
    [postpone], or that has no due date; a pending or postponed request
    with a due date becomes [due] exactly when the date is not after the
    reading of the clock. *)
Theorem update_state_within_limit :
  forall (r : Request.t) (w : Request.W),
    (List.length (Request.attempts r) <= 48)%nat ->
    (Request.state r <> State.pending -> Request.state r <> State.postpone ->
     Request.update_state (r, w) = (Ok (Request.state r), (r, w)))
    /\ (Request.next_due r = None ->
        Request.update_state (r, w) = (Ok (Request.state r), (r, w)))
    /\ (forall d,
           Request.state r = State.pending \/ Request.state r = State.postpone ->
           Request.next_due r = Some d ->
           aware d = true ->
           let st := if (instant d <=? now w + hd 0 (ticks w))%Z
                     then State.due else Request.state r in
           Request.update_state (r, w)
           = (Ok st, (Request.set_state st r, after_reading w))).
Proof. exact update_state_up_to_limit. Qed.

(** X3: a literal that [iso8601.parse_date] rejects makes [update_due]
    raise the parser's exception with the request and the world as they
    were; an empty literal clears the due date as [None] does. *)
Theorem update_due_rejected_literal :
  forall parse_date (r : Request.t) (w : Request.W) (s : string) (e : Exn),
    s <> "" ->
    parse_date s = Raise e ->
    Request.update_due parse_date (Request.due_literal s) (r, w)
    = (Raise e, (r, w))
    /\ Request.update_due parse_date (Request.due_literal "") (r, w)
       = Request.update_due parse_date Request.due_None (r, w).
Proof.
  intros parse_date r w s e Hs Hp. split; [|reflexivity].
  unfold Request.update_due. run_monad.
  apply String.eqb_neq in Hs. rewrite Hs, Hp. reflexivity.
Qed.

(** X4: given a datetime with a time zone, [update_due] stores it and
    refreshes the state: what it leaves is what [update_state] makes of
    the request with the new due date, so that a pending or postponed
    request within the retry limit becomes [due] when the new date is
    not after the reading of the clock.  It returns whether the due
    date changed: [False] exactly when the request had a due date at
    the same instant. *)
Theorem update_due_reports_change :
  forall parse_date (r : Request.t) (w : Request.W) (d : datetime),
    aware d = true ->
    due_has_timezone r ->
    let result :=
      Request.update_due parse_date (Request.due_datetime d) (r, w) in
    result
    = (Ok (negb (opt_datetime_eq (Some d) (Request.next_due r))),
       snd (Request.update_state (Request.set_next_due (Some d) r, w)))
    /\ Request.next_due (fst (snd result)) = Some d
    /\ (opt_datetime_eq (Some d) (Request.next_due r) = true
        <-> exists d0,
              Request.next_due r = Some d0 /\ instant d0 = instant d)
    /\ (Request.state r = State.pending \/ Request.state r = State.postpone ->
        (List.length (Request.attempts r) <= 48)%nat ->
        (instant d <= now w + hd 0 (ticks w))%Z ->
        Request.state (fst (snd result)) = State.due).
Proof.
  intros parse_date r w d Ha Htz. cbn zeta.
  assert (Htz' : due_has_timezone (Request.set_next_due (Some d) r))
    by exact Ha.
  destruct (update_state_returns _ w Htz') as (r' & w' & Hu & Hn).
  assert (Hres :
            Request.update_due parse_date (Request.due_datetime d) (r, w)
            = (Ok (negb (opt_datetime_eq (Some d) (Request.next_due r))),
               snd (Request.update_state
                      (Request.set_next_due (Some d) r, w)))).
  { unfold Request.update_due.
    rewrite (bind_returns _ _ (r, w) (Request.next_due r) (r, w))
      by reflexivity.
    rewrite (bind_returns _ _ (r, w) tt (Request.set_next_due (Some d) r, w))
      by reflexivity.
    rewrite (bind_returns _ _ (Request.set_next_due (Some d) r, w) (Some d)
               (Request.set_next_due (Some d) r, w)) by reflexivity.
    rewrite Ha. cbn [negb].
    rewrite (bind_returns _ _ (Request.set_next_due (Some d) r, w) tt
               (Request.set_next_due (Some d) r, w)) by reflexivity.
    rewrite (bind_returns _ _ _ _ _ Hu), Hu.
    unfold bind, self_get, ret. cbn [fst snd]. rewrite Hn. reflexivity. }
  rewrite Hres. cbn [fst snd].
  split; [reflexivity|]. split; [|split].
  - rewrite Hu. cbn [fst snd]. exact Hn.
  - unfold due_has_timezone in Htz.
    destruct (Request.next_due r) as [d0|]; simpl.
    + unfold datetime_eq. rewrite Ha, Htz. simpl.
      rewrite Z.eqb_eq. split.
      * intros H. exists d0. auto.
      * intros (d1 & Hd1 & Hi). injection Hd1 as <-. auto.
    + split; [discriminate|]. intros (d0 & Hd0 & _). discriminate.
  - intros Hst Hlen Hdue.
    destruct (update_state_up_to_limit (Request.set_next_due (Some d) r) w
                Hlen) as (_ & _ & Hdated).
    pose proof (Hdated d Hst eq_refl Ha) as Hd. cbn zeta in Hd.
    apply Z.leb_le in Hdue. rewrite Hdue in Hd. rewrite Hd. reflexivity.
Qed.

(** ** Time *)

(** X5: [ensure_timezone_present] returns [None] for [None] and
    otherwise a datetime with a time zone at the same reading; it leaves
    a datetime with a time zone as it is, applying it twice is applying
    it once, and what it returns can be compared with [utcnow()]. *)
Theorem ensure_timezone_present_normalizes :
  forall (dt : option datetime),
    match dt, ensure_timezone_present dt with
    | None, None => True
    | Some d, Some d' =>
        aware d' = true /\ instant d' = instant d
        /\ (aware d = true -> d' = d)
        /\ (aware d = false -> tzinfo d' = UTC)
        /\ forall w : World Request.t,
             exists b, bind utcnow (fun t => of_result (datetime_ge t d')) w
                       = (Ok b, snd (utcnow w))
    | _, _ => False
    end
    /\ ensure_timezone_present (ensure_timezone_present dt)
       = ensure_timezone_present dt.
Proof.
  intros [d|]; simpl; [|auto].
  destruct d as [i [z|]]; simpl; repeat split; try discriminate;
    intros w; eexists; reflexivity.
Qed.

(** ** The order of requests, continued *)

(** X6: on requests whose due dates carry a time zone [__lt__] is a
    strict order: no request is smaller than itself, the order is
    asymmetric and transitive, and two requests neither of which is
    smaller than the other have due dates at the same instant or have
    none and the same id. *)
Theorem lt_strict_order :
  forall a b c : Request.t,
    due_has_timezone a -> due_has_timezone b -> due_has_timezone c ->
    Request.lt a a = Ok false
    /\ (Request.lt a b = Ok true -> Request.lt b a = Ok false)
    /\ (Request.lt a b = Ok true -> Request.lt b c = Ok true ->
        Request.lt a c = Ok true)
    /\ (Request.lt a b = Ok false -> Request.lt b a = Ok false ->
        match Request.next_due a, Request.next_due b with
        | Some x, Some y => instant x = instant y
        | None, None => Request.id a = Request.id b
        | _, _ => False
        end).
Proof.
  intros a b c Ha Hb Hc. split; [|split; [|split]].
  - unfold Request.lt, datetime_lt.
    destruct (Request.next_due a) as [x|].
    + rewrite Bool.eqb_reflx, Z.ltb_irrefl. reflexivity.
    + unfold String.ltb.
      pose proof (String.compare_antisym (Request.id a) (Request.id a))
        as Has.
      destruct (String.compare (Request.id a) (Request.id a));
        simpl in Has; try discriminate; reflexivity.
  - apply lt_asym; assumption.
  - apply lt_trans; assumption.
  - unfold Request.lt, datetime_lt, due_has_timezone in *.
    destruct (Request.next_due a) as [x|], (Request.next_due b) as [y|];
      try discriminate.
    + rewrite Ha, Hb. simpl. intros H1 H2.
      injection H1 as H1. injection H2 as H2.
      apply Z.ltb_ge in H1, H2. lia.
    + unfold String.ltb. intros H1 H2.
      destruct (String.compare (Request.id a) (Request.id b)) eqn:E.
      * apply String.compare_eq_iff, E.
      * discriminate.
      * rewrite String.compare_antisym, E in H2. discriminate.
Qed.

Lemma lt_strict_order_witness :
  Request.lt request_b2_due request_b2_due = Ok false
  /\ (Request.lt request_b2_due request_a1 = Ok true ->
      Request.lt request_a1 request_b2_due = Ok false)
  /\ (Request.lt request_b2_due request_a1 = Ok true ->
      Request.lt request_a1 request_b2 = Ok true ->
      Request.lt request_b2_due request_b2 = Ok true)
  /\ (Request.lt request_b2_due request_a1 = Ok false ->
      Request.lt request_a1 request_b2_due = Ok false ->
      False).
Proof.
  exact (lt_strict_order request_b2_due request_a1 request_b2
           eq_refl I I).
Defined.

(** X7: [__lt__] raises, with the [TypeError] of the datetime
    comparison, exactly when both requests have a due date and one of
    the two dates has a time zone while the other has none. *)
Theorem lt_raises_on_mixed_due_dates :
  forall a b : Request.t,
    (exists e, Request.lt a b = Raise e)
    <-> exists x y,
          Request.next_due a = Some x /\ Request.next_due b = Some y
          /\ aware x <> aware y.
Proof.
  intros a b. unfold Request.lt, datetime_lt.
  destruct (Request.next_due a) as [x|], (Request.next_due b) as [y|].
  - destruct (Bool.eqb (aware x) (aware y)) eqn:E; split.
    + intros [e H]. discriminate.
    + intros (x' & y' & Hx & Hy & Hne). injection Hx as <-. injection Hy as <-.
      apply Bool.eqb_prop in E. contradiction.
    + intros _. exists x, y. repeat split.
      intros Heq. rewrite Heq, Bool.eqb_reflx in E. discriminate.
    + intros _. eexists; reflexivity.
  - split; [intros [e H]; discriminate|].
    intros (x' & y' & _ & Hy & _). discriminate.
  - split; [intros [e H]; discriminate|].
    intros (x' & y' & Hx & _). discriminate.
  - split; [intros [e H]; discriminate|].
    intros (x' & y' & Hx & _). discriminate.
Qed.

(** ** Attempt.record and Request.duration *)

Lemma record_returns :
  forall (activity : Activity.t) (self : Attempt.t) (w : World Request.t),
    exists recorded,
      Attempt.record activity self w = (Ok recorded, snd (utcnow w))
      /\ Attempt.finished recorded = Some (mk_datetime (now (snd (utcnow w))) UTC)
      /\ Attempt.started recorded = Attempt.started self
      /\ Attempt.stdout recorded = Activity.stdout activity
      /\ Attempt.stderr recorded = Activity.stderr activity
      /\ Attempt.returncode recorded = Activity.returncode activity
      /\ Attempt.duration recorded
         = if truthy_Z (Activity.duration activity)
           then Activity.duration activity
           else if truthy_Z (Attempt.duration self)
                then Attempt.duration self
                else Some (now (snd (utcnow w))
                           - instant (Attempt.started self))%Z.
Proof.
  intros activity self w. unfold Attempt.record, bind, utcnow, ret.
  cbn [fst snd now Attempt.duration].
  destruct (truthy_Z (Activity.duration activity)).
  - eexists. repeat split.
  - destruct (truthy_Z (Attempt.duration self)); eexists; repeat split.
Qed.

(** X8: [record] always returns; it copies the activity's output and
    return code, sets the finish time to the reading of the clock and
    keeps the start time.  Afterwards the attempt has a duration: the
    activity's when that is neither [None] nor zero, else the one the
    attempt already had when that is neither [None] nor zero, else the
    time from start to finish. *)
Theorem record_finalizes_attempt :
  forall (activity : Activity.t) (self : Attempt.t) (w : World Request.t),
    exists recorded,
      Attempt.record activity self w = (Ok recorded, snd (utcnow w))
      /\ Attempt.finished recorded = Some (mk_datetime (now (snd (utcnow w))) UTC)
      /\ Attempt.started recorded = Attempt.started self
      /\ Attempt.stdout recorded = Activity.stdout activity
      /\ Attempt.stderr recorded = Activity.stderr activity
      /\ Attempt.returncode recorded = Activity.returncode activity
      /\ Attempt.duration recorded
         = if truthy_Z (Activity.duration activity)
           then Activity.duration activity
           else if truthy_Z (Attempt.duration self)
                then Attempt.duration self
                else Some (now (snd (utcnow w))
                           - instant (Attempt.started self))%Z.
Proof. exact record_returns. Qed.

(** ** Request.execute, continued *)

Lemma fallible_no_faults {X} (e : Exn) (s : X * World Request.t) :
  faults (snd s) = [] -> in_world (fallible e) s = (Ok tt, s).
Proof.
  destruct s as [x w]. unfold in_world, fallible. cbn [fst snd].
  intros ->. reflexivity.
Qed.

Lemma cd_no_faults {X A} d (body : M (X * World Request.t) A) s :
  faults (snd s) = [] ->
  faults (snd (snd (body s))) = [] ->
  cd d body s = body s.
Proof.
  intros Hf Hb. unfold cd.
  rewrite (bind_returns _ _ _ tt s (fallible_no_faults _ s Hf)).
  unfold try_finally. destruct (body s) as [res s'].
  rewrite (fallible_no_faults _ s' Hb). reflexivity.
Qed.

(** [run()] and what the inner [try] of [execute] makes of it. *)
Lemma run_and_record run attempt (r : Request.t) (w : World Request.t) :
  raises_Exception_only run (Request.activity r) ->
  exists attempt' r2 w2,
    try_except Exception
      (Request.activity_run run ;;
       a <- self_get Request.activity ;;
       in_world (Attempt.record a attempt))
      (fun e => ret (Attempt.software_error e attempt)) (r, w)
    = (Ok attempt', (r2, w2))
    /\ faults w2 = faults w /\ disk w2 = disk w /\ trace w2 = trace w
    /\ Request.dir r2 = Request.dir r.
Proof.
  intros Hcaught.
  unfold try_except, bind, Request.activity_run, self_get, in_world.
  cbn [fst snd].
  destruct (run (Request.activity r)) as [a'|e a'] eqn:Hrun; cbn [fst snd].
  - destruct (record_returns
                (Request.activity (Request.set_activity a' r)) attempt w)
      as (rec & Hrec & _).
    rewrite Hrec. eexists; eexists; eexists. split; [reflexivity|].
    repeat split.
  - rewrite (Hcaught _ _ Hrun). unfold ret.
    eexists; eexists; eexists. split; [reflexivity|]. repeat split.
Qed.

Lemma execute_activity_no_faults evaluate_state run attempt
    (r : Request.t) (w : World Request.t) :
  has_dir r -> faults w = [] ->
  raises_Exception_only run (Request.activity r) ->
  exists r1 w1,
    Request.execute_activity evaluate_state run attempt (r, w)
    = (Ok tt, (r1, w1))
    /\ faults w1 = []
    /\ disk w1 = saved_file (Request.set_state State.running r) :: disk w
    /\ trace w1 = trace w
    /\ Request.dir r1 = Request.dir r.
Proof.
  intros Hdir Hf Hcaught.
  assert (Hdir1 : has_dir (Request.set_state State.running r)) by exact Hdir.
  set (w0 := mk_World (now w) (ticks w) []
               (saved_file (Request.set_state State.running r) :: disk w)
               (trace w)).
  destruct (run_and_record run attempt (Request.set_state State.running r) w0
              Hcaught)
    as (att & r2 & w2 & Hrun & Hf2 & Hd2 & Ht2 & Hdir2).
  unfold Request.execute_activity.
  rewrite (bind_returns _ _ (r, w) tt (Request.set_state State.running r, w))
    by reflexivity.
  rewrite (bind_returns _ _ _ tt _ (save_writes _ w Hdir1 Hf)).
  fold w0.
  rewrite (bind_returns _ _ (Request.set_state State.running r, w0)
             (Request.dir r) (Request.set_state State.running r, w0))
    by reflexivity.
  rewrite (bind_returns _ _ (Request.set_state State.running r, w0)
             att (r2, w2)).
  - unfold bind, self_set, self_get. cbn [fst snd].
    eexists; eexists. split; [reflexivity|].
    rewrite Hf2, Hd2, Ht2. repeat split. exact Hdir2.
  - rewrite cd_no_faults; [exact Hrun|reflexivity|].
    rewrite Hrun. exact Hf2.
Qed.

Lemma execute_writes_twice evaluate_state run (r : Request.t)
    (w : World Request.t) :
  has_dir r ->
  faults w = [] ->
  raises_Exception_only run (Request.activity r) ->
  let s := Request.execute evaluate_state run (r, w) in
  fst s = Ok tt
  /\ disk (snd (snd s))
     = saved_file (fst (snd s))
         :: saved_file (Request.set_state State.running r) :: disk w
  /\ exists attempt,
       Request.attempts (fst (snd s)) = Request.attempts r ++ [attempt].
Proof.
  intros Hdir Hf Hcaught. cbn zeta.
  destruct (execute_activity_no_faults evaluate_state run (new_attempt w) r
              (after_reading w) Hdir Hf Hcaught)
    as (r1 & w1 & Hbody & Hf1 & Hd1 & Ht1 & Hdir1).
  assert (Hhas : has_dir r1).
  { destruct Hdir as (d & Hd & Hne). exists d. rewrite Hdir1. auto. }
  assert (Hex : Request.execute evaluate_state run (r, w)
                = (Ok tt, (r1, mk_World (now w1) (ticks w1) []
                                 (saved_file r1 :: disk w1) (trace w1)))).
  { unfold Request.execute.
    rewrite (bind_returns _ _ (r, w) (new_attempt w) (r, after_reading w))
      by reflexivity.
    rewrite (bind_returns _ _ (r, after_reading w) tt (r1, w1))
      by (unfold try_except; rewrite Hbody; reflexivity).
    unfold try_except. rewrite (save_writes r1 w1 Hhas Hf1). reflexivity. }
  rewrite Hex. cbn [fst snd disk trace]. rewrite Hd1.
  repeat split.
  apply execute_activity_Ok in Hbody.
  destruct (run (Request.activity r)) as [a'|e a'].
  - destruct Hbody as (wr & wr' & rec & _ & ->). eexists. reflexivity.
  - subst r1. eexists. reflexivity.
Qed.

(** When [run()] raises what is no instance of [Exception], [execute]
    raises it: the request has been saved once, in state [running], and
    stays in that state, with the activity as [run()] left it. *)
Lemma execute_interrupted evaluate_state run (r : Request.t)
    (w : World Request.t) e a' :
  has_dir r ->
  faults w = [] ->
  run (Request.activity r) = Activity.Raised e a' ->
  Exception e = false ->
  Request.execute evaluate_state run (r, w)
  = (Raise e,
     (Request.set_activity a' (Request.set_state State.running r),
      with_file (saved_file (Request.set_state State.running r))
        (after_reading w))).
Proof.
  intros Hdir Hf Hrun He.
  assert (Hdir1 : has_dir (Request.set_state State.running r)) by exact Hdir.
  set (running := Request.set_state State.running r).
  set (w0 := with_file (saved_file running) (after_reading w)).
  assert (Hf0 : faults w0 = []) by exact Hf.
  assert (Hbody :
            Request.execute_activity evaluate_state run (new_attempt w)
              (r, after_reading w)
            = (Raise e, (Request.set_activity a' running, w0))).
  { unfold Request.execute_activity.
    rewrite (bind_returns _ _ (r, after_reading w) tt
               (running, after_reading w)) by reflexivity.
    rewrite (bind_returns _ _ (running, after_reading w) tt (running, w0)).
    2: { rewrite (save_writes running (after_reading w) Hdir1 Hf).
         rewrite with_file_no_faults by exact Hf. reflexivity. }
    rewrite (bind_returns _ _ (running, w0) (Request.dir running)
               (running, w0)) by reflexivity.
    assert (Hinner :
              try_except Exception
                (Request.activity_run run ;;
                 a <- self_get Request.activity ;;
                 in_world (Attempt.record a (new_attempt w)))
                (fun e0 => ret (Attempt.software_error e0 (new_attempt w)))
                (running, w0)
              = (Raise e, (Request.set_activity a' running, w0))).
    { unfold try_except, bind, Request.activity_run. cbn [fst snd].
      change (Request.activity running) with (Request.activity r).
      rewrite Hrun, He. reflexivity. }
    unfold bind at 1. rewrite cd_no_faults; [|exact Hf0|].
    - rewrite Hinner. reflexivity.
    - rewrite Hinner. exact Hf0. }
  unfold Request.execute.
  rewrite (bind_returns _ _ (r, w) (new_attempt w) (r, after_reading w))
    by reflexivity.
  unfold bind, try_except at 1. rewrite Hbody, He. reflexivity.
Qed.

(** X10: with a directory and a file system that does not fail.  When
    [run()] returns or raises an instance of [Exception], [execute]
    returns and has written the request twice: in state [running] and
    otherwise as it was, before the activity runs, and in the form it
    leaves it, at the end; the request has one more attempt.  When
    [run()] raises anything else, [execute] raises it: the request has
    been written once, it stays in state [running], and no attempt is
    recorded. *)
Theorem execute_saves_running_then_final :
  forall evaluate_state run (r : Request.t) (w : World Request.t),
    has_dir r ->
    faults w = [] ->
    let s := Request.execute evaluate_state run (r, w) in
    (raises_Exception_only run (Request.activity r) ->
     fst s = Ok tt
     /\ disk (snd (snd s))
        = saved_file (fst (snd s))
            :: saved_file (Request.set_state State.running r) :: disk w
     /\ exists attempt,
          Request.attempts (fst (snd s)) = Request.attempts r ++ [attempt])
    /\ (forall e a',
           run (Request.activity r) = Activity.Raised e a' ->
           Exception e = false ->
           s = (Raise e,
                (Request.set_activity a' (Request.set_state State.running r),
                 with_file (saved_file (Request.set_state State.running r))
                   (after_reading w)))).
Proof.
  intros evaluate_state run r w Hdir Hf. cbn zeta. split.
  - intros Hcaught. exact (execute_writes_twice _ _ r w Hdir Hf Hcaught).
  - intros e a' Hrun He. exact (execute_interrupted _ _ r w e a' Hdir Hf Hrun He).
Qed.

(** X11: a request without a directory is not executed: [execute]
    returns, the activity has not run, no attempt is recorded, nothing
    is written, and the state is [error]. *)
Theorem execute_without_directory :
  forall evaluate_state run (r : Request.t) (w : World Request.t),
    Request.dir r = None \/ Request.dir r = Some "" ->
    Request.execute evaluate_state run (r, w)
    = (Ok tt, (Request.set_state State.error r, after_reading w)).
Proof.
  intros evaluate_state run r w Hdir.
  destruct r as [i a est c d nd ls ad st atts]. cbn [Request.dir] in Hdir.
  destruct Hdir as [-> | ->]; reflexivity.
Qed.



Lemma update_state_within_limit_witness :
  Request.update_state (request_b2_due, world0)
  = (Ok State.due,
     (Request.set_state State.due request_b2_due, after_reading world0))
  /\ Request.update_state (request_b2, world0)
     = (Ok State.pending, (request_b2, world0)).
Proof.
  pose proof (update_state_within_limit request_b2_due world0)
    as (_ & _ & Hdue); [simpl; lia|].
  pose proof (update_state_within_limit request_b2 world0)
    as (_ & Hnone & _); [simpl; lia|].
  split.
  - exact (Hdue (mk_datetime 400%Z UTC) (or_introl eq_refl) eq_refl eq_refl).
  - exact (Hnone eq_refl).
Defined.

Lemma update_due_rejected_literal_witness :
  Request.update_due parse_one_date (Request.due_literal "tomorrow")
    (request_a1, world0)
  = (Raise (ParseError "tomorrow"), (request_a1, world0))
  /\ Request.update_due parse_one_date (Request.due_literal "")
       (request_a1, world0)
     = Request.update_due parse_one_date Request.due_None (request_a1, world0).
Proof.
  apply (update_due_rejected_literal parse_one_date request_a1 world0
           "tomorrow" (ParseError "tomorrow")).
  - discriminate.
  - reflexivity.
Defined.

Lemma update_due_reports_change_witness :
  Request.update_due parse_one_date
    (Request.due_datetime (mk_datetime 400%Z (Some 120%Z)))
    (request_b2_due, world0)
  = (Ok false,
     (Request.set_state State.due
        (Request.set_next_due (Some (mk_datetime 400%Z (Some 120%Z)))
           request_b2_due),
      after_reading world0))
  /\ Request.state
       (fst (snd (Request.update_due parse_one_date
                    (Request.due_datetime (mk_datetime 400%Z (Some 120%Z)))
                    (request_b2_due, world0))))
     = State.due.
Proof.
  pose proof (update_due_reports_change parse_one_date request_b2_due world0
                (mk_datetime 400%Z (Some 120%Z)) eq_refl eq_refl)
    as (Hres & _ & _ & Hdue).
  split.
  - exact Hres.
  - apply Hdue; [left; reflexivity|simpl; lia|simpl; lia].
Defined.

Lemma execute_saves_running_then_final_witness :
  (fst (Request.execute evaluate_state_by_exit_code run_raises
          (request_a1, world0)) = Ok tt
   /\ disk (snd (snd (Request.execute evaluate_state_by_exit_code run_raises
                        (request_a1, world0))))
      = saved_file (fst (snd (Request.execute evaluate_state_by_exit_code
                                run_raises (request_a1, world0))))
          :: saved_file (Request.set_state State.running request_a1)
          :: disk world0
   /\ exists attempt,
        Request.attempts
          (fst (snd (Request.execute evaluate_state_by_exit_code run_raises
                       (request_a1, world0))))
        = Request.attempts request_a1 ++ [attempt])
  /\ Request.execute evaluate_state_by_exit_code run_interrupted
       (request_a1, world0)
     = (Raise KeyboardInterrupt,
        (Request.set_state State.running request_a1,
         with_file (saved_file (Request.set_state State.running request_a1))
           (after_reading world0))).
Proof.
  assert (Hdir : has_dir request_a1) by (eexists; split; reflexivity).
  split.
  - apply (proj1 (execute_saves_running_then_final
                    evaluate_state_by_exit_code run_raises request_a1 world0
                    Hdir eq_refl)).
    intros e a' H. injection H as <- _. reflexivity.
  - exact (proj2 (execute_saves_running_then_final
                    evaluate_state_by_exit_code run_interrupted request_a1
                    world0 Hdir eq_refl)
             KeyboardInterrupt script eq_refl eq_refl).
Defined.

Lemma execute_without_directory_witness :
  Request.execute evaluate_state_by_exit_code (run_exits 0)
    (Request.set_dir None request_a1, world0)
  = (Ok tt,
     (Request.set_state State.error (Request.set_dir None request_a1),
      after_reading world0)).
Proof.
  apply (execute_without_directory evaluate_state_by_exit_code (run_exits 0)
           (Request.set_dir None request_a1) world0).
  left. reflexivity.
Defined.

(** ** ReqManager.enter_maintenance and ReqManager.leave_maintenance *)

Lemma with_no_calls (w : World Request.t) : with_calls [] w = w.
Proof. destruct w. unfold with_calls. simpl. rewrite app_nil_r. reflexivity. Qed.

Lemma with_calls_app (c1 c2 : list Event) (w : World Request.t) :
  with_calls c2 (with_calls c1 w) = with_calls (c1 ++ c2) w.
Proof. unfold with_calls. simpl. rewrite app_assoc. reflexivity. Qed.

Lemma run_commands_no_faults (items : dict string) :
  forall (m : ReqManager.t) (w : World Request.t),
    faults w = [] ->
    ReqManager.run_commands items (m, w)
    = (Ok tt, (m, with_calls (commands items) w)).
Proof.
  unfold ReqManager.run_commands.
  induction items as [|item items IH]; intros m w Hf.
  - simpl. unfold ret, commands. simpl. rewrite with_no_calls. reflexivity.
  - cbn [for_each]. unfold commands. cbn [filter].
    destruct (is_blank (snd item)); cbn [negb map].
    + rewrite (bind_returns _ _ (m, w) tt (m, w)) by reflexivity.
      apply IH, Hf.
    + rewrite (bind_returns _ _ _ tt _ (subprocess_no_faults _ m w Hf)).
      rewrite IH by exact Hf. rewrite with_calls_app. reflexivity.
Qed.

Lemma subprocess_outcome {X} (cmd : string) (x x1 : X)
    (w w1 : World Request.t) res :
  in_world (subprocess_run_checked cmd) (x, w) = (res, (x1, w1)) ->
  x1 = x
  /\ trace w1 = trace w ++ [subprocess_run cmd]
  /\ match res with
     | Ok _ => True
     | Raise e => e = CalledProcessError cmd
     end.
Proof.
  unfold in_world, subprocess_run_checked, bind, fallible, emit.
  cbn [fst snd faults].
  destruct (faults w) as [|[|] fs]; cbn [fst snd]; intros H;
    injection H as <- <- <-; auto.
Qed.

(** The commands of a section run in order, the blank ones skipped, and
    the first one that fails ends the run: the calls made are the
    commands up to that one. *)
Lemma run_commands_stops_at_failure (items : dict string) :
  forall (m : ReqManager.t) (w : World Request.t),
    exists res ran rest w',
      ReqManager.run_commands items (m, w) = (res, (m, w'))
      /\ trace w' = trace w ++ ran
      /\ commands items = ran ++ rest
      /\ match res with
         | Ok _ => rest = []
         | Raise e =>
             exists before cmd,
               e = CalledProcessError cmd
               /\ ran = before ++ [subprocess_run cmd]
         end.
Proof.
  unfold ReqManager.run_commands.
  induction items as [|item items IH]; intros m w.
  - exists (Ok tt), [], [], w. simpl. rewrite app_nil_r. auto.
  - cbn [for_each]. unfold commands. cbn [filter].
    destruct (is_blank (snd item)); cbn [negb map].
    + rewrite (bind_returns _ _ (m, w) tt (m, w)) by reflexivity.
      apply IH.
    + unfold bind at 1.
      destruct (in_world (subprocess_run_checked (snd item)) (m, w))
        as [res [m1 w1]] eqn:Hsub.
      apply subprocess_outcome in Hsub. destruct Hsub as (-> & Htr & Hres).
      destruct res as [[]|e].
      * destruct (IH m w1) as (res & ran & rest & w' & Hs & Ht & Hc & Hr).
        exists res, (subprocess_run (snd item) :: ran), rest, w'.
        split; [exact Hs|]. split; [|split].
        -- rewrite Ht, Htr, <- app_assoc. reflexivity.
        -- simpl. f_equal. exact Hc.
        -- destruct res as [u|e]; [exact Hr|].
           destruct Hr as (before & cmd & He & Hran).
           exists (subprocess_run (snd item) :: before), cmd.
           split; [exact He|]. rewrite Hran. reflexivity.
      * subst e.
        exists (Raise (CalledProcessError (snd item))),
          [subprocess_run (snd item)], (commands items), w1.
        repeat split; [exact Htr|].
        exists [], (snd item). split; reflexivity.
Qed.

Lemma config_items_at (section : string) (m : ReqManager.t)
    (w : World Request.t) :
  ReqManager.config_items section (m, w)
  = match dict_get section (ReqManager.config m) with
    | Some items => (Ok items, (m, w))
    | None => (Raise (KeyError section), (m, w))
    end.
Proof.
  unfold ReqManager.config_items, bind, self_get. cbn [fst snd].
  destruct (dict_get section (ReqManager.config m)); reflexivity.
Qed.

(** X12: [enter_maintenance] first marks the node as out of service and
    then runs the commands of the section [maintenance-enter] that are
    not blank, in order.  When the configuration has no such section it
    raises [KeyError], and the node has already been marked as out of
    service. *)
Theorem enter_maintenance_marks_then_runs :
  forall (m : ReqManager.t) (w : World Request.t),
    faults w = [] ->
    match dict_get "maintenance-enter" (ReqManager.config m) with
    | Some items =>
        ReqManager.enter_maintenance (m, w)
        = (Ok tt,
           (m, with_calls (mark_node_service_status false :: commands items) w))
    | None =>
        ReqManager.enter_maintenance (m, w)
        = (Raise (KeyError "maintenance-enter"),
           (m, with_calls [mark_node_service_status false] w))
    end.
Proof.
  intros m w Hf. unfold ReqManager.enter_maintenance.
  rewrite (bind_returns _ _ _ tt _ (remote_no_faults _ m w Hf)).
  destruct (dict_get "maintenance-enter" (ReqManager.config m))
    as [items|] eqn:E; unfold bind; rewrite config_items_at, E.
  - rewrite run_commands_no_faults by exact Hf.
    rewrite with_calls_app. reflexivity.
  - reflexivity.
Qed.

Lemma leave_maintenance_no_faults (m : ReqManager.t) (w : World Request.t)
    items :
  faults w = [] ->
  dict_get "maintenance-leave" (ReqManager.config m) = Some items ->
  ReqManager.leave_maintenance (m, w)
  = (Ok tt,
     (m, with_calls (commands items ++ [mark_node_service_status true]) w)).
Proof.
  intros Hf Hc. unfold ReqManager.leave_maintenance.
  unfold bind at 1. rewrite config_items_at, Hc.
  unfold bind at 1. rewrite run_commands_no_faults by exact Hf.
  rewrite remote_no_faults by exact Hf.
  rewrite with_calls_app. reflexivity.
Qed.

Lemma remote_outcome {X} (ev : Event) (x x1 : X) (w w1 : World Request.t) res :
  in_world (remote ev) (x, w) = (res, (x1, w1)) ->
  x1 = x
  /\ trace w1 = trace w ++ [ev]
  /\ match res with
     | Ok _ => True
     | Raise e => e = RemoteError
     end.
Proof.
  unfold in_world, remote, bind, fallible, emit. cbn [fst snd faults].
  destruct (faults w) as [|[|] fs]; cbn [fst snd]; intros H;
    injection H as <- <- <-; auto.
Qed.

Lemma commands_are_subprocess_runs (items : dict string) (ran rest : list Event)
    (in_service : bool) :
  commands items = ran ++ rest ->
  ~ In (mark_node_service_status in_service) ran.
Proof.
  intros Hc Hin.
  assert (Hin' : In (mark_node_service_status in_service) (commands items))
    by (rewrite Hc; apply in_or_app; left; exact Hin).
  unfold commands in Hin'. apply in_map_iff in Hin'.
  destruct Hin' as (item & Heq & _). discriminate.
Qed.

Lemma leave_maintenance_raised (m : ReqManager.t) (w : World Request.t) e s' :
  ReqManager.leave_maintenance (m, w) = (Raise e, s') ->
  fst s' = m
  /\ ((e = KeyError "maintenance-leave" /\ trace (snd s') = trace w)
      \/ (exists cmd ran,
             e = CalledProcessError cmd
             /\ trace (snd s') = trace w ++ ran
             /\ ~ In (mark_node_service_status true) ran)
      \/ (e = RemoteError
          /\ exists items,
               dict_get "maintenance-leave" (ReqManager.config m) = Some items
               /\ trace (snd s')
                  = trace w ++ commands items
                      ++ [mark_node_service_status true])).
Proof.
  unfold ReqManager.leave_maintenance.
  unfold bind at 1. rewrite config_items_at.
  destruct (dict_get "maintenance-leave" (ReqManager.config m))
    as [items|] eqn:Hitems.
  - unfold bind at 1.
    destruct (run_commands_stops_at_failure items m w)
      as (res & ran & rest & w' & Hrun & Ht & Hc & Hres).
    rewrite Hrun.
    destruct res as [[]|e'].
    + destruct (in_world (remote (mark_node_service_status true)) (m, w'))
        as [res [m1 w1]] eqn:Hmark.
      apply remote_outcome in Hmark. destruct Hmark as (-> & Htr & Hout).
      intros H. injection H as -> <-. cbn [fst snd].
      split; [reflexivity|]. right. right. split; [exact Hout|].
      exists items. split; [reflexivity|].
      subst rest. rewrite app_nil_r in Hc. subst ran.
      rewrite Htr, Ht, <- app_assoc. reflexivity.
    + intros H. injection H as -> <-. cbn [fst snd].
      split; [reflexivity|]. right. left.
      destruct Hres as (before & cmd & -> & _).
      exists cmd, ran. split; [reflexivity|]. split; [exact Ht|].
      exact (commands_are_subprocess_runs items ran rest true Hc).
  - intros H. injection H as <- <-. cbn [fst snd].
    split; [reflexivity|]. left. split; reflexivity.
Qed.

(** X13: [leave_maintenance] runs the commands of the section
    [maintenance-leave] that are not blank, in order, and marks the node
    as in service last.  When it raises because the section is missing
    or a command fails, no call that marks the node as in service has
    been made; the only other exception is that of this call itself,
    made after every command has run. *)
Theorem leave_maintenance_marks_last :
  forall (m : ReqManager.t) (w : World Request.t),
    (forall items,
        faults w = [] ->
        dict_get "maintenance-leave" (ReqManager.config m) = Some items ->
        ReqManager.leave_maintenance (m, w)
        = (Ok tt,
           (m, with_calls (commands items ++ [mark_node_service_status true])
                 w)))
    /\ (forall e s',
           ReqManager.leave_maintenance (m, w) = (Raise e, s') ->
           fst s' = m
           /\ ((e = KeyError "maintenance-leave"
                /\ trace (snd s') = trace w)
               \/ (exists cmd ran,
                      e = CalledProcessError cmd
                      /\ trace (snd s') = trace w ++ ran
                      /\ ~ In (mark_node_service_status true) ran)
               \/ (e = RemoteError
                   /\ exists items,
                        dict_get "maintenance-leave" (ReqManager.config m)
                        = Some items
                        /\ trace (snd s')
                           = trace w ++ commands items
                               ++ [mark_node_service_status true]))).
Proof.
  intros m w. split.
  - intros items Hf Hc. apply leave_maintenance_no_faults; assumption.
  - apply leave_maintenance_raised.
Qed.

Lemma enter_maintenance_marks_then_runs_witness :
  ReqManager.enter_maintenance (manager_idle, world0)
  = (Ok tt,
     (manager_idle,
      with_calls [mark_node_service_status false;
                  subprocess_run "systemctl stop nginx"] world0)).
Proof.
  exact (enter_maintenance_marks_then_runs manager_idle world0 eq_refl).
Defined.

Lemma leave_maintenance_marks_last_witness :
  ReqManager.leave_maintenance (manager_idle, world0)
  = (Ok tt,
     (manager_idle,
      with_calls [subprocess_run "systemctl start nginx";
                  mark_node_service_status true] world0))
  /\ trace (snd (snd (ReqManager.leave_maintenance
                        (manager_idle, world_failing))))
     = [subprocess_run "systemctl start nginx"]
  /\ trace (snd (snd (ReqManager.leave_maintenance
                        (manager_idle, world_failing_later))))
     = [subprocess_run "systemctl start nginx";
        mark_node_service_status true].
Proof.
  pose proof (proj1 (leave_maintenance_marks_last manager_idle world0)
                _ eq_refl eq_refl) as Hok.
  pose proof (proj2 (leave_maintenance_marks_last manager_idle world_failing)
                (CalledProcessError "systemctl start nginx") _ eq_refl)
    as [_ Hcmd].
  pose proof (proj2 (leave_maintenance_marks_last manager_idle
                       world_failing_later)
                RemoteError _ eq_refl)
    as [_ Hcall].
  split; [exact Hok|]. split.
  - destruct Hcmd as [[H _]|[(cmd & ran & _ & H & _)|[H _]]];
      try discriminate H. reflexivity.
  - destruct Hcall as [[H _]|[(cmd & ran & H & _)|[_ (items & _ & H)]]];
      try discriminate H. reflexivity.
Defined.

(** ** ReqManager.execute, continued *)

Lemma refresh_all_world (rs : dict Request.t) :
  forall w,
    faults (snd (refresh_all rs w)) = faults w
    /\ disk (snd (refresh_all rs w)) = disk w
    /\ trace (snd (refresh_all rs w)) = trace w.
Proof.
  induction rs as [|[key r] rs IH]; intros w; simpl; [auto|].
  destruct (update_state_only_state r w) as (_ & Hf & Hd & Ht).
  destruct (IH (snd (snd (Request.update_state (r, w))))) as (Hf' & Hd' & Ht').
  rewrite Hf', Hd', Ht'. auto.
Qed.

(** X14: with the lock held, when after the refresh no request is
    running, due or tempfail, [execute] runs no activity and does not
    take the node out of service: it refreshes the states, runs the
    commands for leaving maintenance and marks the node as in service. *)
Theorem execute_nothing_runnable :
  forall evaluate_state run (m : ReqManager.t) (w : World Request.t) items,
    ReqManager.lockfile m = true ->
    NoDup (map fst (ReqManager.requests m)) ->
    Forall (fun kr => due_has_timezone (snd kr)) (ReqManager.requests m) ->
    faults w = [] ->
    dict_get "maintenance-leave" (ReqManager.config m) = Some items ->
    let refreshed := refresh_all (ReqManager.requests m) w in
    filter is_running (fst refreshed) = [] ->
    filter is_due_or_tempfail (fst refreshed) = [] ->
    ReqManager.execute evaluate_state run false (m, w)
    = (Ok tt,
       (ReqManager.set_requests (fst refreshed) m,
        with_calls (commands items ++ [mark_node_service_status true])
          (snd refreshed))).
Proof.
  intros evaluate_state run m w items Hlock Hnd Hwf Hf Hc refreshed Hr Hd.
  destruct (runnable_returns m w Hnd Hwf) as (later & Hrun & Hp & _).
  fold refreshed in Hrun, Hp. rewrite Hd in Hp. rewrite Hr in Hrun.
  apply Permutation_sym, Permutation_nil in Hp. subst later.
  unfold ReqManager.execute, ReqManager.require_lock.
  rewrite (bind_returns _ _ (m, w) true (m, w))
    by (unfold self_get; cbn [fst]; rewrite Hlock; reflexivity).
  unfold ReqManager.runnable_requests.
  unfold bind at 1, bind at 1. rewrite Hrun. unfold ret. cbn [map app].
  apply leave_maintenance_no_faults; [|exact Hc].
  unfold refreshed.
  rewrite (proj1 (refresh_all_world (ReqManager.requests m) w)). exact Hf.
Qed.

Lemma execute_nothing_runnable_witness :
  ReqManager.execute evaluate_state_by_exit_code run_raises false
    (manager_idle, world0)
  = (Ok tt,
     (manager_idle,
      with_calls [subprocess_run "systemctl start nginx";
                  mark_node_service_status true] world0)).
Proof.
  apply (execute_nothing_runnable evaluate_state_by_exit_code run_raises
           manager_idle world0 [("web", "systemctl start nginx")]).
  - reflexivity.
  - simpl. repeat constructor; simpl; intuition discriminate.
  - repeat constructor.
  - reflexivity.
  - reflexivity.
  - reflexivity.
  - reflexivity.
Defined.









Lemma enter_maintenance_no_faults (m : ReqManager.t) (w : World Request.t)
    items :
  faults w = [] ->
  dict_get "maintenance-enter" (ReqManager.config m) = Some items ->
  ReqManager.enter_maintenance (m, w)
  = (Ok tt,
     (m, with_calls (mark_node_service_status false :: commands items) w)).
Proof.
  intros Hf Hc. unfold ReqManager.enter_maintenance.
  rewrite (bind_returns _ _ _ tt _ (remote_no_faults _ m w Hf)).
  unfold bind. rewrite config_items_at, Hc.
  rewrite run_commands_no_faults by exact Hf.
  rewrite with_calls_app. reflexivity.
Qed.

(** X26: an interrupt during a batch leaves the node out of service.
    With the lock held and no failure of the directory service, the
    commands or the file system: when [run()] of the first request
    chosen raises what is no instance of [Exception], [execute] raises
    it; the node has been marked as out of service and the commands for
    entering maintenance have run, the request is left in state
    [running], the requests after it are not executed, and neither a
    reboot nor [leave_maintenance] follows. *)
Theorem execute_aborted_batch :
  forall evaluate_state run (run_all_now : bool)
         (m m1 : ReqManager.t) (w w1 : World Request.t)
         key rest items r e a',
    ReqManager.lockfile m = true ->
    ReqManager.runnable_requests run_all_now (m, w)
    = (Ok (key :: rest), (m1, w1)) ->
    faults w1 = [] ->
    dict_get "maintenance-enter" (ReqManager.config m1) = Some items ->
    dict_get key (ReqManager.requests m1) = Some r ->
    has_dir r ->
    run (Request.activity r) = Activity.Raised e a' ->
    Exception e = false ->
    ReqManager.execute evaluate_state run run_all_now (m, w)
    = (Raise e,
       (ReqManager.set_requests
          (dict_set key
             (Request.set_activity a' (Request.set_state State.running r))
             (ReqManager.requests m1)) m1,
        with_file (saved_file (Request.set_state State.running r))
          (after_reading
             (with_calls (mark_node_service_status false :: commands items)
                w1)))).
Proof.
  intros evaluate_state run run_all_now m m1 w w1 key rest items r e a'
    Hlock Hkeys Hf Hc Hget Hdir Hrun He.
  unfold ReqManager.execute, ReqManager.require_lock.
  unfold bind at 1, self_get at 1. cbn [fst snd]. rewrite Hlock.
  unfold bind at 1. rewrite Hkeys.
  unfold bind at 1. rewrite (enter_maintenance_no_faults m1 w1 items Hf Hc).
  unfold bind at 1, ReqManager.execute_requests.
  cbn [for_fold]. unfold bind at 1.
  set (w2 := with_calls (mark_node_service_status false :: commands items)
               w1).
  assert (Hf2 : faults w2 = []) by exact Hf.
  rewrite (execute_one_step evaluate_state run [] key m1 w2 r Hget).
  rewrite (execute_interrupted evaluate_state run r w2 e a' Hdir Hf2 Hrun He).
  reflexivity.
Qed.

Lemma execute_aborted_batch_witness :
  ReqManager.execute evaluate_state_by_exit_code run_interrupted false
    (manager_cold_warm, world0)
  = (Raise KeyboardInterrupt,
     (ReqManager.set_requests
        (dict_set "c2"
           (Request.set_state State.running
              (Request.mk "c2" update_kernel 600%Z (Some "update")
                 (Some "/var/spool/maintenance/requests/c2") None None None
                 State.due []))
           (ReqManager.requests manager_cold_warm)) manager_cold_warm,
      with_file
        (saved_file
           (Request.set_state State.running
              (Request.mk "c2" update_kernel 600%Z (Some "update")
                 (Some "/var/spool/maintenance/requests/c2") None None None
                 State.due [])))
        (after_reading
           (with_calls [mark_node_service_status false] world0)))).
Proof.
  apply (execute_aborted_batch evaluate_state_by_exit_code run_interrupted
           false manager_cold_warm manager_cold_warm world0 world0
           "c2" ["w1"] []
           (Request.mk "c2" update_kernel 600%Z (Some "update")
              (Some "/var/spool/maintenance/requests/c2") None None None
              State.due [])
           KeyboardInterrupt update_kernel).
  - reflexivity.
  - vm_compute. reflexivity.
  - reflexivity.
  - reflexivity.
  - reflexivity.
  - eexists. split; reflexivity.
  - reflexivity.
  - reflexivity.
Defined.

Example execute_interrupted_leaves_out_of_service :
  trace (snd (snd (ReqManager.execute evaluate_state_by_exit_code
                     run_interrupted false (manager_cold_warm, world0))))
  = [mark_node_service_status false].
Proof. reflexivity. Qed.

(** ** ReqManager.delete and the lock *)

Lemma find_first {A} (f : A -> bool) (done : list A) (x : A) (rest : list A) :
  (forall y, In y done -> f y = false) -> f x = true ->
  find f (done ++ x :: rest) = Some x.
Proof.
  intros Hdone Hx. induction done as [|y done IH]; simpl.
  - rewrite Hx. reflexivity.
  - rewrite (Hdone y) by (left; reflexivity).
    apply IH. intros z Hz. apply Hdone. right. exact Hz.
Qed.

Lemma find_nothing {A} (f : A -> bool) (l : list A) :
  (forall y, In y l -> f y = false) -> find f l = None.
Proof.
  intros Hl. induction l as [|y l IH]; simpl; [reflexivity|].
  rewrite (Hl y) by (left; reflexivity).
  apply IH. intros z Hz. apply Hl. right. exact Hz.
Qed.

(** X16: with the lock held, [delete] does nothing when no key starts
    with the given prefix; otherwise the first request, in the order of
    the dict, whose key starts with it is set to [deleted] and saved,
    and the others stay as they are.  Every key starts with the empty
    prefix, which therefore deletes the first request. *)
Theorem delete_marks_first_match :
  forall (reqid : string) (m : ReqManager.t) (w : World Request.t),
    ReqManager.lockfile m = true ->
    ((forall key, In key (map fst (ReqManager.requests m)) ->
                  String.prefix reqid key = false) ->
     ReqManager.delete reqid (m, w) = (Ok tt, (m, w)))
    /\ (forall done key r rest,
           ReqManager.requests m = done ++ (key, r) :: rest ->
           (forall k, In k (map fst done) -> String.prefix reqid k = false) ->
           String.prefix reqid key = true ->
           has_dir r ->
           faults w = [] ->
           ReqManager.delete reqid (m, w)
           = (Ok tt,
              (ReqManager.set_requests
                 (done ++ (key, Request.set_state State.deleted r) :: rest) m,
               with_file (saved_file (Request.set_state State.deleted r)) w)))
    /\ (forall key, String.prefix "" key = true).
Proof.
  intros reqid m w Hlock.
  assert (Hstart :
             ReqManager.delete reqid (m, w)
             = match find (fun kr => String.prefix reqid (fst kr))
                       (ReqManager.requests m) with
               | None => (Ok tt, (m, w))
               | Some kr =>
                   ReqManager.on_request (fst kr)
                     (self_set (Request.set_state State.deleted) ;;
                      Request.save) (m, w)
               end).
  { unfold ReqManager.delete, ReqManager.require_lock.
    rewrite (bind_returns _ _ (m, w) true (m, w))
      by (unfold self_get; cbn [fst]; rewrite Hlock; reflexivity).
    rewrite (bind_returns _ _ (m, w) (ReqManager.requests m) (m, w))
      by reflexivity.
    destruct (find _ (ReqManager.requests m)); reflexivity. }
  split; [|split].
  - intros Hnone. rewrite Hstart, find_nothing; [reflexivity|].
    intros [k r] Hin. apply Hnone. apply in_map_iff. exists (k, r). auto.
  - intros done key r rest Hm Hdone Hkey Hdir Hf.
    assert (Hn : ~ In key (map fst done)).
    { intros Hin. rewrite (Hdone key Hin) in Hkey. discriminate. }
    rewrite Hstart, Hm, (find_first _ done (key, r) rest);
      [|intros [k x] Hin; apply Hdone, in_map_iff; exists (k, x); auto
       |exact Hkey].
    cbn [fst].
    rewrite (on_request_at key _ m w done r rest Hm Hn).
    assert (Hsave : bind (self_set (Request.set_state State.deleted))
                      (fun _ => Request.save) (r, w)
                    = (Ok tt,
                       (Request.set_state State.deleted r,
                        with_file
                          (saved_file (Request.set_state State.deleted r)) w))).
    { rewrite (bind_returns _ _ (r, w) tt
                 (Request.set_state State.deleted r, w)) by reflexivity.
      rewrite save_writes; [|exact Hdir|exact Hf].
      rewrite with_file_no_faults by exact Hf. reflexivity. }
    rewrite Hsave. reflexivity.
  - intros key. destruct key; reflexivity.
Qed.

Lemma delete_marks_first_match_witness :
  ReqManager.delete "zz" (manager_a1_b2, world0)
  = (Ok tt, (manager_a1_b2, world0))
  /\ ReqManager.delete "" (manager_a1_b2, world0)
     = (Ok tt,
        (ReqManager.set_requests
           [("a1", Request.set_state State.deleted request_a1);
            ("b2", request_b2)] manager_a1_b2,
         with_file (saved_file (Request.set_state State.deleted request_a1))
           world0)).
Proof.
  pose proof (delete_marks_first_match "zz" manager_a1_b2 world0 eq_refl)
    as (Hnone & _ & _).
  pose proof (delete_marks_first_match "" manager_a1_b2 world0 eq_refl)
    as (_ & Hfirst & _).
  split.
  - apply Hnone. intros key [<-|[<-|[]]]; reflexivity.
  - apply (Hfirst [] "a1" request_a1 [("b2", request_b2)]).
    + reflexivity.
    + intros k [].
    + reflexivity.
    + eexists. split; reflexivity.
    + reflexivity.
Defined.

(** X17: without the lock [schedule], [postpone] and [delete] raise
    [AssertionError] and do nothing else: no outside call, no change of
    a request. *)
Theorem locked_operations_require_lock :
  forall parse_date (reqid : string) (m : ReqManager.t) (w : World Request.t),
    ReqManager.lockfile m = false ->
    ReqManager.schedule parse_date (m, w)
    = (Raise (AssertionError "method required lock"), (m, w))
    /\ ReqManager.postpone parse_date (m, w)
       = (Raise (AssertionError "method required lock"), (m, w))
    /\ ReqManager.delete reqid (m, w)
       = (Raise (AssertionError "method required lock"), (m, w)).
Proof.
  intros parse_date reqid m w Hlock.
  unfold ReqManager.schedule, ReqManager.postpone, ReqManager.delete,
    ReqManager.require_lock.
  repeat split;
    rewrite (bind_returns _ _ (m, w) false (m, w))
      by (unfold self_get; cbn [fst]; rewrite Hlock; reflexivity);
    reflexivity.
Qed.

Lemma locked_operations_require_lock_witness :
  ReqManager.schedule parse_one_date
    (ReqManager.mk [("a1", request_a1)] false "/var/spool/maintenance/requests"
       (fun _ => []) no_hooks, world0)
  = (Raise (AssertionError "method required lock"),
     (ReqManager.mk [("a1", request_a1)] false
        "/var/spool/maintenance/requests" (fun _ => []) no_hooks, world0)).
Proof.
  exact (proj1 (locked_operations_require_lock parse_one_date ""
                  (ReqManager.mk [("a1", request_a1)] false
                     "/var/spool/maintenance/requests" (fun _ => []) no_hooks)
                  world0 eq_refl)).
Defined.

(** ** ReqManager.add and ReqManager.find_by_comment, continued *)

Lemma opt_str_eq_eq (a b : option string) : opt_str_eq a b = true <-> a = b.
Proof.
  destruct a as [x|], b as [y|]; simpl; try (split; congruence).
  rewrite String.eqb_eq. split; congruence.
Qed.

(** X18: with [skip_same_comment] set, a request whose comment is
    [None] or empty, or is the comment of no request held, is added
    just as without it. *)
Theorem add_without_duplicate :
  forall (m : ReqManager.t) (w : World Request.t) (r : Request.t),
    truthy_str (Request.comment r) = false
    \/ (forall x, In x (map snd (ReqManager.requests m)) ->
                  Request.comment x <> Request.comment r) ->
    ReqManager.add (Some r) true (m, w) = ReqManager.add (Some r) false (m, w).
Proof.
  intros m w r H. unfold ReqManager.add.
  rewrite !(bind_returns _ _ (m, w) m (m, w)) by reflexivity.
  cbn [andb].
  destruct H as [-> | Hnone]; [reflexivity|].
  destruct (truthy_str (Request.comment r)); [|reflexivity].
  unfold ReqManager.find_by_comment. rewrite find_nothing; [reflexivity|].
  intros x Hin. destruct (opt_str_eq (Request.comment x) (Request.comment r))
    eqn:E; [|reflexivity].
  apply opt_str_eq_eq in E. exfalso. exact (Hnone x Hin E).
Qed.

Lemma add_without_duplicate_witness :
  ReqManager.add (Some request_b2) true (manager_a1, world0)
  = ReqManager.add (Some request_b2) false (manager_a1, world0).
Proof.
  apply (add_without_duplicate manager_a1 world0 request_b2).
  right. intros x [<-|[]]. discriminate.
Defined.

Lemma dict_set_In {V} (key : string) (v : V) (d : dict V) :
  In v (map snd (dict_set key v d)).
Proof.
  induction d as [|[k x] d IH]; simpl; [auto|].
  destruct (k =? key)%string; simpl; auto.
Qed.

(** X19: once [add] has entered a request with a comment that is not
    empty (also when saving it failed), a request with the same comment
    is refused with [skip_same_comment]: [add] returns [None] and
    changes nothing. *)
Theorem add_then_same_comment_refused :
  forall (m : ReqManager.t) (w : World Request.t) (r r2 : Request.t),
    truthy_str (Request.comment r) = true ->
    Request.comment r2 = Request.comment r ->
    let s1 := snd (ReqManager.add (Some r) false (m, w)) in
    ReqManager.add (Some r2) true s1 = (Ok None, s1).
Proof.
  intros m w r r2 Htruthy Hsame. cbn zeta.
  destruct (add_registers m w r) as [Hreg _].
  destruct (ReqManager.add (Some r) false (m, w)) as [res [m1 w1]].
  cbn [fst snd] in *.
  assert (Hin : In (added m (now w + hd 0 (ticks w))%Z r)
                  (map snd (ReqManager.requests m1))).
  { rewrite Hreg. apply dict_set_In. }
  destruct (find_by_comment_finds m1 _ (Request.comment r2) Hin)
    as [found Hfound]; [symmetry; exact Hsame|].
  unfold ReqManager.add. rewrite Hsame, Htruthy. cbn [andb].
  unfold bind, self_get. cbn [fst snd]. rewrite <- Hsame, Hfound. reflexivity.
Qed.

Lemma add_then_same_comment_refused_witness :
  ReqManager.add
    (Some (Request.mk "e5" script 5%Z (Some "reboot for the new kernel") None
             None None None State.pending []))
    true
    (snd (ReqManager.add (Some request_b2) false (manager_a1, world_failing)))
  = (Ok None,
     snd (ReqManager.add (Some request_b2) false (manager_a1, world_failing))).
Proof.
  apply (add_then_same_comment_refused manager_a1 world_failing request_b2
           (Request.mk "e5" script 5%Z (Some "reboot for the new kernel") None
              None None None State.pending [])).
  - reflexivity.
  - reflexivity.
Defined.

(** X20: after [add] without [skip_same_comment] the request is found
    under its id; a request that was held under that id is replaced in
    its place, otherwise the id is the last key; every other key holds
    what it held. *)
Theorem add_enters_under_id :
  forall (m : ReqManager.t) (w : World Request.t) (r : Request.t),
    let m' := fst (snd (ReqManager.add (Some r) false (m, w))) in
    dict_get (Request.id r) (ReqManager.requests m')
    = Some (added m (now w + hd 0 (ticks w))%Z r)
    /\ map fst (ReqManager.requests m')
       = match dict_get (Request.id r) (ReqManager.requests m) with
         | Some _ => map fst (ReqManager.requests m)
         | None => map fst (ReqManager.requests m) ++ [Request.id r]
         end
    /\ (forall key,
           key <> Request.id r ->
           dict_get key (ReqManager.requests m')
           = dict_get key (ReqManager.requests m)).
Proof.
  intros m w r. cbn zeta.
  destruct (add_registers m w r) as [Hreg _]. cbn zeta in Hreg.
  rewrite Hreg. split; [apply dict_get_set_same|]. split.
  - destruct (dict_get (Request.id r) (ReqManager.requests m)) as [x|] eqn:E.
    + eapply dict_set_keys. exact E.
    + rewrite dict_set_fresh by (apply dict_get_None; exact E).
      rewrite map_app. reflexivity.
  - intros key Hne. apply dict_get_set_other. exact Hne.
Qed.

(** ** Request.other_requests *)

(** X25: for a request that the manager holds under its id,
    [other_requests] lists the requests held, without this one and in
    the order of the dict: no request of the list has its id, and with
    the request itself they are all the requests held. *)
Theorem other_requests_are_the_others :
  forall (m : ReqManager.t) (key : string) (r : Request.t),
    held_by_id m ->
    In (key, r) (ReqManager.requests m) ->
    (forall x, In x (ReqManager.other_requests m r) ->
               Request.id x <> Request.id r)
    /\ Permutation (map snd (ReqManager.requests m))
         (r :: ReqManager.other_requests m r)
    /\ S (List.length (ReqManager.other_requests m r))
       = List.length (ReqManager.requests m).
Proof.
  intros m key r [Hnd Hid] Hin.
  assert (Hothers : forall x, In x (ReqManager.other_requests m r) ->
                              Request.id x <> Request.id r).
  { intros x Hx. unfold ReqManager.other_requests in Hx.
    apply filter_In in Hx. destruct Hx as [_ Hx].
    apply Bool.negb_true_iff, String.eqb_neq in Hx. exact Hx. }
  assert (Hperm : Permutation (map snd (ReqManager.requests m))
                    (r :: ReqManager.other_requests m r)).
  { unfold ReqManager.other_requests.
    induction (ReqManager.requests m) as [|[k x] rs IH]; [destruct Hin|].
    simpl in Hnd. inversion Hnd as [|? ? Hnotin Hnd']; subst.
    inversion Hid as [|? ? Hk Hid']; subst. simpl in Hk.
    assert (Hone : forall k0 x0, In (k0, x0) rs -> Request.id x0 <> k).
    { intros k0 x0 H0 Heq. apply Hnotin. apply in_map_iff.
      exists (k0, x0). split; [|exact H0].
      rewrite Forall_forall in Hid'. rewrite (Hid' _ H0). exact Heq. }
    destruct Hin as [Heq|Hin].
    - injection Heq as -> ->. cbn [map filter snd].
      rewrite String.eqb_refl. cbn [negb]. apply perm_skip.
      rewrite forallb_filter_id; [reflexivity|].
      apply forallb_forall. intros y Hy. apply in_map_iff in Hy.
      destruct Hy as ([k0 x0] & <- & H0). cbn [snd].
      apply Bool.negb_true_iff, String.eqb_neq.
      intros Heq. apply (Hone k0 x0 H0). rewrite Hk. exact Heq.
    - cbn [map filter snd].
      assert (Hne : (Request.reqid x =? Request.reqid r)%string = false).
      { apply String.eqb_neq. intros Heq.
        apply (Hone key r Hin). unfold Request.id in *. congruence. }
      rewrite Hne. cbn [negb].
      rewrite perm_swap. apply perm_skip. apply IH; assumption. }
  split; [exact Hothers|]. split; [exact Hperm|].
  apply Permutation_length in Hperm. rewrite length_map in Hperm.
  simpl in Hperm. symmetry. exact Hperm.
Qed.

Lemma other_requests_are_the_others_witness :
  (forall x, In x (ReqManager.other_requests manager_a1_b2 request_b2) ->
             Request.id x <> Request.id request_b2)
  /\ Permutation (map snd (ReqManager.requests manager_a1_b2))
       (request_b2 :: ReqManager.other_requests manager_a1_b2 request_b2)
  /\ S (List.length (ReqManager.other_requests manager_a1_b2 request_b2))
     = List.length (ReqManager.requests manager_a1_b2).
Proof.
  apply (other_requests_are_the_others manager_a1_b2 "b2" request_b2).
  - split.
    + simpl. repeat constructor; simpl; intuition discriminate.
    + repeat constructor.
  - simpl. auto.
Defined.

(** ** ReqManager.schedule, continued *)

(** X22: when [schedule] raises before it comes to report what has
    disappeared (no lock, a failing call of [schedule_maintenance], a
    time that cannot be used, a write that fails), no call of
    [end_maintenance] has been made: its only outside call, if any, is
    [schedule_maintenance].  Otherwise what it raises is the failure of
    the [end_maintenance] call itself, the last call it made. *)
Theorem schedule_raises_before_reporting :
  forall parse_date (m m' : ReqManager.t) (w w' : World Request.t) e,
    ReqManager.schedule parse_date (m, w) = (Raise e, (m', w')) ->
    trace w' = trace w
    \/ trace w' = trace w ++ [schedule_maintenance (schedule_args m)]
    \/ (e = RemoteError
        /\ exists args,
             trace w'
             = trace w ++ [schedule_maintenance (schedule_args m);
                           end_maintenance args]).
Proof.
  unfold ReqManager.schedule, ReqManager.require_lock.
  intros parse_date m m' w w' e H.
  apply bind_Raise in H. destruct H as [H|(locked & s0 & Hl & H)];
    [discriminate|].
  unfold self_get in Hl. injection Hl as <- <-. cbn [fst] in H.
  destruct (ReqManager.lockfile m).
  2: { unfold raise in H. injection H as _ _ <-. left. reflexivity. }
  apply bind_Raise in H. destruct H as [H|(rs & s1 & Hrs & H)];
    [discriminate|].
  unfold self_get in Hrs. injection Hrs as <- <-. cbn [fst] in H.
  fold (schedule_args m) in H.
  apply bind_Raise in H. destruct H as [H|(ask & s2 & Hask & H)];
    [discriminate|].
  unfold self_get in Hask. injection Hask as <- <-. cbn [fst] in H.
  apply bind_Raise in H. destruct H as [H|(u & [m3 w3] & Hcall & H)].
  { apply remote_outcome in H. destruct H as (_ & H & _).
    right. left. exact H. }
  apply remote_outcome in Hcall. destruct Hcall as (-> & Htr3 & _).
  pose proof (preserves_for_fold same_keys_and_trace
                same_keys_and_trace_refl same_keys_and_trace_trans
                (ReqManager.schedule_item parse_date)
                (ReqManager.directory m (schedule_args m))
                (schedule_item_same_keys_and_trace parse_date)
                [] (m, w3)) as [_ Htr4].
  apply bind_Raise in H. destruct H as [H|(d & [m4 w4] & Hloop & H)].
  - rewrite H in Htr4. cbn [fst snd] in Htr4.
    right. left. rewrite Htr4. exact Htr3.
  - rewrite Hloop in Htr4. cbn [fst snd] in Htr4.
    destruct d as [|k d]; [discriminate|].
    apply remote_outcome in H. destruct H as (_ & H & He).
    right. right. split; [exact He|].
    eexists. rewrite H, Htr4, Htr3, <- app_assoc. reflexivity.
Qed.

Lemma schedule_raises_before_reporting_witness :
  trace (snd (snd (ReqManager.schedule parse_one_date
                     (manager_a1, world_failing_reporting))))
  = trace world_failing_reporting
  \/ trace (snd (snd (ReqManager.schedule parse_one_date
                        (manager_a1, world_failing_reporting))))
     = trace world_failing_reporting
         ++ [schedule_maintenance (schedule_args manager_a1)]
  \/ (RemoteError = RemoteError
      /\ exists args,
           trace (snd (snd (ReqManager.schedule parse_one_date
                              (manager_a1, world_failing_reporting))))
           = trace world_failing_reporting
               ++ [schedule_maintenance (schedule_args manager_a1);
                   end_maintenance args]).
Proof.
  exact (schedule_raises_before_reporting parse_one_date manager_a1
           (fst (snd (ReqManager.schedule parse_one_date
                        (manager_a1, world_failing_reporting))))
           world_failing_reporting
           (snd (snd (ReqManager.schedule parse_one_date
                        (manager_a1, world_failing_reporting))))
           RemoteError eq_refl).
Defined.

Example schedule_fails_in_the_loop :
  trace (snd (snd (ReqManager.schedule parse_one_date
                     (manager_bad_time, world0))))
  = [schedule_maintenance (schedule_args manager_bad_time)].
Proof. reflexivity. Qed.

Example schedule_fails_reporting :
  ReqManager.schedule parse_one_date (manager_a1, world_failing_reporting)
  = (Raise RemoteError,
     snd (ReqManager.schedule parse_one_date
            (manager_a1, world_failing_reporting)))
  /\ trace (snd (snd (ReqManager.schedule parse_one_date
                        (manager_a1, world_failing_reporting))))
     = [schedule_maintenance (schedule_args manager_a1);
        end_maintenance [("123abc", "deleted")]].
Proof. split; reflexivity. Qed.

Lemma on_request_held {A} (key : string)
    (method : M (Request.t * World Request.t) A)
    (m : ReqManager.t) (w : World Request.t) (r : Request.t) :
  dict_get key (ReqManager.requests m) = Some r ->
  ReqManager.on_request key method (m, w)
  = (fst (method (r, w)),
     (ReqManager.set_requests
        (dict_set key (fst (snd (method (r, w)))) (ReqManager.requests m)) m,
      snd (snd (method (r, w))))).
Proof.
  intros Hget. unfold ReqManager.on_request. cbn [fst snd]. rewrite Hget.
  destruct (method (r, w)) as [res [r' w']]. reflexivity.
Qed.

Lemma getitem_held (key : string) (m : ReqManager.t) (w : World Request.t)
    (r : Request.t) :
  dict_get key (ReqManager.requests m) = Some r ->
  ReqManager.getitem key (m, w) = (Ok r, (m, w)).
Proof.
  intros Hget. unfold ReqManager.getitem, bind, self_get. cbn [fst snd].
  rewrite Hget. reflexivity.
Qed.

Lemma update_due_literal_accepted parse_date (r : Request.t)
    (w : World Request.t) (s : string) (d : datetime) :
  s <> "" -> parse_date s = Ok d -> aware d = true -> due_has_timezone r ->
  Request.update_due parse_date (Request.due_literal s) (r, w)
  = (Ok (negb (opt_datetime_eq (Some d) (Request.next_due r))),
     snd (Request.update_state (Request.set_next_due (Some d) r, w))).
Proof.
  intros Hs Hp Ha Htz.
  assert (Htz' : due_has_timezone (Request.set_next_due (Some d) r))
    by exact Ha.
  destruct (update_state_returns _ w Htz') as (r' & w' & Hu & Hn).
  apply String.eqb_neq in Hs.
  unfold Request.update_due.
  rewrite (bind_returns _ _ (r, w) (Request.next_due r) (r, w))
    by reflexivity.
  rewrite Hs.
  rewrite (bind_returns _ _ (r, w) tt (Request.set_next_due (Some d) r, w))
    by (unfold bind, of_result; rewrite Hp; reflexivity).
  rewrite (bind_returns _ _ (Request.set_next_due (Some d) r, w) (Some d)
             (Request.set_next_due (Some d) r, w)) by reflexivity.
  rewrite Ha. cbn [negb].
  rewrite (bind_returns _ _ (Request.set_next_due (Some d) r, w) tt
             (Request.set_next_due (Some d) r, w)) by reflexivity.
  rewrite (bind_returns _ _ _ _ _ Hu), Hu.
  unfold bind, self_get, ret. cbn [fst snd]. rewrite Hn. reflexivity.
Qed.

(** X21: [schedule] on an answer for a request it holds, with a time
    that parses to a datetime with a time zone: the due date is stored
    and the state refreshed in both cases.  When the time is the one the
    request had, nothing is written and [last_scheduled_at] is as it
    was; when it differs, [last_scheduled_at] becomes the reading of the
    clock and the request is saved.  The id is not put in
    [disappeared]. *)
Theorem schedule_item_for_held_request :
  forall parse_date disappeared (key s : string) (d : datetime)
         (m : ReqManager.t) (w : World Request.t) (r : Request.t),
    dict_get key (ReqManager.requests m) = Some r ->
    due_has_timezone r ->
    s <> "" ->
    parse_date s = Ok d ->
    aware d = true ->
    let refreshed :=
      snd (Request.update_state (Request.set_next_due (Some d) r, w)) in
    let item := (key, Some (Request.due_literal s)) in
    Request.next_due (fst refreshed) = Some d
    /\ (opt_datetime_eq (Some d) (Request.next_due r) = true ->
        ReqManager.schedule_item parse_date disappeared item (m, w)
        = (Ok disappeared,
           (ReqManager.set_requests
              (dict_set key (fst refreshed) (ReqManager.requests m)) m,
            snd refreshed))
        /\ disk (snd refreshed) = disk w
        /\ Request.last_scheduled_at (fst refreshed)
           = Request.last_scheduled_at r)
    /\ (opt_datetime_eq (Some d) (Request.next_due r) = false ->
        has_dir r ->
        faults w = [] ->
        let w1 := snd (utcnow (snd refreshed)) in
        let stamped :=
          Request.set_last_scheduled_at (Some (mk_datetime (now w1) UTC))
            (fst refreshed) in
        ReqManager.schedule_item parse_date disappeared item (m, w)
        = (Ok disappeared,
           (ReqManager.set_requests
              (dict_set key stamped (ReqManager.requests m)) m,
            with_file (saved_file stamped) w1))).
Proof.
  intros parse_date disappeared key s d m w r Hget Htz Hs Hp Ha.
  cbn zeta.
  pose proof (update_due_literal_accepted parse_date r w s d Hs Hp Ha Htz)
    as Hupd.
  destruct (update_state_only_state (Request.set_next_due (Some d) r) w)
    as ([st Hst] & Hf & Hd & _).
  destruct (Request.update_state (Request.set_next_due (Some d) r, w))
    as [res [r1 w1]].
  cbn [fst snd] in *. subst r1.
  assert (Hfirst :
            forall k : bool -> M (ReqManager.t * World Request.t) (list string),
              try_except is_KeyError
                (ReqManager.getitem key ;;
                 time <- ret (Request.due_literal s) ;;
                 changed <- ReqManager.on_request key
                              (Request.update_due parse_date time) ;;
                 k changed)
                (fun _ => ret (set_add String.eqb key disappeared)) (m, w)
              = try_except is_KeyError
                  (k (negb (opt_datetime_eq (Some d) (Request.next_due r))))
                  (fun _ => ret (set_add String.eqb key disappeared))
                  (ReqManager.set_requests
                     (dict_set key
                        (Request.set_state st
                           (Request.set_next_due (Some d) r))
                        (ReqManager.requests m)) m, w1)).
  { intros k. unfold try_except.
    rewrite (bind_returns _ _ _ _ _ (getitem_held key m w r Hget)).
    rewrite (bind_returns _ _ (m, w) (Request.due_literal s) (m, w))
      by reflexivity.
    rewrite (bind_returns _ _ (m, w)
               (negb (opt_datetime_eq (Some d) (Request.next_due r)))
               (ReqManager.set_requests
                  (dict_set key
                     (Request.set_state st (Request.set_next_due (Some d) r))
                     (ReqManager.requests m)) m, w1))
      by (rewrite (on_request_held key _ m w r Hget), Hupd; reflexivity).
    reflexivity. }
  split; [reflexivity|]. split.
  - intros Hsame. split; [|split; [exact Hd|reflexivity]].
    unfold ReqManager.schedule_item. cbn [fst snd].
    rewrite Hfirst, Hsame. reflexivity.
  - intros Hdiff Hdir Hfaults.
    unfold ReqManager.schedule_item. cbn [fst snd].
    rewrite Hfirst, Hdiff. cbn [negb].
    set (r1 := Request.set_state st (Request.set_next_due (Some d) r)).
    set (m1 := ReqManager.set_requests
                 (dict_set key r1 (ReqManager.requests m)) m).
    set (w2 := snd (utcnow w1)).
    set (stamped := Request.set_last_scheduled_at
                      (Some (mk_datetime (now w2) UTC)) r1).
    assert (Hstamp :
              bind (in_world utcnow)
                (fun t =>
                   self_set (Request.set_last_scheduled_at (Some t)) ;;
                   Request.save) (r1, w1)
              = (Ok tt, (stamped, with_file (saved_file stamped) w2))).
    { rewrite (bind_returns _ _ (r1, w1) (mk_datetime (now w2) UTC) (r1, w2))
        by reflexivity.
      rewrite (bind_returns _ _ (r1, w2) tt (stamped, w2)) by reflexivity.
      assert (Hf2 : faults w2 = []) by (unfold w2; simpl; congruence).
      rewrite save_writes; [|exact Hdir|exact Hf2].
      rewrite with_file_no_faults by exact Hf2. reflexivity. }
    assert (Hget1 : dict_get key (ReqManager.requests m1) = Some r1)
      by apply dict_get_set_same.
    unfold try_except.
    rewrite (bind_returns _ _ (m1, w1) tt
               (ReqManager.set_requests
                  (dict_set key stamped (ReqManager.requests m)) m,
                with_file (saved_file stamped) w2)).
    + reflexivity.
    + rewrite (on_request_held key _ m1 w1 r1 Hget1), Hstamp. cbn [fst snd].
      unfold m1. cbn [ReqManager.requests ReqManager.set_requests].
      rewrite dict_set_set. reflexivity.
Qed.

Lemma schedule_item_for_held_request_witness :
  let d := mk_datetime 1461165160000000%Z UTC in
  let refreshed :=
    snd (Request.update_state
           (Request.set_next_due (Some d) request_b2, world0)) in
  let w1 := snd (utcnow (snd refreshed)) in
  let stamped :=
    Request.set_last_scheduled_at (Some (mk_datetime (now w1) UTC))
      (fst refreshed) in
  ReqManager.schedule_item parse_one_date []
    ("b2", Some (Request.due_literal "2016-04-20T15:12:40+00:00"))
    (manager_a1_b2, world0)
  = (Ok [],
     (ReqManager.set_requests
        (dict_set "b2" stamped (ReqManager.requests manager_a1_b2))
        manager_a1_b2,
      with_file (saved_file stamped) w1)).
Proof.
  cbn zeta.
  refine (proj2 (proj2 (schedule_item_for_held_request parse_one_date []
                          "b2" "2016-04-20T15:12:40+00:00"
                          (mk_datetime 1461165160000000%Z UTC)
                          manager_a1_b2 world0 request_b2
                          eq_refl I _ eq_refl eq_refl)) eq_refl _ eq_refl).
  - discriminate.
  - exists "/var/spool/maintenance/requests/b2". split; reflexivity.
Defined.

Lemma dict_get_In {V} (key : string) (v : V) (d : dict V) :
  NoDup (map fst d) -> In (key, v) d -> dict_get key d = Some v.
Proof.
  induction d as [|[k x] d IH]; simpl; [tauto|].
  intros Hnd [Heq|Hin].
  - injection Heq as -> ->. rewrite String.eqb_refl. reflexivity.
  - inversion Hnd as [|? ? Hnotin Hnd']; subst.
    destruct (String.eqb_spec k key) as [->|Hk].
    + exfalso. apply Hnotin. apply (in_map fst) in Hin. exact Hin.
    + apply IH; assumption.
Qed.

Lemma refresh_all_In (rs : dict Request.t) :
  forall (w : World Request.t) (key : string) (r' : Request.t),
    In (key, r') (fst (refresh_all rs w)) ->
    exists r w0,
      In (key, r) rs /\ r' = fst (snd (Request.update_state (r, w0))).
Proof.
  induction rs as [|[k r] rs IH]; intros w key r'; simpl; [tauto|].
  intros [Heq|Hin].
  - injection Heq as -> <-. exists r, w. auto.
  - destruct (IH _ _ _ Hin) as (r0 & w0 & Hin0 & Heq0).
    exists r0, w0. auto.
Qed.

(** X23: [runnable] yields only requests that the manager then holds
    under the key given, that have made at most 48 attempts and whose
    state is [running], [due] or [tempfail]: a request past the retry
    limit is never handed out for execution. *)
Theorem runnable_yields_within_retry_limit :
  forall (m : ReqManager.t) (w : World Request.t),
    NoDup (map fst (ReqManager.requests m)) ->
    Forall (fun kr => due_has_timezone (snd kr)) (ReqManager.requests m) ->
    exists yielded m' w',
      ReqManager.runnable (m, w) = (Ok yielded, (m', w'))
      /\ forall key r,
           In (key, r) yielded ->
           dict_get key (ReqManager.requests m') = Some r
           /\ (List.length (Request.attempts r) <= Request.MAX_RETRIES)%nat
           /\ (Request.state r = State.running
               \/ Request.state r = State.due
               \/ Request.state r = State.tempfail).
Proof.
  intros m w Hnd Hall.
  destruct (runnable_returns m w Hnd Hall) as (later & Hrun & Hperm & _).
  cbn zeta in *.
  set (refreshed := fst (refresh_all (ReqManager.requests m) w)) in *.
  eexists _, _, _. split; [exact Hrun|].
  intros key r Hin.
  assert (Hheld : In (key, r) refreshed
                  /\ (Request.state r = State.running
                      \/ Request.state r = State.due
                      \/ Request.state r = State.tempfail)).
  { apply in_app_or in Hin. destruct Hin as [Hin|Hin].
    - apply filter_In in Hin. destruct Hin as [Hin Hst]. split; [exact Hin|].
      unfold is_running in Hst. cbn [snd] in Hst.
      destruct (Request.state r); try discriminate. auto.
    - apply (Permutation_in _ Hperm) in Hin.
      apply filter_In in Hin. destruct Hin as [Hin Hst]. split; [exact Hin|].
      unfold is_due_or_tempfail in Hst. cbn [snd] in Hst.
      destruct (Request.state r); try discriminate; auto. }
  destruct Hheld as [Hheld Hst].
  split; [|split; [|exact Hst]].
  - apply dict_get_In; [|exact Hheld].
    cbn [ReqManager.requests ReqManager.set_requests].
    unfold refreshed. rewrite refresh_all_keys. exact Hnd.
  - destruct (refresh_all_In _ _ _ _ Hheld) as (r0 & w0 & Hin0 & Heq).
    destruct (update_state_only_state r0 w0) as ([st Hset] & _).
    cbn zeta in Hset. rewrite <- Heq in Hset.
    assert (Hatt : Request.attempts r = Request.attempts r0)
      by (rewrite Hset; destruct r0; reflexivity).
    rewrite Hatt.
    destruct (Nat.le_gt_cases (List.length (Request.attempts r0))
                Request.MAX_RETRIES) as [Hle|Hgt]; [exact Hle|].
    exfalso.
    rewrite Forall_forall in Hall. pose proof (Hall _ Hin0) as Htz.
    cbn [snd] in Htz.
    destruct (update_state_over_limit r0 w0 Hgt Htz) as (w1 & Hu).
    rewrite Hu in Heq. cbn [fst snd] in Heq. subst r.
    destruct r0. cbn in Hst.
    destruct Hst as [Hst|[Hst|Hst]]; discriminate.
Qed.

Lemma runnable_yields_within_retry_limit_witness :
  exists yielded m' w',
    ReqManager.runnable (manager_three, world0) = (Ok yielded, (m', w'))
    /\ forall key r,
         In (key, r) yielded ->
         dict_get key (ReqManager.requests m') = Some r
         /\ (List.length (Request.attempts r) <= Request.MAX_RETRIES)%nat
         /\ (Request.state r = State.running
             \/ Request.state r = State.due
             \/ Request.state r = State.tempfail).
Proof.
  apply (runnable_yields_within_retry_limit manager_three world0).
  - repeat constructor; simpl; intuition discriminate.
  - repeat constructor; reflexivity.
Defined.

Lemma update_state_clock (r : Request.t) (w : World Request.t) :
  clock_runs_forward w ->
  clock_runs_forward (snd (snd (Request.update_state (r, w))))
  /\ (now w <= now (snd (snd (Request.update_state (r, w)))))%Z.
Proof.
  intros Hfw.
  assert (Hread : clock_runs_forward (after_reading w)
                  /\ (now w <= now (after_reading w))%Z).
  { unfold clock_runs_forward, after_reading in *. simpl.
    destruct (ticks w) as [|tick rest]; simpl.
    - split; [constructor|lia].
    - inversion Hfw; subst. split; [assumption|lia]. }
  assert (Hstay : clock_runs_forward w /\ (now w <= now w)%Z)
    by (split; [exact Hfw|lia]).
  unfold after_reading in Hread.
  unfold Request.update_state. run_monad.
  destruct (State.eqb (Request.state r) State.pending
            || State.eqb (Request.state r) State.postpone); simpl.
  - destruct (Request.next_due r) as [d|]; simpl.
    + unfold datetime_ge; simpl. destruct (aware d); simpl.
      * destruct (instant d <=? now w + hd 0 (ticks w))%Z; simpl;
          destruct (Request.MAX_RETRIES <? List.length (Request.attempts r))%nat;
          simpl; exact Hread.
      * exact Hread.
    + destruct (Request.MAX_RETRIES <? List.length (Request.attempts r))%nat;
        simpl; exact Hstay.
  - destruct (Request.MAX_RETRIES <? List.length (Request.attempts r))%nat;
      simpl; exact Hstay.
Qed.

Lemma refresh_all_visits (rs : dict Request.t) :
  forall (w : World Request.t) (key : string) (r : Request.t),
    clock_runs_forward w ->
    In (key, r) rs ->
    exists w0,
      clock_runs_forward w0
      /\ (now w <= now w0)%Z
      /\ In (key, fst (snd (Request.update_state (r, w0))))
           (fst (refresh_all rs w)).
Proof.
  induction rs as [|[k r0] rs IH]; intros w key r Hfw; simpl; [tauto|].
  intros [Heq|Hin].
  - injection Heq as -> ->. exists w. split; [exact Hfw|]. split; [lia|].
    left. reflexivity.
  - destruct (update_state_clock r0 w Hfw) as [Hfw1 Hnow1].
    destruct (IH _ key r Hfw1 Hin) as (w0 & Hfw0 & Hnow0 & Hin0).
    exists w0. split; [exact Hfw0|]. split; [lia|]. right. exact Hin0.
Qed.

(** X24: when the clock does not run backwards, [runnable] yields every
    request it should: a held request with at most 48 attempts that is
    [running], [due] or [tempfail] is yielded as it is, and a [pending]
    or postponed one whose due date is not after the time of the call is
    yielded in state [due]. *)
Theorem runnable_yields_what_is_due :
  forall (m : ReqManager.t) (w : World Request.t) (key : string)
         (r : Request.t),
    NoDup (map fst (ReqManager.requests m)) ->
    Forall (fun kr => due_has_timezone (snd kr)) (ReqManager.requests m) ->
    clock_runs_forward w ->
    In (key, r) (ReqManager.requests m) ->
    (List.length (Request.attempts r) <= Request.MAX_RETRIES)%nat ->
    exists yielded s',
      ReqManager.runnable (m, w) = (Ok yielded, s')
      /\ (Request.state r = State.running
          \/ Request.state r = State.due
          \/ Request.state r = State.tempfail ->
          In (key, r) yielded)
      /\ (forall d,
             Request.state r = State.pending
             \/ Request.state r = State.postpone ->
             Request.next_due r = Some d ->
             (instant d <= now w)%Z ->
             In (key, Request.set_state State.due r) yielded).
Proof.
  intros m w key r Hnd Hall Hfw Hin Hlen.
  destruct (runnable_returns m w Hnd Hall) as (later & Hrun & Hperm & _).
  cbn zeta in *.
  set (refreshed := fst (refresh_all (ReqManager.requests m) w)) in *.
  eexists _, _. split; [exact Hrun|].
  destruct (refresh_all_visits _ w key r Hfw Hin) as (w0 & Hfw0 & Hnow & Hin0).
  fold refreshed in Hin0.
  destruct (update_state_up_to_limit r w0 Hlen) as (Hother & _ & Hdated).
  assert (Hyield : forall r1 : Request.t,
             In (key, r1) refreshed ->
             Request.state r1 = State.running
             \/ Request.state r1 = State.due
             \/ Request.state r1 = State.tempfail ->
             In (key, r1) (filter is_running refreshed ++ later)).
  { intros r1 Hin1 Hst. apply in_or_app.
    destruct Hst as [Hst|Hst].
    - left. apply filter_In. split; [exact Hin1|].
      unfold is_running. cbn [snd]. rewrite Hst. reflexivity.
    - right. apply (Permutation_in _ (Permutation_sym Hperm)).
      apply filter_In. split; [exact Hin1|].
      unfold is_due_or_tempfail. cbn [snd].
      destruct Hst as [-> | ->]; reflexivity. }
  split.
  - intros Hst. apply Hyield; [|exact Hst].
    rewrite Hother in Hin0; [exact Hin0| |];
      destruct Hst as [Hst|[Hst|Hst]]; rewrite Hst; discriminate.
  - intros d Hst Hd Hdue.
    rewrite Forall_forall in Hall. pose proof (Hall _ Hin) as Htz.
    unfold due_has_timezone in Htz. cbn [snd] in Htz. rewrite Hd in Htz.
    pose proof (Hdated d Hst Hd Htz) as Hu. cbn zeta in Hu.
    assert (Hreached : (instant d <=? now w0 + hd 0 (ticks w0))%Z = true).
    { apply Z.leb_le.
      assert (0 <= hd 0 (ticks w0))%Z.
      { unfold clock_runs_forward in Hfw0.
        destruct (ticks w0); simpl; [lia|]. inversion Hfw0; assumption. }
      lia. }
    rewrite Hreached in Hu. rewrite Hu in Hin0. cbn [fst snd] in Hin0.
    apply Hyield; [exact Hin0|].
    right. left. destruct r; reflexivity.
Qed.

Lemma runnable_yields_what_is_due_witness :
  exists yielded s',
    ReqManager.runnable (manager_three, world0) = (Ok yielded, s')
    /\ (Request.state request_b2_due = State.running
        \/ Request.state request_b2_due = State.due
        \/ Request.state request_b2_due = State.tempfail ->
        In ("b2", request_b2_due) yielded)
    /\ (forall d,
           Request.state request_b2_due = State.pending
           \/ Request.state request_b2_due = State.postpone ->
           Request.next_due request_b2_due = Some d ->
           (instant d <= now world0)%Z ->
           In ("b2", Request.set_state State.due request_b2_due) yielded).
Proof.
  apply (runnable_yields_what_is_due manager_three world0 "b2"
           request_b2_due).
  - repeat constructor; simpl; intuition discriminate.
  - repeat constructor; reflexivity.
  - repeat constructor; lia.
  - right. left. reflexivity.
  - simpl. lia.
Defined.

(** ** Further properties on the scenarios *)

Lemma ensure_timezone_present_normalizes_witness :
  ensure_timezone_present (ensure_timezone_present (Some naive_noon))
  = ensure_timezone_present (Some naive_noon).
Proof.
  exact (proj2 (ensure_timezone_present_normalizes (Some naive_noon))).
Defined.

Lemma lt_raises_on_mixed_due_dates_witness :
  exists e,
    Request.lt (Request.set_next_due (Some naive_noon) request_a1)
      request_b2_due
    = Raise e.
Proof.
  apply (proj2 (lt_raises_on_mixed_due_dates
                  (Request.set_next_due (Some naive_noon) request_a1)
                  request_b2_due)).
  exists naive_noon, (mk_datetime 400%Z UTC).
  split; [reflexivity|]. split; [reflexivity|]. discriminate.
Defined.

Lemma add_enters_under_id_witness :
  dict_get "a1"
    (ReqManager.requests
       (fst (snd (ReqManager.add (Some request_b2) false
                    (manager_a1, world0)))))
  = dict_get "a1" (ReqManager.requests manager_a1).
Proof.
  apply (proj2 (proj2 (add_enters_under_id manager_a1 world0 request_b2))).
  discriminate.
Defined.
